(** * Code-Smell-Detector: the analysis engine, embedded and verified

    A shallow embedding of [src/utils/astParser.ts] (the metrics
    calculator) and [src/utils/codeAnalysis.ts] (the smell detectors, the
    orchestrator [analyzeCode] and the aggregator [calculateStats]).

    Conventions of the embedding:
    - a JavaScript string is a Rocq [string]; one [ascii] stands for one
      code unit, so the model covers text in the Latin-1 range;
    - a JavaScript number is a [number]: an exact rational, an infinity or
      NaN.  The rounding of binary64, its overflow to an infinity and the
      sign of zero are not modelled: the statements below use numbers
      only for counts, for the quotient of two counts and for the NaN of
      [0 / 0];
    - the module-level [fileContentStore], the parser singleton, the uuid
      generator and the clock are fields of an explicit [World] that every
      effectful function threads;
    - the tree-sitter grammar is external to the repository: the parse
      function is a section variable, and the tree cursor is modelled from
      the library's interface as a zipper that cannot leave the node it
      was created on. *)

From Stdlib Require Import QArith ZArith Lia Ascii String List DecimalString Permutation Sorted.
From stdpp Require Import base option list gmap strings.

Local Open Scope string_scope.
Local Open Scope list_scope.
Local Open Scope nat_scope.

(* ===================================================================== *)
(** ** JavaScript strings *)
(* ===================================================================== *)

Module JsString.

Definition char_code (c : ascii) : nat := nat_of_ascii c.

(** The double-quote character, spelled by its code. *)
Definition dquote : string := String (ascii_of_nat 34) EmptyString.

Definition newline : ascii := ascii_of_nat 10.

(** [\s] of the regular-expression grammar and the set stripped by
    [String.prototype.trim], restricted to Latin-1. *)
Definition is_space (c : ascii) : bool :=
  let n := char_code c in
  ((9 <=? n) && (n <=? 13)) || (n =? 32) || (n =? 160).

(** [\w]: letters, digits, underscore. *)
Definition is_word (c : ascii) : bool :=
  let n := char_code c in
  ((48 <=? n) && (n <=? 57)) || ((65 <=? n) && (n <=? 90))
  || ((97 <=? n) && (n <=? 122)) || (n =? 95).

Definition is_digit (c : ascii) : bool :=
  let n := char_code c in (48 <=? n) && (n <=? 57).

(** Line terminators: [.] does not match them, and [^] matches after
    them under the [m] flag. *)
Definition is_line_terminator (c : ascii) : bool :=
  let n := char_code c in (n =? 10) || (n =? 13).

Definition chars (s : string) : list ascii := list_ascii_of_string s.
Definition of_chars (l : list ascii) : string := string_of_list_ascii l.

(** [s.startsWith(p)]. *)
Fixpoint startsWith (p s : string) : bool :=
  match p, s with
  | EmptyString, _ => true
  | String a p', String b s' => if Ascii.eqb a b then startsWith p' s' else false
  | String _ _, EmptyString => false
  end.

(** [s.includes(p)]. *)
Fixpoint includes (p s : string) : bool :=
  if startsWith p s then true
  else match s with
       | EmptyString => false
       | String _ s' => includes p s'
       end.

(** [s.endsWith(p)]. *)
Definition endsWith (p s : string) : bool :=
  startsWith (of_chars (rev (chars p))) (of_chars (rev (chars s))).

(** [s.substring(0, n)] for [0 <= n]. *)
Fixpoint substring0 (n : nat) (s : string) : string :=
  match n, s with
  | 0, _ => EmptyString
  | S n', String c s' => String c (substring0 n' s')
  | S _, EmptyString => EmptyString
  end.

(** [s.split(sep)] for a non-empty separator.  [skip] counts the
    characters of a separator still to be dropped, [cur] holds the
    current piece in reverse. *)
Fixpoint split_go (sep : string) (s : string) (skip : nat) (cur : list ascii)
  : list string :=
  match s with
  | EmptyString => [of_chars (rev cur)]
  | String c s' =>
      match skip with
      | S k => split_go sep s' k cur
      | 0 =>
          if startsWith sep s
          then of_chars (rev cur) :: split_go sep s' (String.length sep - 1) []
          else split_go sep s' 0 (c :: cur)
      end
  end.

Definition split (sep s : string) : list string := split_go sep s 0 [].

Definition lines (s : string) : list string := split (String newline EmptyString) s.

Fixpoint drop_spaces (l : list ascii) : list ascii :=
  match l with
  | c :: l' => if is_space c then drop_spaces l' else l
  | [] => []
  end.

(** [s.trim()]. *)
Definition trim (s : string) : string :=
  of_chars (rev (drop_spaces (rev (drop_spaces (chars s))))).

(** [s.replace(/\s+/g, ' ')]: every maximal run of white space becomes
    one blank. *)
Fixpoint collapse_spaces (in_run : bool) (l : list ascii) : list ascii :=
  match l with
  | [] => []
  | c :: l' =>
      if is_space c
      then if in_run then collapse_spaces true l'
           else ascii_of_nat 32 :: collapse_spaces true l'
      else c :: collapse_spaces false l'
  end.

(** [s.replace(c, '')] with a one-character string pattern: only the
    first occurrence goes. *)
Fixpoint remove_first (c : ascii) (s : string) : string :=
  match s with
  | EmptyString => EmptyString
  | String a s' => if Ascii.eqb a c then s' else String a (remove_first c s')
  end.

Definition count_char (c : ascii) (s : string) : nat :=
  length (filter (fun a => Ascii.eqb a c = true) (chars s)).

(** Number-to-string conversion inside template literals. *)
Definition of_nat (n : nat) : string := NilEmpty.string_of_uint (Nat.to_uint n).

Definition of_Z (z : Z) : string :=
  match z with
  | Zneg p => String.append "-" (of_nat (Pos.to_nat p))
  | _ => of_nat (Z.to_nat z)
  end.

(** The 1-based line of an offset, as every lexical detector computes
    it: [content.substring(0, index).split('\n').length]. *)
Definition line_of (content : string) (index : nat) : nat :=
  length (lines (substring0 index content)).

End JsString.

(* ===================================================================== *)
(** ** Syntax trees and the tree cursor *)
(* ===================================================================== *)

(** A node of the concrete syntax tree: its type tag, its source text, the
    row it starts on and its children, each under an optional field
    name. *)
#[warnings="-register-all"] Inductive SyntaxNode : Type :=
| mkNode (ntype : string) (ntext : string) (startRow : nat)
         (kids : list (option string * SyntaxNode)).

Definition nodeTypeOf (n : SyntaxNode) : string :=
  match n with mkNode t _ _ _ => t end.
Definition textOf (n : SyntaxNode) : string :=
  match n with mkNode _ x _ _ => x end.
Definition startRowOf (n : SyntaxNode) : nat :=
  match n with mkNode _ _ r _ => r end.
Definition childrenOf (n : SyntaxNode) : list (option string * SyntaxNode) :=
  match n with mkNode _ _ _ k => k end.

(** [node.childForFieldName(name)]: the first child under that field. *)
Fixpoint find_field (name : string) (kids : list (option string * SyntaxNode))
  : option SyntaxNode :=
  match kids with
  | [] => None
  | (Some f, c) :: rest => if String.eqb f name then Some c else find_field name rest
  | (None, _) :: rest => find_field name rest
  end.

Definition childForFieldName (name : string) (n : SyntaxNode) : option SyntaxNode :=
  find_field name (childrenOf n).

(** The cursor: the node it stands on and, for each ancestor between the
    node the cursor was created on and the current one, that ancestor with
    the index of the child taken.  An empty trail means the cursor stands
    on its root. *)
Record TreeCursor : Type := mkCursor {
  focus : SyntaxNode;
  trail : list (SyntaxNode * nat)
}.

(** [node.walk()]: a cursor rooted at (and confined to) [node]. *)
Definition walk (n : SyntaxNode) : TreeCursor := mkCursor n [].

Definition nodeType (c : TreeCursor) : string := nodeTypeOf (focus c).
Definition currentNode (c : TreeCursor) : SyntaxNode := focus c.

(** [cursor.gotoNextSibling()]: [None] is the call returning [false],
    which leaves the cursor where it was.  On the node the cursor was
    created on there is no sibling to go to, whatever surrounds that node
    in the tree. *)
Definition gotoNextSibling (c : TreeCursor) : option TreeCursor :=
  match trail c with
  | [] => None
  | (parent, i) :: up =>
      match childrenOf parent !! S i with
      | Some (_, sib) => Some (mkCursor sib ((parent, S i) :: up))
      | None => None
      end
  end.

(** [cursor.gotoParent()]; it fails on the node the cursor was created
    on. *)
Definition gotoParent (c : TreeCursor) : option TreeCursor :=
  match trail c with
  | [] => None
  | (parent, _) :: up => Some (mkCursor parent up)
  end.

(** [cursor.gotoFirstChild()]; no function of the metrics calculator
    calls it. *)
Definition gotoFirstChild (c : TreeCursor) : option TreeCursor :=
  match childrenOf (focus c) with
  | [] => None
  | (_, k) :: _ => Some (mkCursor k ((focus c, 0) :: trail c))
  end.

(** The loop condition shared by every metric:
    [cursor.gotoNextSibling() || cursor.gotoParent() && cursor.gotoNextSibling()].
    [Some] carries the cursor of the next iteration; [None] is the
    condition evaluating to [false], which ends the loop. *)
Definition advance (c : TreeCursor) : option TreeCursor :=
  match gotoNextSibling c with
  | Some c' => Some c'
  | None =>
      match gotoParent c with
      | Some p => gotoNextSibling p
      | None => None
      end
  end.

(** A bound on the iterations still possible from a cursor. *)
Fixpoint trail_measure (t : list (SyntaxNode * nat)) : nat :=
  match t with
  | [] => 0
  | (parent, i) :: up => S (length (childrenOf parent) - i) + trail_measure up
  end.

Definition cursor_measure (c : TreeCursor) : nat := trail_measure (trail c).

(** [do { body } while (advance)]: the body runs on the current cursor,
    then the condition moves it. *)
Fixpoint cursor_loop {A : Type} (fuel : nat) (body : TreeCursor -> A -> A)
  (c : TreeCursor) (acc : A) : A :=
  match fuel with
  | 0 => acc
  | S fuel' =>
      let acc' := body c acc in
      match advance c with
      | Some c' => cursor_loop fuel' body c' acc'
      | None => acc'
      end
  end.

Definition do_while {A : Type} (body : TreeCursor -> A -> A) (c : TreeCursor) (acc : A) : A :=
  cursor_loop (S (cursor_measure c)) body c acc.

(* ===================================================================== *)
(** ** The metrics calculator (class [ASTParser]) *)
(* ===================================================================== *)

Definition incrementingNodes : list string :=
  [ "if_statement"; "while_statement"; "for_statement"; "case_statement";
    "&&"; "||"; "catch_clause" ].

Definition list_includes (x : string) (l : list string) : bool :=
  existsb (String.eqb x) l.

Definition calculateCyclomaticComplexity (node : SyntaxNode) : nat :=
  do_while
    (fun cursor complexity =>
       if list_includes (nodeType cursor) incrementingNodes
       then S complexity else complexity)
    (walk node) 1.

(** What the specification asks for: one for the base path plus one per
    decision-introducing node anywhere in the subtree. *)
Fixpoint decision_nodes (n : SyntaxNode) : nat :=
  match n with
  | mkNode t _ _ kids =>
      (if list_includes t incrementingNodes then 1 else 0)
      + (fix over (l : list (option string * SyntaxNode)) : nat :=
           match l with
           | [] => 0
           | (_, k) :: l' => decision_nodes k + over l'
           end) kids
  end.

Definition spec_cyclomatic (n : SyntaxNode) : nat := 1 + decision_nodes n.

(** The decision-introducing nodes strictly below a node. *)
Definition decision_nodes_below (n : SyntaxNode) : nat :=
  (fix over (l : list (option string * SyntaxNode)) : nat :=
     match l with
     | [] => 0
     | (_, k) :: l' => decision_nodes k + over l'
     end) (childrenOf n).

Definition leaf (t : string) : SyntaxNode := mkNode t EmptyString 0 [].

(** A block holding one conditional: [{ if (x) y(); }]. *)
Definition block_with_if : SyntaxNode :=
  mkNode "compound_statement" "{ if (x) y(); }" 0
    [ (None, leaf "{");
      (None, mkNode "if_statement" "if (x) y();" 0 []);
      (None, leaf "}") ].

(* ===================================================================== *)
(** ** JavaScript numbers *)
(* ===================================================================== *)

Module JsNumber.

(** A number is a finite rational, an infinity or NaN. *)
Inductive number : Type :=
| Fin (q : Q)
| PosInf
| NegInf
| NaN.

Definition of_nat (n : nat) : number := Fin (inject_Z (Z.of_nat n)).

(** [a + b]. *)
Definition add (a b : number) : number :=
  match a, b with
  | NaN, _ | _, NaN => NaN
  | Fin x, Fin y => Fin (x + y)
  | PosInf, NegInf | NegInf, PosInf => NaN
  | PosInf, _ | _, PosInf => PosInf
  | NegInf, _ | _, NegInf => NegInf
  end.

Definition sign_of (q : Q) : comparison := (q ?= 0)%Q.

Definition flip (a : number) : number :=
  match a with
  | PosInf => NegInf
  | NegInf => PosInf
  | other => other
  end.

(** [a / b]: a zero divisor gives an infinity, or NaN for [0 / 0]. *)
Definition div (a b : number) : number :=
  match a, b with
  | NaN, _ | _, NaN => NaN
  | Fin x, Fin y =>
      match sign_of y with
      | Eq => match sign_of x with
              | Eq => NaN
              | Gt => PosInf
              | Lt => NegInf
              end
      | _ => Fin (x / y)
      end
  | Fin _, _ => Fin 0
  | inf, Fin y => match sign_of y with Lt => flip inf | _ => inf end
  | _, _ => NaN
  end.

Definition is_nan (a : number) : bool :=
  match a with NaN => true | _ => false end.

End JsNumber.

Abbreviation number := JsNumber.number.

(* ===================================================================== *)
(** ** Regular expressions *)
(* ===================================================================== *)

(** A backtracking matcher with the priorities of the JavaScript engine:
    alternatives are tried left to right, a greedy repetition tries one
    more iteration before it tries to stop, a lazy one the other way
    round, and an iteration that consumes nothing is abandoned. *)
Module Regex.

Inductive regex : Type :=
| Eps
| Chr (p : ascii -> bool)
| Seq (r1 r2 : regex)
| Alt (r1 r2 : regex)
| Star (greedy : bool) (r : regex)
| Group (i : nat) (r : regex)
| Bol.

(** Where the matcher stands: the text still ahead, the offset reached,
    the character just behind, and the capture groups closed so far. *)
Record mstate : Type := mkState {
  ahead : list ascii;
  offset : nat;
  behind : option ascii;
  caps : list (nat * string)
}.

Definition cont : Type := mstate -> option mstate.

Definition step_char (p : ascii -> bool) (k : cont) (st : mstate) : option mstate :=
  match ahead st with
  | c :: rest =>
      if p c then k (mkState rest (S (offset st)) (Some c) (caps st)) else None
  | [] => None
  end.

Definition first_of (a : option mstate) (b : unit -> option mstate) : option mstate :=
  match a with
  | Some x => Some x
  | None => b tt
  end.

Fixpoint star_loop (body : cont -> cont) (greedy : bool) (fuel : nat)
  (k : cont) (st : mstate) : option mstate :=
  match fuel with
  | 0 => k st
  | S fuel' =>
      let again (_ : unit) :=
        body (fun st' =>
                if offset st' =? offset st then None
                else star_loop body greedy fuel' k st') st in
      if greedy then first_of (again tt) (fun _ => k st)
      else first_of (k st) again
  end.

(** With the [m] flag, [^] matches at the start of the text and after a
    line terminator. *)
Definition at_line_start (st : mstate) : bool :=
  match behind st with
  | None => true
  | Some c => JsString.is_line_terminator c
  end.

Definition close_group (i : nat) (opened : mstate) (k : cont) : cont :=
  fun st =>
    let captured :=
      JsString.of_chars (take (offset st - offset opened) (ahead opened)) in
    k (mkState (ahead st) (offset st) (behind st) ((i, captured) :: caps st)).

Fixpoint run (r : regex) (k : cont) (st : mstate) {struct r} : option mstate :=
  match r with
  | Eps => k st
  | Chr p => step_char p k st
  | Seq r1 r2 => run r1 (run r2 k) st
  | Alt r1 r2 => first_of (run r1 k st) (fun _ => run r2 k st)
  | Star greedy r1 => star_loop (run r1) greedy (S (length (ahead st))) k st
  | Group i r1 => run r1 (close_group i st k) st
  | Bol => if at_line_start st then k st else None
  end.

(** Pattern syntax. *)
Definition plus (r : regex) : regex := Seq r (Star true r).
Definition star (r : regex) : regex := Star true r.
Definition lazy_star (r : regex) : regex := Star false r.
Definition opt (r : regex) : regex := Alt r Eps.
Definition chr (c : ascii) : regex := Chr (Ascii.eqb c).
Definition none_of (s : string) : regex :=
  Chr (fun c => negb (existsb (Ascii.eqb c) (JsString.chars s))).
Definition word : regex := Chr JsString.is_word.
Definition space : regex := Chr JsString.is_space.
Definition dot : regex := Chr (fun c => negb (JsString.is_line_terminator c)).

Fixpoint lit (s : string) : regex :=
  match s with
  | EmptyString => Eps
  | String c s' => Seq (chr c) (lit s')
  end.

Fixpoint seq (rs : list regex) : regex :=
  match rs with
  | [] => Eps
  | [r] => r
  | r :: rs' => Seq r (seq rs')
  end.

Fixpoint alt (rs : list regex) : regex :=
  match rs with
  | [] => Chr (fun _ => false)
  | [r] => r
  | r :: rs' => Alt r (alt rs')
  end.

(** One result of [exec]: [index], the matched text [match[0]] and the
    groups. *)
Record Match : Type := mkMatch {
  index : nat;
  matched : string;
  groups : list (nat * string)
}.

Fixpoint lookup_group (i : nat) (gs : list (nat * string)) : string :=
  match gs with
  | [] => EmptyString
  | (j, s) :: gs' => if i =? j then s else lookup_group i gs'
  end.

Definition group (i : nat) (m : Match) : string := lookup_group i (groups m).

(** The leftmost position at or after the current one where the pattern
    matches, with the state the match ends in. *)
Fixpoint search (r : regex) (text : list ascii) (pos : nat) (prev : option ascii)
  : option (Match * mstate) :=
  let start := mkState text pos prev [] in
  match run r Some start with
  | Some fin =>
      Some (mkMatch pos (JsString.of_chars (take (offset fin - pos) text)) (caps fin),
            fin)
  | None =>
      match text with
      | [] => None
      | c :: rest => search r rest (S pos) (Some c)
      end
  end.

(** The loop [while ((match = re.exec(text)) !== null)] of a pattern with
    the [g] flag: each search resumes where the previous match ended.  No
    pattern of this program matches the empty string, so every round
    consumes text and the fuel, one more than the length of the text, is
    never used up. *)
Fixpoint exec_from (fuel : nat) (r : regex) (text : list ascii) (pos : nat)
  (prev : option ascii) : list Match :=
  match fuel with
  | 0 => []
  | S fuel' =>
      match search r text pos prev with
      | None => []
      | Some (m, fin) =>
          m :: exec_from fuel' r (ahead fin) (offset fin) (behind fin)
      end
  end.

Definition exec_all (r : regex) (text : string) : list Match :=
  exec_from (S (String.length text)) r (JsString.chars text) 0 None.

End Regex.

(* ===================================================================== *)
(** ** The data model ([src/types/index.ts]) *)
(* ===================================================================== *)

Infix "+++" := String.append (right associativity, at level 60).

Inductive CodeSmellType : Type :=
| LongFunction
| LargeClass
| DuplicateCode
| PrimitiveObsession
| LongParameterList
| InappropriateIntimacy
| GlobalVariables
| ComplexCondition
| DeepNesting.

Inductive Severity : Type := low | medium | high.

Record CodeMetrics : Type := mkMetrics {
  cyclomaticComplexity : number;
  linesOfCode : number;
  methodCount : number;
  inheritanceDepth : number;
  couplingCount : number;
  cohesionScore : number
}.

Record CodeSmell : Type := mkSmell {
  id : string;
  type : CodeSmellType;
  fileName : string;
  lineNumber : nat;
  endLineNumber : option nat;
  codeSnippet : string;
  entityName : string;
  description : string;
  refactoringTip : string;
  severity : Severity;
  metrics : option CodeMetrics
}.

Module AnalysisResult.
Record t : Type := mk {
  fileName : string;
  fileSize : nat;
  smells : list CodeSmell;
  totalSmells : nat;
  timestamp : nat;
  metrics : CodeMetrics
}.
End AnalysisResult.

(** A finding with its identity blanked: what two findings must share to
    count as the same finding. *)
Definition erase_id (s : CodeSmell) : CodeSmell :=
  mkSmell EmptyString (type s) (fileName s) (lineNumber s) (endLineNumber s)
    (codeSnippet s) (entityName s) (description s) (refactoringTip s)
    (severity s) (metrics s).

(* ===================================================================== *)
(** ** Effects: the uuid generator and the module state *)
(* ===================================================================== *)

(** The uuid generator: an arbitrary source of identifiers and the number
    of identifiers drawn so far. *)
Record UuidGen : Type := mkUuidGen {
  uuidSource : nat -> string;
  uuidDrawn : nat
}.

(** Synchronous code whose only effect is drawing identifiers. *)
Definition Gen (A : Type) : Type := UuidGen -> A * UuidGen.

Definition gret {A : Type} (a : A) : Gen A := fun u => (a, u).

Definition gbind {A B : Type} (g : Gen A) (f : A -> Gen B) : Gen B :=
  fun u => let p := g u in f (fst p) (snd p).

Notation "'doG' x <- g ; k" := (gbind g (fun x => k))
  (at level 10, x name, g at level 99, k at level 200).

(** [uuidv4()]. *)
Definition uuidv4 : Gen string :=
  fun u => (uuidSource u (uuidDrawn u), mkUuidGen (uuidSource u) (S (uuidDrawn u))).

(** A loop over a list that carries the local variables of the loop. *)
Fixpoint gfold {A S : Type} (f : S -> A -> Gen S) (s : S) (l : list A) : Gen S :=
  match l with
  | [] => gret s
  | x :: l' => doG s' <- f s x; gfold f s' l'
  end.

(** [smells.push(...)] of a finding whose id is drawn at that moment. *)
Definition push (smells : list CodeSmell) (mk : string -> CodeSmell)
  : Gen (list CodeSmell) :=
  doG i <- uuidv4; gret (smells ++ [mk i]).

(** The state outside any single call: the content cache, the parser
    singleton (whether it has been initialised, and whether the grammar
    resources can be loaded), the uuid generator and the clock. *)
Record World : Type := mkWorld {
  fileContentStore : gmap string string;
  parserInitialized : bool;
  grammarAvailable : bool;
  uuids : UuidGen;
  clock : nat
}.

Inductive Outcome (A : Type) : Type :=
| Returned (a : A)
| Thrown (message : string).
Arguments Returned {A} a.
Arguments Thrown {A} message.

(** Code that may read and write the module state and may throw. *)
Definition Eff (A : Type) : Type := World -> Outcome A * World.

Definition ret {A : Type} (a : A) : Eff A := fun w => (Returned a, w).

Definition throw {A : Type} (message : string) : Eff A := fun w => (Thrown message, w).

Definition bind {A B : Type} (e : Eff A) (f : A -> Eff B) : Eff B :=
  fun w =>
    match e w with
    | (Returned a, w') => f a w'
    | (Thrown message, w') => (Thrown message, w')
    end.

Notation "'doE' x <- e ; k" := (bind e (fun x => k))
  (at level 10, x name, e at level 99, k at level 200).

Definition lift {A : Type} (g : Gen A) : Eff A :=
  fun w =>
    let p := g (uuids w) in
    (Returned (fst p),
     mkWorld (fileContentStore w) (parserInitialized w) (grammarAvailable w) (snd p)
       (clock w)).

(** [fileContentStore.set(fileName, content)]. *)
Definition store_set (name content : string) : Eff unit :=
  fun w =>
    (Returned tt,
     mkWorld (<[name := content]> (fileContentStore w)) (parserInitialized w)
       (grammarAvailable w) (uuids w) (clock w)).

(** [fileContentStore.get(fileName)]. *)
Definition store_get (name : string) : Eff (option string) :=
  fun w => (Returned (fileContentStore w !! name), w).

(** [Date.now()]. *)
Definition Date_now : Eff nat := fun w => (Returned (clock w), w).

(** [ASTParser.getInstance()]: the first successful call loads the grammar
    and marks the singleton initialised; a load that is rejected reaches
    the [catch] of [initialize], which throws the error below and leaves
    the singleton uninitialised.  [grammarAvailable] tells the two apart;
    a load that neither resolves nor rejects (the runtime missing
    altogether) is outside the model: no statement is made about it. *)
Definition getInstance : Eff unit :=
  fun w =>
    if parserInitialized w then (Returned tt, w)
    else if grammarAvailable w
         then (Returned tt,
               mkWorld (fileContentStore w) true (grammarAvailable w) (uuids w) (clock w))
         else (Thrown "Failed to initialize code parser. Please ensure all required files are present.", w).

(* ===================================================================== *)
(** ** The metrics calculator, continued *)
(* ===================================================================== *)

Definition countMethods (node : SyntaxNode) : nat :=
  do_while
    (fun cursor methodCount =>
       if String.eqb (nodeType cursor) "function_definition"
       then S methodCount else methodCount)
    (walk node) 0.

(** The inner [while (baseClass)] loop: how many times the [base_class]
    field can be followed, starting from the children of a node. *)
Fixpoint base_class_chain (n : SyntaxNode) : nat :=
  match n with
  | mkNode _ _ _ kids =>
      (fix first_base (l : list (option string * SyntaxNode)) : nat :=
         match l with
         | [] => 0
         | (Some f, c) :: l' =>
             if String.eqb f "base_class" then S (base_class_chain c) else first_base l'
         | (None, _) :: l' => first_base l'
         end) kids
  end.

Definition calculateInheritanceDepth (node : SyntaxNode) : nat :=
  do_while
    (fun cursor maxDepth =>
       if String.eqb (nodeType cursor) "class_specifier"
       then Nat.max maxDepth (base_class_chain (currentNode cursor))
       else maxDepth)
    (walk node) 0.

Definition calculateCoupling (node : SyntaxNode) : nat :=
  size
    (do_while
       (fun cursor (dependencies : gset string) =>
          if list_includes (nodeType cursor)
               ["qualified_identifier"; "field_expression"; "call_expression"]
          then
            let text := textOf (currentNode cursor) in
            if JsString.startsWith "std::" text then dependencies
            else {[ hd EmptyString (JsString.split "::" text) ]} ∪ dependencies
          else dependencies)
       (walk node) ∅).

(** [node.childForFieldName(name)?.text || '']. *)
Definition field_text (name : string) (n : SyntaxNode) : string :=
  match childForFieldName name n with
  | Some c => textOf c
  | None => EmptyString
  end.

(** A string in a condition: the empty string counts as false. *)
Definition truthy (s : string) : bool :=
  match s with EmptyString => false | _ => true end.

(** First pass of [calculateCohesion]: the method names in visiting order
    and, per method name, the fields accessed. *)
Definition collect_step (cursor : TreeCursor)
  (st : list string * gmap string (gset string)) : list string * gmap string (gset string) :=
  let (methods, fieldAccesses) := st in
  if String.eqb (nodeType cursor) "function_definition" then
    let methodName := field_text "declarator" (currentNode cursor) in
    (methods ++ [methodName], <[methodName := ∅]> fieldAccesses)
  else if String.eqb (nodeType cursor) "field_expression" then
    let fieldName := field_text "field" (currentNode cursor) in
    match last methods with
    | Some currentMethod =>
        if truthy currentMethod && truthy fieldName
        then (methods, alter (fun fields => {[ fieldName ]} ∪ fields) currentMethod fieldAccesses)
        else st
    | None => st
    end
  else st.

Definition fields_of (fieldAccesses : gmap string (gset string)) (m : string) : gset string :=
  default ∅ (fieldAccesses !! m).

Definition share_field (fields1 fields2 : gset string) : bool :=
  0 <? length (filter (fun x => x ∈ fields2) (elements fields1)).

(** Second pass: the two nested loops over [i < j]; the pair carries
    [(methodPairs, connectedPairs)]. *)
Fixpoint count_pairs (fieldAccesses : gmap string (gset string))
  (methods : list string) (acc : nat * nat) : nat * nat :=
  match methods with
  | [] => acc
  | mi :: rest =>
      count_pairs fieldAccesses rest
        (fold_left
           (fun '(methodPairs, connectedPairs) mj =>
              (S methodPairs,
               if share_field (fields_of fieldAccesses mi) (fields_of fieldAccesses mj)
               then S connectedPairs else connectedPairs))
           rest acc)
  end.

Definition cohesion_of (methods : list string)
  (fieldAccesses : gmap string (gset string)) : number :=
  let '(methodPairs, connectedPairs) := count_pairs fieldAccesses methods (0, 0) in
  if 0 <? methodPairs
  then JsNumber.div (JsNumber.of_nat connectedPairs) (JsNumber.of_nat methodPairs)
  else JsNumber.of_nat 1.

Definition collect_methods (node : SyntaxNode) : list string * gmap string (gset string) :=
  do_while collect_step (walk node) ([], ∅).

Definition calculateCohesion (node : SyntaxNode) : number :=
  let (methods, fieldAccesses) := collect_methods node in
  cohesion_of methods fieldAccesses.

Section Engine.

(** The tree-sitter C++ grammar: the root node of the tree built for a
    text, or [None] when the library call fails. *)
Variable ts_parse : string -> option SyntaxNode.

(** [parser.parseCode(code)], giving the root node of the tree. *)
Definition parseCode (code : string) : Eff SyntaxNode :=
  fun w =>
    if parserInitialized w then
      match ts_parse code with
      | Some root => (Returned root, w)
      | None => (Thrown "parse failed", w)
      end
    else (Thrown "ASTParser not initialized. Call getInstance() first.", w).

Definition calculateMetrics (code : string) : Eff CodeMetrics :=
  doE rootNode <- parseCode code;
  ret (mkMetrics
         (JsNumber.of_nat (calculateCyclomaticComplexity rootNode))
         (JsNumber.of_nat (length (JsString.lines code)))
         (JsNumber.of_nat (countMethods rootNode))
         (JsNumber.of_nat (calculateInheritanceDepth rootNode))
         (JsNumber.of_nat (calculateCoupling rootNode))
         (calculateCohesion rootNode)).

End Engine.

(* ===================================================================== *)
(** ** Keyed collections *)
(* ===================================================================== *)

(** A [Map] iterates in insertion order, and overwriting a key keeps its
    place: an association list with unique keys. *)
Module JsMap.

Definition t (V : Type) : Type := list (string * V).

Fixpoint get {V : Type} (k : string) (m : t V) : option V :=
  match m with
  | [] => None
  | (k', v) :: m' => if String.eqb k' k then Some v else get k m'
  end.

Fixpoint set {V : Type} (k : string) (v : V) (m : t V) : t V :=
  match m with
  | [] => [(k, v)]
  | (k', v') :: m' =>
      if String.eqb k' k then (k, v) :: m' else (k', v') :: set k v m'
  end.

Definition entries {V : Type} (m : t V) : list (string * V) := m.

End JsMap.

(** A plain object used as a [Record<string, number>].  Own properties are
    kept in creation order; [Object.entries] lists the array-index keys
    first, in ascending numeric order, then the other keys in creation
    order; an assignment to the key [__proto__] reaches the inherited
    setter, which ignores a number, and creates no property. *)
Module JsObject.

Definition t (V : Type) : Type := JsMap.t V.

Definition empty {V : Type} : t V := [].

Definition proto_key : string := "__proto__".

Definition assign {V : Type} (k : string) (v : V) (o : t V) : t V :=
  if String.eqb k proto_key then o else JsMap.set k v o.

Definition digit_value (c : ascii) : N := N.of_nat (JsString.char_code c - 48).

Definition numeric_value (s : string) : N :=
  fold_left (fun acc c => (acc * 10 + digit_value c)%N) (JsString.chars s) 0%N.

(** An array index: the canonical decimal spelling of an integer below
    [2^32 - 1]. *)
Definition is_array_index (s : string) : bool :=
  match s with
  | EmptyString => false
  | String c rest =>
      forallb JsString.is_digit (JsString.chars s)
      && (negb (Ascii.eqb c "0") || String.eqb rest EmptyString)
      && (String.length s <=? 10)
      && (numeric_value s <? 4294967295)%N
  end.

Fixpoint insert_by_index {V : Type} (e : string * V) (l : list (string * V))
  : list (string * V) :=
  match l with
  | [] => [e]
  | e' :: l' =>
      if (numeric_value (fst e) <=? numeric_value (fst e'))%N
      then e :: l else e' :: insert_by_index e l'
  end.

Definition sort_by_index {V : Type} (l : list (string * V)) : list (string * V) :=
  fold_right insert_by_index [] l.

Definition is_index_entry {V : Type} (e : string * V) : bool := is_array_index (fst e).

(** [Object.entries(o)]. *)
Definition entries {V : Type} (o : t V) : list (string * V) :=
  sort_by_index (List.filter is_index_entry o)
  ++ List.filter (fun e => negb (is_index_entry e)) o.

End JsObject.

(** [array.sort(compare)]: a stable sort; [a] stays ahead of a later [b]
    unless [compare(a, b) > 0]. *)
Section JsSort.
Context {A : Type} (compare : A -> A -> Z).

Fixpoint sort_insert (a : A) (l : list A) : list A :=
  match l with
  | [] => [a]
  | b :: l' => if (0 <? compare a b)%Z then b :: sort_insert a l' else a :: l
  end.

Definition js_sort (l : list A) : list A := fold_right sort_insert [] l.

End JsSort.

(* ===================================================================== *)
(** ** The structural detectors ([src/utils/codeAnalysis.ts]) *)
(* ===================================================================== *)

(** [s || fallback]. *)
Definition or_else (s fallback : string) : string :=
  if truthy s then s else fallback.

(** [text.substring(0, 500) + (text.length > 500 ? '...' : '')]. *)
Definition excerpt (text : string) : string :=
  JsString.substring0 500 text +++ (if 500 <? String.length text then "..." else EmptyString).

(** A call [node.walk(visitor)] on a syntax node.  [walk] is the method the
    metrics calculator calls as [node.walk()] and then drives by hand with
    [gotoNextSibling] and [gotoParent]: it declares no parameter and
    invokes no callback.  The argument is evaluated and dropped, and the
    call returns a fresh cursor like any other call of [walk]. *)
Definition walk_with {V : Type} (node : SyntaxNode) (visitor : V) : TreeCursor :=
  walk node.

(** The [enter] callback of [detectLongFunctions], as a function of the
    node it is given and of the findings pushed so far. *)
Definition longFunction_enter (fileName : string) (node : SyntaxNode)
  (smells : list CodeSmell) : Gen (list CodeSmell) :=
  if String.eqb (nodeTypeOf node) "function_definition" then
    let functionName := or_else (field_text "declarator" node) "anonymous" in
    match childForFieldName "body" node with
    | Some body =>
        let lines := JsString.lines (textOf body) in
        let startLine := startRowOf node + 1 in
        if 20 <? length lines then
          let cyclomaticComplexity := calculateCyclomaticComplexity node in
          let couplingCount := calculateCoupling node in
          let metrics :=
            mkMetrics (JsNumber.of_nat cyclomaticComplexity)
              (JsNumber.of_nat (length lines)) (JsNumber.of_nat 1)
              (JsNumber.of_nat 0) (JsNumber.of_nat couplingCount)
              (JsNumber.of_nat 1) in
          let severity :=
            if 40 <? length lines then high
            else if 30 <? length lines then medium
            else low in
          push smells (fun i =>
            mkSmell i LongFunction fileName startLine
              (Some (startLine + length lines))
              (excerpt (textOf node))
              functionName
              ("Function " +++ JsString.dquote +++ functionName +++ JsString.dquote
                 +++ " is too long (" +++ JsString.of_nat (length lines) +++ " lines)")
              "Consider breaking this function into smaller, more focused functions that each handle a specific task."
              severity
              (Some metrics))
        else gret smells
    | None => gret smells
    end
  else gret smells.

Definition detectLongFunctions (content fileName : string) (ast : SyntaxNode)
  : Eff (list CodeSmell) :=
  let smells := [] in
  doE parser <- getInstance;
  let cursor := walk_with ast (longFunction_enter fileName) in
  ret smells.

(** The [enter] callback of [detectLargeClasses]. *)
Definition largeClass_enter (fileName : string) (node : SyntaxNode)
  (smells : list CodeSmell) : Gen (list CodeSmell) :=
  if String.eqb (nodeTypeOf node) "class_specifier" then
    let className := or_else (field_text "name" node) "anonymous" in
    match childForFieldName "body" node with
    | Some body =>
        let lines := JsString.lines (textOf body) in
        let methodCount := countMethods node in
        let inheritanceDepth := calculateInheritanceDepth node in
        if (200 <? length lines) || (10 <? methodCount) then
          let metrics :=
            mkMetrics (JsNumber.of_nat (calculateCyclomaticComplexity node))
              (JsNumber.of_nat (length lines)) (JsNumber.of_nat methodCount)
              (JsNumber.of_nat inheritanceDepth)
              (JsNumber.of_nat (calculateCoupling node))
              (calculateCohesion node) in
          push smells (fun i =>
            mkSmell i LargeClass fileName (startRowOf node + 1) None
              (className +++ " { ... }")
              className
              ("Class " +++ JsString.dquote +++ className +++ JsString.dquote
                 +++ " is too large (" +++ JsString.of_nat (length lines) +++ " lines, "
                 +++ JsString.of_nat methodCount +++ " methods)")
              "Consider using composition or splitting this class into smaller, more focused classes that follow the Single Responsibility Principle."
              (if (500 <? length lines) || (20 <? methodCount) then high else medium)
              (Some metrics))
        else gret smells
    | None => gret smells
    end
  else gret smells.

Definition detectLargeClasses (content fileName : string) (ast : SyntaxNode)
  : Eff (list CodeSmell) :=
  let smells := [] in
  doE parser <- getInstance;
  let cursor := walk_with ast (largeClass_enter fileName) in
  ret smells.

(* ===================================================================== *)
(** ** The lexical detectors *)
(* ===================================================================== *)

Module Patterns.
Import Regex.

(** The pattern of a function signature (blanks added between tokens):
    [/ (\w+) \s+ (\w+) \s* \( ([^)]* ) \) /g]. *)
Definition signature : regex :=
  seq [ Group 1 (plus word); plus space; Group 2 (plus word); star space;
        lit "("; Group 3 (star (none_of ")")); lit ")" ].

(** [/^(?:const|static)?\s*\w+\s+(\w+)\s*(?:=\s*[^;]+)?;/gm]. *)
Definition globalVar : regex :=
  seq [ Bol; opt (alt [lit "const"; lit "static"]); star space; plus word;
        plus space; Group 1 (plus word); star space;
        opt (seq [lit "="; star space; plus (none_of ";")]); lit ";" ].

(** Text with braces balanced down to two levels:
    [ [^{}]* (?: { [^{}]* (?: { [^{}]* } [^{}]* )* } [^{}]* )* ]. *)
Definition no_brace : regex := star (none_of "{}").
Definition braces_2 : regex := star (seq [lit "{"; no_brace; lit "}"; no_brace]).
Definition braces_1 : regex := star (seq [lit "{"; no_brace; braces_2; lit "}"; no_brace]).
Definition block_body : regex := seq [no_brace; braces_1].

(** A function with its body:
    [/ (\w+) \s+ (\w+) \s* \( ([^)]* ) \) \s* (?:const)? \s* { (body) } /g]. *)
Definition functionWithBody : regex :=
  seq [ Group 1 (plus word); plus space; Group 2 (plus word); star space;
        lit "("; Group 3 (star (none_of ")")); lit ")"; star space;
        opt (lit "const"); star space; lit "{"; Group 4 block_body; lit "}" ].

(** A class with its body:
    [/class\s+(\w+)(?:\s*:\s*(?:public|protected|private)\s+\w+)?\s*{ (body) }/g]. *)
Definition classWithBody : regex :=
  seq [ lit "class"; plus space; Group 1 (plus word);
        opt (seq [ star space; lit ":"; star space;
                   alt [lit "public"; lit "protected"; lit "private"];
                   plus space; plus word ]);
        star space; lit "{"; Group 2 block_body; lit "}" ].

(** [/(\w+)\.(\w+)/g] and [/(\w+)->(\w+)/g]. *)
Definition memberAccess : regex :=
  seq [Group 1 (plus word); lit "."; Group 2 (plus word)].
Definition pointerAccess : regex :=
  seq [Group 1 (plus word); lit "->"; Group 2 (plus word)].

(** [/if \s* \( (.*?) \) /g]. *)
Definition ifCondition : regex :=
  seq [lit "if"; star space; lit "("; Group 1 (lazy_star dot); lit ")"].

(** [/&&|\|\||!|==|!=|>=|<=|>|</g]. *)
Definition operator : regex :=
  alt [ lit "&&"; lit "||"; lit "!"; lit "=="; lit "!="; lit ">="; lit "<=";
        lit ">"; lit "<" ].

End Patterns.

Definition detectLongParameterLists (content fileName : string) : Gen (list CodeSmell) :=
  gfold
    (fun smells m =>
       let fullMatch := Regex.matched m in
       let functionName := Regex.group 2 m in
       let params := Regex.group 3 m in
       let paramCount :=
         length (List.filter (fun param => 0 <? String.length (JsString.trim param))
                   (JsString.split "," params)) in
       if 4 <? paramCount then
         let lineNumber := JsString.line_of content (Regex.index m) in
         push smells (fun i =>
           mkSmell i LongParameterList fileName lineNumber None
             fullMatch
             functionName
             ("Function " +++ JsString.dquote +++ functionName +++ JsString.dquote
                +++ " has too many parameters (" +++ JsString.of_nat paramCount +++ ")")
             "Consider grouping related parameters into objects or using the Parameter Object pattern."
             (if 7 <? paramCount then high else if 5 <? paramCount then medium else low)
             None)
       else gret smells)
    [] (Regex.exec_all Patterns.signature content).

Definition detectGlobalVariables (content fileName : string) : Gen (list CodeSmell) :=
  gfold
    (fun smells m =>
       let beforeMatch := JsString.substring0 (Regex.index m) content in
       let braceCount :=
         (Z.of_nat (JsString.count_char "{" beforeMatch)
          - Z.of_nat (JsString.count_char "}" beforeMatch))%Z in
       if (braceCount =? 0)%Z then
         let fullMatch := Regex.matched m in
         let varName := Regex.group 1 m in
         let lineNumber := JsString.line_of content (Regex.index m) in
         push smells (fun i =>
           mkSmell i GlobalVariables fileName lineNumber None
             fullMatch
             varName
             ("Global variable " +++ JsString.dquote +++ varName +++ JsString.dquote
                +++ " detected")
             "Consider encapsulating global state in classes or using the Singleton pattern if appropriate."
             medium
             None)
       else gret smells)
    [] (Regex.exec_all Patterns.globalVar content).

(** [body.replace(/\s+/g, ' ').trim()]. *)
Definition normalize_body (body : string) : string :=
  JsString.trim (JsString.of_chars (JsString.collapse_spaces false (JsString.chars body))).

(** What [functionBodies] remembers of a function. *)
Record FunctionEntry : Type := mkFunctionEntry {
  name : string;
  entryLine : nat;
  code : string
}.

Definition duplicate_step (content fileName : string)
  (st : list CodeSmell * gmap string FunctionEntry) (m : Regex.Match)
  : Gen (list CodeSmell * gmap string FunctionEntry) :=
  let (smells, functionBodies) := st in
  let functionName := Regex.group 2 m in
  let body := Regex.group 4 m in
  let normalizedBody := normalize_body body in
  if 100 <? String.length normalizedBody then
    let lineNumber := JsString.line_of content (Regex.index m) in
    match functionBodies !! normalizedBody with
    | Some original =>
        doG smells' <- push smells (fun i =>
          mkSmell i DuplicateCode fileName lineNumber None
            (functionName +++ "(...) { ... }")
            functionName
            ("Function " +++ JsString.dquote +++ functionName +++ JsString.dquote
               +++ " contains code duplicated from " +++ JsString.dquote
               +++ name original +++ JsString.dquote
               +++ " (line " +++ JsString.of_nat (entryLine original) +++ ")")
            "Extract the duplicated code into a shared function that can be called from both places."
            high
            None);
        gret (smells', functionBodies)
    | None =>
        gret (smells,
              <[normalizedBody := mkFunctionEntry functionName lineNumber normalizedBody]>
                functionBodies)
    end
  else gret st.

Definition detectDuplicateCode (content fileName : string) : Gen (list CodeSmell) :=
  doG st <- gfold (duplicate_step content fileName) ([], ∅)
              (Regex.exec_all Patterns.functionWithBody content);
  gret (fst st).

Definition domain_suffixes : list string :=
  ["id"; "code"; "name"; "address"; "phone"; "email"; "date"; "time"].

Definition primitive_types : list string :=
  ["int"; "float"; "double"; "char"; "bool"; "string"].

(** The filter of [detectPrimitiveObsession]: the last blank-separated
    part of the parameter, less its first [*] and first [&], ends in a
    domain suffix, and the parameter mentions a primitive type. *)
Definition suspicious_param (param : string) : bool :=
  let paramParts := JsString.split " " param in
  let paramName :=
    JsString.remove_first "&" (JsString.remove_first "*" (List.last paramParts EmptyString)) in
  existsb (fun suffix => JsString.endsWith suffix paramName) domain_suffixes
  && existsb (fun prim => JsString.includes prim param) primitive_types.

Definition detectPrimitiveObsession (content fileName : string) : Gen (list CodeSmell) :=
  gfold
    (fun smells m =>
       let fullMatch := Regex.matched m in
       let methodName := Regex.group 2 m in
       let params := Regex.group 3 m in
       let paramList := map JsString.trim (JsString.split "," params) in
       let suspiciousParams := List.filter suspicious_param paramList in
       if 2 <=? length suspiciousParams then
         let lineNumber := JsString.line_of content (Regex.index m) in
         push smells (fun i =>
           mkSmell i PrimitiveObsession fileName lineNumber None
             fullMatch
             methodName
             ("Function " +++ JsString.dquote +++ methodName +++ JsString.dquote
                +++ " uses multiple primitive types that could be an object")
             "Consider creating a class to encapsulate related primitive values."
             medium
             None)
       else gret smells)
    [] (Regex.exec_all Patterns.signature content).

(** One of the two access-counting loops of [detectInappropriateIntimacy]. *)
Definition count_accesses (r : Regex.regex) (body : string)
  (classReferences : JsMap.t nat) : JsMap.t nat :=
  fold_left
    (fun refs accessMatch =>
       let objName := Regex.group 1 accessMatch in
       if negb (String.eqb objName "this") && negb (String.eqb objName "std")
          && negb (String.eqb objName "string")
       then JsMap.set objName (default 0 (JsMap.get objName refs) + 1) refs
       else refs)
    (Regex.exec_all r body) classReferences.

Definition detectInappropriateIntimacy (content fileName : string) : Gen (list CodeSmell) :=
  gfold
    (fun smells m =>
       let className := Regex.group 1 m in
       let body := Regex.group 2 m in
       let classReferences :=
         count_accesses Patterns.pointerAccess body
           (count_accesses Patterns.memberAccess body []) in
       gfold
         (fun smells '(referencedClass, count) =>
            if 5 <? count then
              let lineNumber := JsString.line_of content (Regex.index m) in
              push smells (fun i =>
                mkSmell i InappropriateIntimacy fileName lineNumber None
                  ("class " +++ className +++ " { ... }")
                  className
                  ("Class " +++ JsString.dquote +++ className +++ JsString.dquote
                     +++ " has inappropriate intimacy with " +++ JsString.dquote
                     +++ referencedClass +++ JsString.dquote
                     +++ " (" +++ JsString.of_nat count +++ " accesses)")
                  "Consider moving some functionality or creating an intermediary class to reduce coupling."
                  (if 10 <? count then high else medium)
                  None)
            else gret smells)
         smells (JsMap.entries classReferences))
    [] (Regex.exec_all Patterns.classWithBody content).

Definition detectComplexConditions (content fileName : string) : Gen (list CodeSmell) :=
  gfold
    (fun smells m =>
       let fullMatch := Regex.matched m in
       let condition := Regex.group 1 m in
       let operatorCount := length (Regex.exec_all Patterns.operator condition) in
       let lineNumber := JsString.line_of content (Regex.index m) in
       if 3 <? operatorCount then
         push smells (fun i =>
           mkSmell i ComplexCondition fileName lineNumber None
             fullMatch
             "condition"
             ("Complex condition with " +++ JsString.of_nat operatorCount +++ " operators")
             "Break the condition into smaller, well-named boolean variables or methods."
             (if 5 <? operatorCount then high else medium)
             None)
       else gret smells)
    [] (Regex.exec_all Patterns.ifCondition content).

(** The local variables of [detectDeepNesting]. *)
Record Nesting : Type := mkNesting {
  currentNestingLevel : Z;
  maxNestingLevel : Z;
  nestingStartLine : nat;
  nestingSmells : list CodeSmell
}.

Definition deepNesting_smell (fileName : string) (maxLevel : Z) (startLine : nat)
  (i : string) : CodeSmell :=
  mkSmell i DeepNesting fileName startLine None
    "Nested block { ... }"
    "nested_block"
    ("Deep nesting detected (" +++ JsString.of_Z maxLevel +++ " levels)")
    "Consider using early returns, guard clauses, or extracting nested logic into separate methods."
    (if (4 <? maxLevel)%Z then high else medium)
    None.

(** The opening-brace half of the loop body. *)
Definition nesting_open (i : nat) (line : string) (st : Nesting) : Nesting :=
  if JsString.includes "{" line then
    let current := (currentNestingLevel st + 1)%Z in
    if (maxNestingLevel st <? current)%Z
    then mkNesting current current (i + 1) (nestingSmells st)
    else mkNesting current (maxNestingLevel st) (nestingStartLine st) (nestingSmells st)
  else st.

(** The closing-brace half of the loop body. *)
Definition nesting_close (fileName : string) (line : string) (st : Nesting) : Gen Nesting :=
  if JsString.includes "}" line then
    doG smells <-
      (if (currentNestingLevel st =? maxNestingLevel st)%Z && (3 <? maxNestingLevel st)%Z
       then push (nestingSmells st)
              (deepNesting_smell fileName (maxNestingLevel st) (nestingStartLine st))
       else gret (nestingSmells st));
    let current := (currentNestingLevel st - 1)%Z in
    gret (mkNesting current
            (if (current =? 0)%Z then 0%Z else maxNestingLevel st)
            (nestingStartLine st) smells)
  else gret st.

(** The body of [for (let i = 0; i < lines.length; i++)]. *)
Definition nesting_step (fileName : string) (st : Nesting) (il : nat * string) : Gen Nesting :=
  let (i, raw) := il in
  let line := JsString.trim raw in
  nesting_close fileName line (nesting_open i line st).

Definition indexed {A : Type} (l : list A) : list (nat * A) := combine (seq 0 (length l)) l.

Definition detectDeepNesting (content fileName : string) : Gen (list CodeSmell) :=
  let lines := JsString.lines content in
  doG st <- gfold (nesting_step fileName) (mkNesting 0 0 0 []) (indexed lines);
  gret (nestingSmells st).

(* ===================================================================== *)
(** ** The orchestrator and the aggregator *)
(* ===================================================================== *)

Section Orchestrator.

Variable ts_parse : string -> option SyntaxNode.

Definition analyzeCode (content fileName : string) : Eff AnalysisResult.t :=
  doE stored <- store_set fileName content;
  doE parser <- getInstance;
  doE ast <- parseCode ts_parse content;
  doE metrics <- calculateMetrics ts_parse content;
  doE s1 <- detectLongFunctions content fileName ast;
  doE s2 <- detectLargeClasses content fileName ast;
  doE s3 <- lift (detectLongParameterLists content fileName);
  doE s4 <- lift (detectGlobalVariables content fileName);
  doE s5 <- lift (detectDuplicateCode content fileName);
  doE s6 <- lift (detectPrimitiveObsession content fileName);
  doE s7 <- lift (detectInappropriateIntimacy content fileName);
  doE s8 <- lift (detectComplexConditions content fileName);
  doE s9 <- lift (detectDeepNesting content fileName);
  let smells := s1 ++ s2 ++ s3 ++ s4 ++ s5 ++ s6 ++ s7 ++ s8 ++ s9 in
  doE now <- Date_now;
  ret (AnalysisResult.mk fileName (String.length content) smells (length smells)
         now metrics).

End Orchestrator.

Definition not_available : string := "// File content not available".

(** [fileContentStore.get(fileName) || '// File content not available']. *)
Definition getFileContent (fileName : string) : Eff string :=
  doE cached <- store_get fileName;
  ret (match cached with
       | Some text => or_else text not_available
       | None => not_available
       end).

#[global] Instance CodeSmellType_eq_dec : EqDecision CodeSmellType.
Proof. solve_decision. Defined.

Module WorstFile.
Record t : Type := mk {
  fileName : string;
  smellCount : nat
}.
End WorstFile.

Module AnalysisStats.
Record t : Type := mk {
  totalFiles : nat;
  totalSmells : nat;
  smellsByType : CodeSmellType -> nat;
  smellsByFile : JsObject.t nat;
  worstFiles : list WorstFile.t;
  averageMetrics : CodeMetrics
}.
End AnalysisStats.

(** [smellsByType[t]++]. *)
Definition increment (t : CodeSmellType) (counts : CodeSmellType -> nat)
  : CodeSmellType -> nat :=
  fun t' => if decide (t' = t) then S (counts t') else counts t'.

(** The body of [results.forEach] in [calculateStats]. *)
Definition tally (acc : (CodeSmellType -> nat) * JsObject.t nat) (result : AnalysisResult.t)
  : (CodeSmellType -> nat) * JsObject.t nat :=
  let (smellsByType, smellsByFile) := acc in
  let smellsByFile' :=
    JsObject.assign (AnalysisResult.fileName result) (AnalysisResult.totalSmells result)
      smellsByFile in
  (fold_left (fun counts smell => increment (type smell) counts)
     (AnalysisResult.smells result) smellsByType,
   smellsByFile').

(** The comparator [(a, b) => b.smellCount - a.smellCount]. *)
Definition by_smellCount_desc (a b : WorstFile.t) : Z :=
  (Z.of_nat (WorstFile.smellCount b) - Z.of_nat (WorstFile.smellCount a))%Z.

Definition add_metrics (acc m : CodeMetrics) : CodeMetrics :=
  mkMetrics
    (JsNumber.add (cyclomaticComplexity acc) (cyclomaticComplexity m))
    (JsNumber.add (linesOfCode acc) (linesOfCode m))
    (JsNumber.add (methodCount acc) (methodCount m))
    (JsNumber.add (inheritanceDepth acc) (inheritanceDepth m))
    (JsNumber.add (couplingCount acc) (couplingCount m))
    (JsNumber.add (cohesionScore acc) (cohesionScore m)).

(** [Object.keys(avgMetrics).forEach(key => avgMetrics[key] /= totalFiles)]. *)
Definition divide_metrics (m : CodeMetrics) (totalFiles : nat) : CodeMetrics :=
  let n := JsNumber.of_nat totalFiles in
  mkMetrics
    (JsNumber.div (cyclomaticComplexity m) n)
    (JsNumber.div (linesOfCode m) n)
    (JsNumber.div (methodCount m) n)
    (JsNumber.div (inheritanceDepth m) n)
    (JsNumber.div (couplingCount m) n)
    (JsNumber.div (cohesionScore m) n).

Definition zero_metrics : CodeMetrics :=
  let z := JsNumber.of_nat 0 in mkMetrics z z z z z z.

Definition calculateStats (results : list AnalysisResult.t) : AnalysisStats.t :=
  let totalFiles := length results in
  let totalSmells :=
    fold_left (fun sum result => sum + AnalysisResult.totalSmells result) results 0 in
  let '(smellsByType, smellsByFile) :=
    fold_left tally results (fun _ => 0, JsObject.empty) in
  let worstFiles :=
    take 5
      (js_sort by_smellCount_desc
         (map (fun '(fileName, smellCount) => WorstFile.mk fileName smellCount)
            (JsObject.entries smellsByFile))) in
  let avgMetrics :=
    fold_left
      (fun acc result => add_metrics acc (AnalysisResult.metrics result))
      results zero_metrics in
  AnalysisStats.mk totalFiles totalSmells smellsByType smellsByFile worstFiles
    (divide_metrics avgMetrics totalFiles).

(* ===================================================================== *)
(** ** Reference definitions and sample inputs *)
(* ===================================================================== *)

Definition nl : string := String JsString.newline EmptyString.

(** Lines joined by line feeds. *)
Fixpoint unlines (ls : list string) : string :=
  match ls with
  | [] => EmptyString
  | [l] => l
  | l :: ls' => l +++ nl +++ unlines ls'
  end.

(** A generator that numbers its identifiers. *)
Definition counting_uuids : UuidGen := mkUuidGen JsString.of_nat 0.

(** A world in which the grammar loads. *)
Definition fresh_world : World := mkWorld ∅ false true counting_uuids 0.

(** A world in which the grammar resources are missing. *)
Definition broken_world : World := mkWorld ∅ false false counting_uuids 0.

(** A parser stand-in that builds a one-node tree for any text. *)
Definition flat_parse (code : string) : option SyntaxNode :=
  Some (mkNode "translation_unit" code 0 []).

(** *** Aggregation *)

Definition sum_counts (entries : list (string * nat)) : nat :=
  fold_right (fun e acc => snd e + acc) 0 entries.

Definition sample_smell (fileName : string) : CodeSmell :=
  mkSmell "0" GlobalVariables fileName 1 None "int g;" "g"
    "Global variable detected" "Encapsulate it." medium None.

(** The result of a file with [n] findings. *)
Definition result_with (fileName : string) (n : nat) : AnalysisResult.t :=
  AnalysisResult.mk fileName 0 (repeat (sample_smell fileName) n) n 0 zero_metrics.

Definition same_name_twice : list AnalysisResult.t :=
  [result_with "a.cpp" 1; result_with "a.cpp" 1].

Definition resubmitted_file : list AnalysisResult.t :=
  [result_with "a.cpp" 1; result_with "b.cpp" 5; result_with "a.cpp" 5].

Definition four_files : list AnalysisResult.t :=
  [result_with "a.cpp" 5; result_with "b.cpp" 5; result_with "c.cpp" 3;
   result_with "d.cpp" 1].

(** A file name that is neither an array index nor the reserved key. *)
Definition ordinary_name (s : string) : Prop :=
  JsObject.is_array_index s = false /\ s <> JsObject.proto_key.

Definition file_entry (r : AnalysisResult.t) : WorstFile.t :=
  WorstFile.mk (AnalysisResult.fileName r) (AnalysisResult.totalSmells r).

Definition with_count (c : nat) (l : list WorstFile.t) : list WorstFile.t :=
  List.filter (fun e => WorstFile.smellCount e =? c) l.

Definition descending (l : list WorstFile.t) : Prop :=
  StronglySorted (fun a b => WorstFile.smellCount b <= WorstFile.smellCount a) l.

(** [sorted] is the stable descending sort of [input]: the same entries,
    counts never increasing, and entries of equal count in their input
    order. *)
Definition stable_descending_sort_of (input sorted : list WorstFile.t) : Prop :=
  Permutation sorted input
  /\ descending sorted
  /\ forall c, with_count c sorted = with_count c input.

(** *** Deep nesting *)

Definition has_open (line : string) : bool := JsString.includes "{" (JsString.trim line).
Definition has_close (line : string) : bool := JsString.includes "}" (JsString.trim line).



Definition spec_severity (maxDepth : Z) : Severity :=
  if (4 <? maxDepth)%Z then high else medium.

(** One run that reaches depth four twice. *)
Definition two_blocks_at_depth_four : string :=
  unlines ["{"; "{"; "{"; "{"; "}"; "{"; "}"; "}"; "}"; "}"].

Definition count_lines (p : string -> bool) (ls : list string) : nat :=
  length (List.filter p ls).

(** One line as the nesting counter meets it: its 1-based number, the
    depth inside the line (the counter after the opening brace of the
    line, if it holds one) and whether the line holds a closing brace. *)
Record Level : Type := mkLevel {
  lineNo : nat;
  depthInside : Z;
  closesBlock : bool
}.

(** The top-level nesting runs of a text, in the words of the
    specification: the counter goes up one level on a line that holds an
    opening brace and down one level on a line that holds a closing brace,
    and a run ends with the line whose closing brace brings the counter
    back to zero.  [run] holds the lines of the current run met so far;
    a run that the text leaves open is the last one. *)
Fixpoint nesting_runs_from (i : nat) (d : Z) (run : list Level) (ls : list string)
  : list (list Level) :=
  match ls with
  | [] => match run with [] => [] | _ :: _ => [run] end
  | l :: rest =>
      let inside := if has_open l then (d + 1)%Z else d in
      let run' := run ++ [mkLevel (i + 1) inside (has_close l)] in
      if has_close l then
        if (inside =? 1)%Z then run' :: nesting_runs_from (S i) 0 [] rest
        else nesting_runs_from (S i) (inside - 1) run' rest
      else nesting_runs_from (S i) inside run' rest
  end.

Definition nesting_runs (content : string) : list (list Level) :=
  nesting_runs_from 0 0 [] (JsString.lines content).

(** The maximum depth of a run. *)
Definition run_depth (run : list Level) : Z :=
  fold_right (fun e m => Z.max (depthInside e) m) 0%Z run.

(** The line on which a run first reaches its maximum depth: the line of
    its deepest opening brace. *)
Definition summit_line (run : list Level) : nat :=
  match List.find (fun e => (depthInside e =? run_depth run)%Z) run with
  | Some e => lineNo e
  | None => 0
  end.

(** A closing brace met at a depth above 3. *)
Definition deep_closing (e : Level) : bool :=
  closesBlock e && (3 <? depthInside e)%Z.

(** A run from the first line that satisfies [p] on. *)
Fixpoint from_first (p : Level -> bool) (run : list Level) : list Level :=
  match run with
  | [] => []
  | e :: rest => if p e then e :: rest else from_first p rest
  end.

(** A run with one summit: if it goes deeper than 3 it comes to a closing
    brace at a depth above 3, and after the first such brace it stays
    strictly below the depth of that brace. *)
Definition one_summit (run : list Level) : bool :=
  match from_first deep_closing run with
  | [] => (run_depth run <=? 3)%Z
  | e :: later => forallb (fun e' => (depthInside e' <? depthInside e)%Z) later
  end.

(** What the specification expects of a text: one finding per run deeper
    than 3, on the line of its deepest opening brace, medium at depth 4
    and high from depth 5. *)
Definition expected_nesting (content : string) : list (nat * Severity) :=
  map (fun run => (summit_line run, spec_severity (run_depth run)))
    (List.filter (fun run => (3 <? run_depth run)%Z) (nesting_runs content)).

(** Where a finding is reported and how it is graded. *)
Definition placement (s : CodeSmell) : nat * Severity := (lineNumber s, severity s).


Definition nest (depth : nat) : string :=
  unlines (repeat "{" depth ++ repeat "}" depth).

(** *** Long functions *)

Definition body_of_lines (n : nat) : string :=
  unlines (["{"] ++ repeat "  x++;" (n - 2) ++ ["}"]).

Definition function_node (n : nat) : SyntaxNode :=
  mkNode "function_definition" ("void f() " +++ body_of_lines n) 0
    [ (Some "type", mkNode "primitive_type" "void" 0 []);
      (Some "declarator", mkNode "function_declarator" "f()" 0 []);
      (Some "body", mkNode "compound_statement" (body_of_lines n) 0 []) ].

Definition unit_with_function (n : nat) : SyntaxNode :=
  mkNode "translation_unit" ("void f() " +++ body_of_lines n) 0
    [ (None, function_node n) ].

Definition ready_world : World := mkWorld ∅ true true counting_uuids 0.

(** *** Duplicate code *)

Definition long_body : string :=
  " int total = a + 1; total = total * 2; total = total - 3; total = total + 4; total = total * 5; total = total - 6; return total; ".

Definition short_body : string := " return a + 1; ".

Definition two_functions (body : string) : string :=
  unlines [ "int alpha(int a) {" +++ body +++ "}";
            "int beta(int a) {"; body; "}" ].

(** Whether a text begins with white space. *)
Definition starts_spaced (l : list ascii) : bool :=
  match l with
  | c :: _ => JsString.is_space c
  | [] => false
  end.

(** The words of a text: its maximal stretches free of white space. *)
Fixpoint words_of (l : list ascii) : list (list ascii) :=
  match l with
  | [] => []
  | c :: l' =>
      if JsString.is_space c then words_of l'
      else match words_of l' with
           | w :: ws => if starts_spaced l' then [c] :: w :: ws else (c :: w) :: ws
           | [] => [[c]]
           end
  end.

(** Words joined by single blanks. *)
Fixpoint unwords (ws : list (list ascii)) : list ascii :=
  match ws with
  | [] => []
  | [w] => w
  | w :: ws' => w ++ " "%char :: unwords ws'
  end.

(** Whitespace normalisation in the words of the specification: every
    run of white space becomes one blank, and none is left at either
    end. *)
Definition spec_normalize (s : string) : string :=
  JsString.of_chars (unwords (words_of (JsString.chars s))).

(** A word: letters, digits and underscores, at least one. *)
Definition is_word_text (s : string) : bool :=
  negb (String.eqb s EmptyString) && forallb JsString.is_word (JsString.chars s).

Definition white_space (s : string) : bool :=
  forallb JsString.is_space (JsString.chars s).

(** A character other than those of [banned]. *)
Definition outside (banned : string) (c : ascii) : bool :=
  negb (existsb (Ascii.eqb c) (JsString.chars banned)).

(** A block in braces and the text that follows it. *)
Definition block (inner after : list ascii) : list ascii :=
  "{"%char :: inner ++ "}"%char :: after.

(** Text whose braces are balanced and nested at most [n] deep: text
    without braces, then any number of blocks, each with text nested at
    most [n - 1] deep inside and text without braces after it. *)
Fixpoint nested (n : nat) (l : list ascii) : Prop :=
  match n with
  | 0 => forallb (outside "{}") l = true
  | S n' =>
      exists (first : list ascii) (blocks : list (list ascii * list ascii)),
        forallb (outside "{}") first = true
        /\ Forall (fun b => nested n' (fst b) /\ forallb (outside "{}") (snd b) = true) blocks
        /\ l = first ++ concat (map (fun b => block (fst b) (snd b)) blocks)
  end.

(** A function as it stands in a source text: return type, name,
    parameter list in parentheses, an optional [const], the body in
    braces, and the white space between them. *)
Record FunctionText : Type := mkFunctionText {
  returnType : string;
  typeGap : string;
  functionName : string;
  nameGap : string;
  params : string;
  bodyGap : string;
  constQualified : bool;
  constGap : string;
  body : string
}.

Definition render (f : FunctionText) : string :=
  returnType f +++ typeGap f +++ functionName f +++ nameGap f
  +++ "(" +++ params f +++ ")"
  +++ bodyGap f +++ (if constQualified f then "const" else "") +++ constGap f
  +++ "{" +++ body f +++ "}".

(** The form of function the duplicate detector looks for: the return
    type and the name are single words with white space between them, the
    parameter list holds no closing parenthesis, and the blocks of the
    body are nested at most two deep. *)
Definition function_form (f : FunctionText) : Prop :=
  is_word_text (returnType f) = true
  /\ typeGap f <> EmptyString /\ white_space (typeGap f) = true
  /\ is_word_text (functionName f) = true
  /\ white_space (nameGap f) = true
  /\ forallb (outside ")") (JsString.chars (params f)) = true
  /\ white_space (bodyGap f) = true
  /\ white_space (constGap f) = true
  /\ nested 2 (JsString.chars (body f)).

(** A function of that form stands at the beginning of [text]. *)
Definition function_begins (text : string) : Prop :=
  exists f rest, function_form f /\ text = render f +++ rest.

(** No function of that form begins anywhere in the stretch [gap] of a
    text that goes on with [following]. *)
Definition free_of_functions (gap following : string) : Prop :=
  forall a b, gap = a +++ b -> b <> EmptyString -> ~ function_begins (b +++ following).

(** The finding expected for a function that repeats the body of an
    earlier one, its identity left blank: reported on the line where the
    later function begins, under its name, naming the earlier function and
    the line where that one begins, with high severity. *)
Definition expected_duplicate (file : string) (earlierName : string) (earlierLine : nat)
  (laterName : string) (laterLine : nat) : CodeSmell :=
  mkSmell EmptyString DuplicateCode file laterLine None
    (laterName +++ "(...) { ... }")
    laterName
    ("Function " +++ JsString.dquote +++ laterName +++ JsString.dquote
       +++ " contains code duplicated from " +++ JsString.dquote
       +++ earlierName +++ JsString.dquote
       +++ " (line " +++ JsString.of_nat earlierLine +++ ")")
    "Extract the duplicated code into a shared function that can be called from both places."
    high
    None.

(** Two functions with the same body, laid out differently, each with a
    block inside, between an include line, a comment and a last line. *)
Definition sample_earlier : FunctionText :=
  mkFunctionText "int" " " "alpha" "" "int a, int b" " " false ""
    " int total = a + b; if (total > 10) { total = total - 10; } total = total * 2; total = total + a; total = total - b; return total; ".

Definition sample_later : FunctionText :=
  mkFunctionText "int" " " "beta" " " "int a, int b" " " true (" " +++ nl)
    (nl +++ "  int total = a + b;" +++ nl
        +++ "  if (total > 10) {" +++ nl
        +++ "    total = total - 10;" +++ nl
        +++ "  }" +++ nl
        +++ "  total = total * 2;   total = total + a;" +++ nl
        +++ "  total = total - b;" +++ nl
        +++ "  return total;" +++ nl).

Definition sample_pre : string := "#include <vector>" +++ nl +++ nl.
Definition sample_sep : string := nl +++ nl +++ "// the same again" +++ nl.
Definition sample_post : string := nl +++ "int last;" +++ nl.

(** A body whose blocks are nested three deep. *)
Definition deep_body : string :=
  " while (a > 0) { while (b > 0) { while (c > 0) { a = a - 1; b = b - 1; c = c - 1; } } } int total = a + b + c; total = total * 2; return total; ".

(** Two functions that return a pointer, with the same long body. *)
Definition pointer_functions : string :=
  unlines [ "char *alpha(int a) {" +++ long_body +++ "}";
            "char *beta(int a) {" +++ long_body +++ "}" ].

(* ===================================================================== *)
(** ** Notions used in the statements and proofs *)
(* ===================================================================== *)

(** [smellsByFile[result.fileName] = result.totalSmells]. *)
Definition record_file (o : JsObject.t nat) (r : AnalysisResult.t) : JsObject.t nat :=
  JsObject.assign (AnalysisResult.fileName r) (AnalysisResult.totalSmells r) o.

(** A result as an entry of [smellsByFile]. *)
Definition name_count (r : AnalysisResult.t) : string * nat :=
  (AnalysisResult.fileName r, AnalysisResult.totalSmells r).





(** White space stripped from the end of a text. *)
Definition strip_end (l : list ascii) : list ascii :=
  rev (JsString.drop_spaces (rev l)).

(** The character behind the matcher once it has passed [s]. *)
Definition behind_after (b : option ascii) (s : list ascii) : option ascii :=
  fold_left (fun _ c => Some c) s b.

(** The pattern [r] takes [s] off the front of [s ++ rest] on the path
    the matcher tries first, closing the groups [got]: whatever the rest
    of the pattern then makes of [rest] is the result. *)
Definition consumes (r : Regex.regex) (s rest : list ascii) (got : list (nat * string))
  : Prop :=
  forall (k : Regex.cont) o b c fin,
    k (Regex.mkState rest (o + length s) (behind_after b s) (got ++ c)) = Some fin ->
    Regex.run r k (Regex.mkState (s ++ rest) o b c) = Some fin.

(** The pattern [r] matches nowhere at the front of [l]. *)
Definition fails_on (r : Regex.regex) (l : list ascii) : Prop :=
  forall (k : Regex.cont) o b c, Regex.run r k (Regex.mkState l o b c) = None.

(** The text ahead does not begin with a character of the class [p]. *)
Definition stops (p : ascii -> bool) (rest : list ascii) : Prop :=
  match rest with
  | [] => True
  | c :: _ => p c = false
  end.

(** The language of a pattern, captures and line starts aside. *)
Fixpoint lang (r : Regex.regex) : list ascii -> Prop :=
  match r with
  | Regex.Eps => fun s => s = []
  | Regex.Chr p => fun s => exists c, s = [c] /\ p c = true
  | Regex.Seq r1 r2 => fun s => exists s1 s2, s = s1 ++ s2 /\ lang r1 s1 /\ lang r2 s2
  | Regex.Alt r1 r2 => fun s => lang r1 s \/ lang r2 s
  | Regex.Star _ r1 => fun s => exists pieces, s = concat pieces /\ Forall (lang r1) pieces
  | Regex.Group _ r1 => lang r1
  | Regex.Bol => fun s => s = []
  end.

(** The groups the function pattern closes on a function. *)
Definition function_groups (f : FunctionText) : list (nat * string) :=
  [(4, body f); (3, params f); (2, functionName f); (1, returnType f)].

(** The text ahead begins with a brace. *)
Definition at_brace (l : list ascii) : Prop :=
  exists c t, l = c :: t /\ (c = "{"%char \/ c = "}"%char).

(** Whether the function pattern fails at offset [j] of a text. *)
Definition no_match_at (text : string) (j : nat) : bool :=
  match Regex.run Patterns.functionWithBody Some
          (Regex.mkState (drop j (JsString.chars text)) 0 None []) with
  | Some _ => false
  | None => true
  end.

(** A computation that leaves the content cache as it found it, whether it
    returns or throws. *)
Definition keeps_store {A : Type} (e : Eff A) : Prop :=
  forall w, fileContentStore (snd (e w)) = fileContentStore w.

(** Two lists of findings that differ at most in their identities. *)
Definition same_findings (l1 l2 : list CodeSmell) : Prop :=
  map erase_id l1 = map erase_id l2.

(** A generator computation whose result, read through [R], does not
    depend on the identifiers it draws. *)
Definition id_blind {A : Type} (R : A -> A -> Prop) (g1 g2 : Gen A) : Prop :=
  forall u1 u2, R (fst (g1 u1)) (fst (g2 u2)).

(** The loop state of [detectDuplicateCode], compared: same findings up
    to identities, same remembered bodies. *)
Definition same_duplicate_state
  (st1 st2 : list CodeSmell * gmap string FunctionEntry) : Prop :=
  same_findings (fst st1) (fst st2) /\ snd st1 = snd st2.

(** The loop state of [detectDeepNesting], compared. *)
Definition same_nesting (st1 st2 : Nesting) : Prop :=
  currentNestingLevel st1 = currentNestingLevel st2
  /\ maxNestingLevel st1 = maxNestingLevel st2
  /\ nestingStartLine st1 = nestingStartLine st2
  /\ same_findings (nestingSmells st1) (nestingSmells st2).

(** Two runs of an effectful computation, the second in a world whose
    parser is initialised: if the first returns, so does the second, with
    related results and the parser still initialised. *)
Definition rerun {A : Type} (R : A -> A -> Prop) (e1 e2 : Eff A) : Prop :=
  forall w1 w2 a1 w1',
    e1 w1 = (Returned a1, w1') ->
    parserInitialized w2 = true ->
    exists a2 w2',
      e2 w2 = (Returned a2, w2') /\ R a1 a2 /\ parserInitialized w2' = true.

(** Two results that agree on the findings, identities aside, and on the
    file-level metrics. *)
Definition same_analysis (r1 r2 : AnalysisResult.t) : Prop :=
  same_findings (AnalysisResult.smells r1) (AnalysisResult.smells r2)
  /\ AnalysisResult.metrics r1 = AnalysisResult.metrics r2.

(** A world in which [getInstance] succeeds. *)
Definition parser_obtainable (w : World) : Prop :=
  parserInitialized w = true \/ grammarAvailable w = true.

(** A computation that does not undo the initialisation of the parser. *)
Definition stays_initialized {A : Type} (e : Eff A) : Prop :=
  forall w, parserInitialized w = true -> parserInitialized (snd (e w)) = true.

(** A first analysis of the sample text, in a world where the parser has
    yet to be initialised. *)
Definition first_run : Outcome AnalysisResult.t * World :=
  analyzeCode flat_parse (two_functions long_body) "a.cpp" fresh_world.

(** The result carried by an outcome (an empty result for a throw). *)
Definition analysis_of (o : Outcome AnalysisResult.t) : AnalysisResult.t :=
  match o with
  | Returned r => r
  | Thrown _ => AnalysisResult.mk EmptyString 0 [] 0 0 zero_metrics
  end.

(* ===================================================================== *)
(** ** Further notions: metrics and statistics *)
(* ===================================================================== *)

(** The number of line feeds of a text. *)
Definition line_feeds (s : string) : nat :=
  JsString.count_char JsString.newline s.

(** A class nested in a class that has a two-level chain of base
    classes. *)
Definition derived_class : SyntaxNode :=
  mkNode "class_specifier" "class C : B { class D {}; };" 0
    [ (Some "name", mkNode "type_identifier" "C" 0 []);
      (Some "base_class",
       mkNode "base_class_clause" ": B" 0
         [ (Some "base_class", mkNode "type_identifier" "B" 0 []) ]);
      (Some "body", mkNode "field_declaration_list" "{ class D {}; }" 0 []) ].

(** A text with a derived class of two methods and a function that
    branches, loops and calls into a namespace, with the tree the C++
    grammar gives it (texts of the inner nodes shortened). *)
Definition busy_source : string :=
  unlines [ "class Shape : public Base {";
            "  int area() { return w * h; }";
            "  int side() { return w; }";
            "};";
            "int run(int n) {";
            "  if (n > 0 && n < 9) { return util::twice(n); }";
            "  while (n < 0) { n++; }";
            "  return n;";
            "}" ].

Definition busy_unit : SyntaxNode :=
  mkNode "translation_unit" busy_source 0
    [ (None,
       mkNode "class_specifier" "class Shape : public Base { ... }" 0
         [ (Some "name", mkNode "type_identifier" "Shape" 0 []);
           (Some "base_class", mkNode "base_class_clause" ": public Base" 0 []);
           (Some "body",
            mkNode "field_declaration_list" "{ ... }" 0
              [ (None, mkNode "function_definition" "int area() { return w * h; }" 1
                         [ (Some "body",
                            mkNode "compound_statement" "{ return w * h; }" 1
                              [ (None, mkNode "field_expression" "this->w" 1 []) ]) ]);
                (None, mkNode "function_definition" "int side() { return w; }" 2
                         [ (Some "body",
                            mkNode "compound_statement" "{ return w; }" 2
                              [ (None, mkNode "field_expression" "this->w" 2 []) ]) ]) ]) ]);
      (None,
       mkNode "function_definition" "int run(int n) { ... }" 4
         [ (Some "body",
            mkNode "compound_statement" "{ ... }" 4
              [ (None,
                 mkNode "if_statement" "if (n > 0 && n < 9) { return util::twice(n); }" 5
                   [ (Some "condition", mkNode "&&" "&&" 5 []);
                     (None, mkNode "call_expression" "util::twice(n)" 5
                              [ (None, mkNode "qualified_identifier" "util::twice" 5 []) ]) ]);
                (None, mkNode "while_statement" "while (n < 0) { n++; }" 6 []) ]) ]) ].

(** A parser stand-in that knows this text only. *)
Definition busy_parse (code : string) : option SyntaxNode :=
  if String.eqb code busy_source then Some busy_unit else None.

(** The closed set of smell kinds. *)
Definition all_kinds : list CodeSmellType :=
  [ LongFunction; LargeClass; DuplicateCode; PrimitiveObsession; LongParameterList;
    InappropriateIntimacy; GlobalVariables; ComplexCondition; DeepNesting ].

(** The findings of a kind among a list of findings. *)
Definition of_kind (k : CodeSmellType) (l : list CodeSmell) : list CodeSmell :=
  List.filter (fun s => bool_decide (type s = k)) l.

(** Every finding of a batch, file after file. *)
Definition all_smells (results : list AnalysisResult.t) : list CodeSmell :=
  concat (map AnalysisResult.smells results).

Definition sum_list (l : list nat) : nat := fold_right Nat.add 0 l.

(** The entries of [smellsByFile] as [worstFiles] sees them. *)
Definition file_counts (o : JsObject.t nat) : list WorstFile.t :=
  map (fun '(fileName, smellCount) => WorstFile.mk fileName smellCount)
    (JsObject.entries o).

(* ===================================================================== *)
(** ** Further notions: the orchestrator *)
(* ===================================================================== *)

(** The seven lexical detectors run one after the other, as the array
    literal of [analyzeCode] runs them. *)
Definition lexical_findings (content fileName : string) : Gen (list CodeSmell) :=
  doG s3 <- detectLongParameterLists content fileName;
  doG s4 <- detectGlobalVariables content fileName;
  doG s5 <- detectDuplicateCode content fileName;
  doG s6 <- detectPrimitiveObsession content fileName;
  doG s7 <- detectInappropriateIntimacy content fileName;
  doG s8 <- detectComplexConditions content fileName;
  doG s9 <- detectDeepNesting content fileName;
  gret (s3 ++ s4 ++ s5 ++ s6 ++ s7 ++ s8 ++ s9).

(** The metrics [calculateMetrics] reads off a root node. *)
Definition metrics_of (root : SyntaxNode) (code : string) : CodeMetrics :=
  mkMetrics
    (JsNumber.of_nat (calculateCyclomaticComplexity root))
    (JsNumber.of_nat (length (JsString.lines code)))
    (JsNumber.of_nat (countMethods root))
    (JsNumber.of_nat (calculateInheritanceDepth root))
    (JsNumber.of_nat (calculateCoupling root))
    (calculateCohesion root).

(* ===================================================================== *)
(** ** Further notions: findings *)
(* ===================================================================== *)

(** The severities a detector can give a finding of its kind.  The two
    tree-based kinds have none: no finding of theirs is ever built. *)
Definition severity_allowed (s : CodeSmell) : Prop :=
  match type s with
  | GlobalVariables | PrimitiveObsession => severity s = medium
  | DuplicateCode => severity s = high
  | ComplexCondition | InappropriateIntimacy | DeepNesting => severity s <> low
  | LongParameterList => True
  | LongFunction | LargeClass => False
  end.

(** A finding as the lexical detectors build them for a text and a file
    name: it names the file, its line lies in the text, its severity is
    one its kind allows, and it has neither end line nor metrics. *)
Definition well_formed (content file : string) (s : CodeSmell) : Prop :=
  fileName s = file
  /\ 1 <= lineNumber s <= length (JsString.lines content)
  /\ severity_allowed s
  /\ endLineNumber s = None
  /\ metrics s = None.

(** The identifiers a generator hands out between two of its states. *)
Definition ids_drawn (u u' : UuidGen) : list string :=
  map (uuidSource u) (seq (uuidDrawn u) (uuidDrawn u' - uuidDrawn u)).

(** A computation whose findings carry, in order, exactly the identifiers
    it draws. *)
Definition fresh_ids (g : Gen (list CodeSmell)) : Prop :=
  forall u,
    uuidSource (snd (g u)) = uuidSource u
    /\ uuidDrawn u <= uuidDrawn (snd (g u))
    /\ map id (fst (g u)) = ids_drawn u (snd (g u)).

(** The number of non-blank parameters of a signature match. *)
Definition paramCount (m : Regex.Match) : nat :=
  length (List.filter (fun param => 0 <? String.length (JsString.trim param))
            (JsString.split "," (Regex.group 3 m))).

(** The finding of [detectLongParameterLists] for a signature match. *)
Definition long_parameter_finding (content fileName : string) (m : Regex.Match)
  (i : string) : CodeSmell :=
  mkSmell i LongParameterList fileName (JsString.line_of content (Regex.index m)) None
    (Regex.matched m)
    (Regex.group 2 m)
    ("Function " +++ JsString.dquote +++ Regex.group 2 m +++ JsString.dquote
       +++ " has too many parameters (" +++ JsString.of_nat (paramCount m) +++ ")")
    "Consider grouping related parameters into objects or using the Parameter Object pattern."
    (if 7 <? paramCount m then high else if 5 <? paramCount m then medium else low)
    None.

(** The brace depth [detectGlobalVariables] computes before an offset. *)
Definition brace_depth (content : string) (index : nat) : Z :=
  (Z.of_nat (JsString.count_char "{" (JsString.substring0 index content))
   - Z.of_nat (JsString.count_char "}" (JsString.substring0 index content)))%Z.

(** The finding of [detectGlobalVariables] for a declaration match. *)
Definition global_variable_finding (content fileName : string) (m : Regex.Match)
  (i : string) : CodeSmell :=
  mkSmell i GlobalVariables fileName (JsString.line_of content (Regex.index m)) None
    (Regex.matched m)
    (Regex.group 1 m)
    ("Global variable " +++ JsString.dquote +++ Regex.group 1 m +++ JsString.dquote
       +++ " detected")
    "Consider encapsulating global state in classes or using the Singleton pattern if appropriate."
    medium
    None.

(** The number of operators [detectComplexConditions] counts in a
    condition. *)
Definition operatorCount (m : Regex.Match) : nat :=
  length (Regex.exec_all Patterns.operator (Regex.group 1 m)).


(** The matches of the function pattern whose normalised body is longer
    than 100 characters, and those bodies. *)
Definition long_bodied (m : Regex.Match) : bool :=
  100 <? String.length (normalize_body (Regex.group 4 m)).

Definition long_bodies (ms : list Regex.Match) : list string :=
  map (fun m => normalize_body (Regex.group 4 m)) (List.filter long_bodied ms).

(** A text with five parameters in one signature and six in another. *)
Definition many_parameters : string :=
  unlines [ "void f(int a, int b, int c, int d, int e);";
            "void g(int a, int b, int c, int d, int e, int f);";
            "void h(int a);" ].

(** A text with three nested blocks only. *)
Definition shallow_text : string :=
  unlines ["void f() {"; "  if (a) {"; "    while (b) { x++; }"; "  }"; "}"].

(** The loop invariant behind [fresh_ids]: the findings gathered since the
    generator was in state [u0] carry the identifiers drawn since. *)
Definition ids_follow (u0 : UuidGen) (smells : list CodeSmell) (u : UuidGen) : Prop :=
  uuidSource u = uuidSource u0
  /\ uuidDrawn u0 <= uuidDrawn u
  /\ map id smells = ids_drawn u0 u.

(* ===================================================================== *)
(** * Theorems *)
(* ===================================================================== *)

(* --------------------------------------------------------------------- *)
(** ** Strings *)
(* --------------------------------------------------------------------- *)

Lemma chars_of_chars (l : list ascii) : JsString.chars (JsString.of_chars l) = l.
Proof. apply list_ascii_of_string_of_list_ascii. Qed.

Lemma of_chars_chars (s : string) : JsString.of_chars (JsString.chars s) = s.
Proof. apply string_of_list_ascii_of_string. Qed.

Lemma chars_append (a b : string) :
  JsString.chars (a +++ b) = JsString.chars a ++ JsString.chars b.
Proof.
  unfold JsString.chars. induction a as [|c a IH]; simpl; [done|]. by rewrite IH.
Qed.

Lemma length_chars (s : string) : length (JsString.chars s) = String.length s.
Proof. unfold JsString.chars. induction s; simpl; congruence. Qed.

Lemma chars_nonempty (s : string) : s <> EmptyString -> JsString.chars s <> [].
Proof. by destruct s. Qed.

Lemma of_chars_app (l1 l2 : list ascii) :
  JsString.of_chars (l1 ++ l2) = JsString.of_chars l1 +++ JsString.of_chars l2.
Proof.
  unfold JsString.of_chars. induction l1 as [|c l1 IH]; simpl; [done | by rewrite IH].
Qed.

Lemma chars_inj (a b : string) : JsString.chars a = JsString.chars b -> a = b.
Proof. intros H. by rewrite <- (of_chars_chars a), H, of_chars_chars. Qed.

Lemma append_assoc (a b c : string) : (a +++ b) +++ c = a +++ b +++ c.
Proof. apply chars_inj. by rewrite !chars_append, app_assoc. Qed.

Lemma append_nil_r (a : string) : a +++ EmptyString = a.
Proof. apply chars_inj. rewrite chars_append. apply app_nil_r. Qed.

Lemma length_append (a b : string) :
  String.length (a +++ b) = String.length a + String.length b.
Proof. by rewrite <- !length_chars, chars_append, length_app. Qed.

Lemma substring0_append (a b : string) :
  JsString.substring0 (String.length a) (a +++ b) = a.
Proof.
  induction a as [|x a IH].
  - by destruct b.
  - change (String x a +++ b) with (String x (a +++ b)). simpl. by rewrite IH.
Qed.

Lemma split_newline_length (s : string) :
  forall cur, length (JsString.split_go (String JsString.newline EmptyString) s 0 cur)
              = S (line_feeds s).
Proof.
  unfold line_feeds, JsString.count_char.
  induction s as [|c s IH]; intros cur; [reflexivity|].
  cbn [JsString.split_go JsString.startsWith JsString.chars list_ascii_of_string].
  fold (JsString.chars s).
  destruct (Ascii.eqb_spec JsString.newline c) as [<-|Hne].
  - cbn [String.length Nat.sub length]. rewrite IH.
    rewrite filter_cons_True by apply Ascii.eqb_refl. reflexivity.
  - rewrite IH. rewrite filter_cons_False; [reflexivity|].
    intros H. apply Ascii.eqb_eq in H. congruence.
Qed.

(** The number of lines of a text is one more than its line feeds. *)
Lemma lines_length (s : string) : length (JsString.lines s) = S (line_feeds s).
Proof. apply split_newline_length. Qed.

(* --------------------------------------------------------------------- *)
(** ** The tree cursor and the cyclomatic complexity *)
(* --------------------------------------------------------------------- *)

Lemma advance_walk (n : SyntaxNode) : advance (walk n) = None.
Proof. reflexivity. Qed.

Lemma gotoNextSibling_measure (c c' : TreeCursor) :
  gotoNextSibling c = Some c' -> cursor_measure c' < cursor_measure c.
Proof.
  destruct c as [f t]; unfold gotoNextSibling, cursor_measure; simpl.
  destruct t as [|[p i] up]; [discriminate|].
  destruct (childrenOf p !! S i) as [[fld sib]|] eqn:E; [|discriminate].
  intros [= <-]; simpl.
  apply lookup_lt_Some in E. lia.
Qed.

Lemma advance_measure (c c' : TreeCursor) :
  advance c = Some c' -> cursor_measure c' < cursor_measure c.
Proof.
  unfold advance.
  destruct (gotoNextSibling c) as [c1|] eqn:E1.
  - intros [= <-]. by apply gotoNextSibling_measure.
  - destruct (gotoParent c) as [p|] eqn:E2; [|discriminate].
    intros E3. apply gotoNextSibling_measure in E3.
    destruct c as [f t]; unfold gotoParent, cursor_measure in *; simpl in *.
    destruct t as [|[q i] up]; [discriminate|].
    injection E2 as <-. simpl in *. lia.
Qed.

(** The loop never runs out of fuel: any fuel above the measure gives the
    same result. *)
Lemma cursor_loop_fuel {A : Type} (body : TreeCursor -> A -> A) :
  forall fuel1 fuel2 c acc,
    cursor_measure c < fuel1 -> cursor_measure c < fuel2 ->
    cursor_loop fuel1 body c acc = cursor_loop fuel2 body c acc.
Proof.
  induction fuel1 as [|f1 IH]; intros fuel2 c acc H1 H2; [lia|].
  destruct fuel2 as [|f2]; [lia|]. simpl.
  destruct (advance c) as [c'|] eqn:E; [|reflexivity].
  apply advance_measure in E. apply IH; lia.
Qed.

(** From a fresh cursor the body runs exactly once, on the node itself. *)
Lemma do_while_walk {A : Type} (body : TreeCursor -> A -> A) (n : SyntaxNode) (acc : A) :
  do_while body (walk n) acc = body (walk n) acc.
Proof. reflexivity. Qed.

Lemma calculateCyclomaticComplexity_root_only (n : SyntaxNode) :
  calculateCyclomaticComplexity n
  = if list_includes (nodeTypeOf n) incrementingNodes then 2 else 1.
Proof.
  unfold calculateCyclomaticComplexity. rewrite do_while_walk.
  unfold nodeType; simpl.
  by destruct (list_includes (nodeTypeOf n) incrementingNodes).
Qed.

Lemma decision_nodes_split (n : SyntaxNode) :
  decision_nodes n
  = (if list_includes (nodeTypeOf n) incrementingNodes then 1 else 0)
    + decision_nodes_below n.
Proof. by destruct n. Qed.

(** C1.  The complexity should be one plus the number of decision
    constructs in the whole subtree.  The function falls short of that by
    exactly the number of decision constructs below the node: its cursor
    is never moved into the children, so only the node it was created on
    is inspected.  On a block that holds one [if] statement the
    specification gives 2 and the function returns 1. *)
Theorem calculateCyclomaticComplexity_misses_descendants :
  (forall node : SyntaxNode,
      calculateCyclomaticComplexity node + decision_nodes_below node
      = spec_cyclomatic node)
  /\ decision_nodes_below block_with_if = 1
  /\ calculateCyclomaticComplexity block_with_if = 1
  /\ spec_cyclomatic block_with_if = 2.
Proof.
  split; [|repeat split; reflexivity].
  intros node. unfold spec_cyclomatic.
  rewrite calculateCyclomaticComplexity_root_only, decision_nodes_split.
  destruct (list_includes (nodeTypeOf node) incrementingNodes); lia.
Qed.

(* --------------------------------------------------------------------- *)
(** ** Cohesion *)
(* --------------------------------------------------------------------- *)

Lemma count_inner_bounds (fa : gmap string (gset string)) (mi : string) :
  forall rest p c,
    c <= p ->
    let '(p', c') :=
      fold_left
        (fun '(methodPairs, connectedPairs) mj =>
           (S methodPairs,
            if share_field (fields_of fa mi) (fields_of fa mj)
            then S connectedPairs else connectedPairs))
        rest (p, c) in
    c' <= p' /\ p' = p + length rest.
Proof.
  induction rest as [|mj rest IH]; intros p c Hle; simpl.
  - lia.
  - destruct (share_field (fields_of fa mi) (fields_of fa mj)).
    + specialize (IH (S p) (S c) ltac:(lia)).
      destruct (fold_left _ rest (S p, S c)) as [p' c']. lia.
    + specialize (IH (S p) c ltac:(lia)).
      destruct (fold_left _ rest (S p, c)) as [p' c']. lia.
Qed.

Lemma count_pairs_bounds (fa : gmap string (gset string)) :
  forall methods p c,
    c <= p ->
    let '(p', c') := count_pairs fa methods (p, c) in
    c' <= p' /\ p <= p' /\ (length methods < 2 -> p' = p).
Proof.
  induction methods as [|mi rest IH]; intros p c Hle; simpl.
  - lia.
  - pose proof (count_inner_bounds fa mi rest p c Hle) as Hin.
    destruct (fold_left _ rest (p, c)) as [p1 c1]. destruct Hin as [Hc Hp].
    specialize (IH p1 c1 Hc).
    destruct (count_pairs fa rest (p1, c1)) as [p' c'].
    destruct IH as (H1 & H2 & H3).
    repeat split; [lia | lia |].
    intros Hlen. destruct rest as [|x rest']; simpl in *; [|lia].
    rewrite H3; lia.
Qed.

Lemma sign_of_positive (n : nat) :
  0 < n -> JsNumber.sign_of (inject_Z (Z.of_nat n)) = Gt.
Proof.
  intros H. unfold JsNumber.sign_of. apply Qgt_alt.
  change 0%Q with (inject_Z 0). rewrite <- Zlt_Qlt. lia.
Qed.

(** The second pass alone, on any list of methods and any record of field
    accesses. *)
Lemma cohesion_of_bounds (methods : list string) (fa : gmap string (gset string)) :
  exists q : Q,
    cohesion_of methods fa = JsNumber.Fin q
    /\ (0 <= q)%Q /\ (q <= 1)%Q
    /\ (length methods < 2 -> cohesion_of methods fa = JsNumber.of_nat 1).
Proof.
  unfold cohesion_of.
  pose proof (count_pairs_bounds fa methods 0 0 (Nat.le_refl 0)) as H.
  destruct (count_pairs fa methods (0, 0)) as [p c].
  destruct H as (Hc & _ & Hfew).
  destruct (0 <? p) eqn:Hp.
  - apply Nat.ltb_lt in Hp.
    exists (inject_Z (Z.of_nat c) / inject_Z (Z.of_nat p))%Q.
    assert (Hpos : (0 < inject_Z (Z.of_nat p))%Q).
    { change 0%Q with (inject_Z 0). rewrite <- Zlt_Qlt. lia. }
    repeat split.
    + unfold JsNumber.div, JsNumber.of_nat. by rewrite sign_of_positive.
    + apply Qle_shift_div_l; [exact Hpos|].
      rewrite Qmult_0_l. change 0%Q with (inject_Z 0). rewrite <- Zle_Qle. lia.
    + apply Qle_shift_div_r; [exact Hpos|].
      rewrite Qmult_1_l. rewrite <- Zle_Qle. lia.
    + intros Hlen. specialize (Hfew Hlen). lia.
  - exists 1%Q. repeat split; try reflexivity; discriminate.
Qed.

(** C8.  The cohesion score is a finite number between 0 and 1, and it is
    exactly 1 when fewer than two methods were collected (no pair of
    methods to compare). *)
Theorem calculateCohesion_unit_interval (node : SyntaxNode) :
  exists q : Q,
    calculateCohesion node = JsNumber.Fin q
    /\ (0 <= q)%Q /\ (q <= 1)%Q
    /\ (length (fst (collect_methods node)) < 2 ->
        calculateCohesion node = JsNumber.of_nat 1).
Proof.
  unfold calculateCohesion.
  destruct (collect_methods node) as [methods fa]; simpl.
  apply cohesion_of_bounds.
Qed.

Lemma calculateCohesion_unit_interval_witness :
  calculateCohesion (function_node 21) = JsNumber.of_nat 1.
Proof.
  destruct (calculateCohesion_unit_interval (function_node 21)) as (q & _ & _ & _ & H).
  apply H. vm_compute. lia.
Defined.

(* --------------------------------------------------------------------- *)
(** ** Averages *)
(* --------------------------------------------------------------------- *)

Lemma calculateStats_averageMetrics (results : list AnalysisResult.t) :
  AnalysisStats.averageMetrics (calculateStats results)
  = divide_metrics
      (fold_left (fun acc r => add_metrics acc (AnalysisResult.metrics r))
         results zero_metrics)
      (length results).
Proof.
  unfold calculateStats.
  by destruct (fold_left tally results (fun _ => 0, JsObject.empty)).
Qed.

(** C3.  Each average is the per-field sum divided by the file count, and
    the division should be guarded against an empty batch.  It is not:
    with no results every sum is 0 and the file count is 0, and each
    average is [0 / 0], which is NaN. *)
Theorem calculateStats_empty_batch_NaN :
  (forall results : list AnalysisResult.t,
      AnalysisStats.averageMetrics (calculateStats results)
      = divide_metrics
          (fold_left (fun acc r => add_metrics acc (AnalysisResult.metrics r))
             results zero_metrics)
          (length results))
  /\ AnalysisStats.averageMetrics (calculateStats [])
     = mkMetrics JsNumber.NaN JsNumber.NaN JsNumber.NaN JsNumber.NaN JsNumber.NaN
         JsNumber.NaN.
Proof.
  split.
  - apply calculateStats_averageMetrics.
  - rewrite calculateStats_averageMetrics. reflexivity.
Qed.

(* --------------------------------------------------------------------- *)
(** ** Per-file counts and worst files *)
(* --------------------------------------------------------------------- *)

Lemma fold_tally_snd (results : list AnalysisResult.t) :
  forall byType (o : JsObject.t nat),
    snd (fold_left tally results (byType, o)) = fold_left record_file results o.
Proof.
  induction results as [|r rs IH]; intros byType o; simpl; [reflexivity|].
  apply IH.
Qed.

Lemma calculateStats_smellsByFile (results : list AnalysisResult.t) :
  AnalysisStats.smellsByFile (calculateStats results)
  = fold_left record_file results JsObject.empty.
Proof.
  unfold calculateStats.
  rewrite <- (fold_tally_snd results (fun _ => 0)).
  by destruct (fold_left tally results (fun _ => 0, JsObject.empty)).
Qed.

Lemma calculateStats_worstFiles (results : list AnalysisResult.t) :
  AnalysisStats.worstFiles (calculateStats results)
  = take 5
      (js_sort by_smellCount_desc
         (map (fun '(fileName, smellCount) => WorstFile.mk fileName smellCount)
            (JsObject.entries (fold_left record_file results JsObject.empty)))).
Proof.
  rewrite <- calculateStats_smellsByFile. unfold calculateStats.
  by destruct (fold_left tally results (fun _ => 0, JsObject.empty)).
Qed.

Lemma calculateStats_totalSmells (results : list AnalysisResult.t) :
  AnalysisStats.totalSmells (calculateStats results)
  = fold_left (fun sum r => sum + AnalysisResult.totalSmells r) results 0.
Proof.
  unfold calculateStats.
  by destruct (fold_left tally results (fun _ => 0, JsObject.empty)).
Qed.

Lemma JsMap_set_fresh {V : Type} (k : string) (v : V) (m : JsMap.t V) :
  k ∉ map fst m -> JsMap.set k v m = m ++ [(k, v)].
Proof.
  induction m as [|[k' v'] m IH]; intros Hk; simpl; [reflexivity|].
  simpl in Hk. apply not_elem_of_cons in Hk as [Hne Hk].
  destruct (String.eqb_spec k' k) as [->|_]; [done|].
  by rewrite IH.
Qed.

(** Distinct names other than the reserved key are recorded one after the
    other, in input order. *)
Lemma record_files_distinct (results : list AnalysisResult.t) :
  forall o : JsObject.t nat,
    NoDup (map AnalysisResult.fileName results) ->
    JsObject.proto_key ∉ map AnalysisResult.fileName results ->
    (forall n, n ∈ map AnalysisResult.fileName results -> n ∉ map fst o) ->
    fold_left record_file results o = o ++ map name_count results.
Proof.
  induction results as [|r rs IH]; intros o Hnd Hproto Hfresh; simpl.
  - by rewrite app_nil_r.
  - simpl in Hnd, Hproto. apply NoDup_cons in Hnd as [Hr Hnd].
    apply not_elem_of_cons in Hproto as [Hp Hproto].
    unfold record_file at 2, JsObject.assign.
    destruct (String.eqb_spec (AnalysisResult.fileName r) JsObject.proto_key) as [E|_];
      [congruence|].
    rewrite JsMap_set_fresh by (apply Hfresh; simpl; left).
    rewrite IH; [rewrite <- app_assoc; reflexivity | done | done |].
    intros n Hn. rewrite map_app. simpl. intros Hin.
    apply elem_of_app in Hin as [Hin|Hin].
    + apply (Hfresh n); [simpl; by right | done].
    + apply list_elem_of_singleton in Hin. subst n. done.
Qed.

Lemma sum_counts_app (l1 l2 : list (string * nat)) :
  sum_counts (l1 ++ l2) = sum_counts l1 + sum_counts l2.
Proof. induction l1 as [|e l1 IH]; simpl; [reflexivity|]. rewrite IH. lia. Qed.

Lemma sum_counts_perm (l1 l2 : list (string * nat)) :
  Permutation l1 l2 -> sum_counts l1 = sum_counts l2.
Proof. induction 1; simpl; lia. Qed.

Lemma insert_by_index_perm {V : Type} (e : string * V) (l : list (string * V)) :
  Permutation (JsObject.insert_by_index e l) (e :: l).
Proof.
  induction l as [|e' l IH]; simpl; [done|].
  destruct (_ <=? _)%N; [done|].
  rewrite IH. apply perm_swap.
Qed.

Lemma sort_by_index_perm {V : Type} (l : list (string * V)) :
  Permutation (JsObject.sort_by_index l) l.
Proof.
  induction l as [|e l IH]; simpl; [done|].
  rewrite insert_by_index_perm. by constructor.
Qed.

Lemma filter_split_perm {A : Type} (f : A -> bool) (l : list A) :
  Permutation (List.filter f l ++ List.filter (fun x => negb (f x)) l) l.
Proof.
  induction l as [|x l IH]; simpl; [done|].
  destruct (f x); simpl.
  - by constructor.
  - rewrite <- Permutation_middle. by constructor.
Qed.

Lemma entries_perm {V : Type} (o : JsObject.t V) :
  Permutation (JsObject.entries o) o.
Proof.
  unfold JsObject.entries. rewrite sort_by_index_perm. apply filter_split_perm.
Qed.

(** Without array-index keys, [Object.entries] is creation order. *)
Lemma entries_ordinary {V : Type} (o : JsObject.t V) :
  Forall (fun e => JsObject.is_array_index (fst e) = false) o ->
  JsObject.entries o = o.
Proof.
  intros H. unfold JsObject.entries.
  assert (List.filter JsObject.is_index_entry o = []
          /\ List.filter (fun e => negb (JsObject.is_index_entry e)) o = o) as [-> ->].
  { induction H as [|e l He _ [IH1 IH2]]; simpl; [done|].
    unfold JsObject.is_index_entry in *. rewrite He. simpl. rewrite IH2. done. }
  reflexivity.
Qed.

Lemma total_is_sum (results : list AnalysisResult.t) :
  forall acc,
    fold_left (fun sum r => sum + AnalysisResult.totalSmells r) results acc
    = acc + sum_counts (map name_count results).
Proof.
  induction results as [|r rs IH]; intros acc; simpl; [lia|].
  rewrite IH. lia.
Qed.

(** C2, as amended.  When the file names are pairwise distinct and none is
    the reserved key [__proto__], the per-file counts of the statistics
    add up to the total number of findings. *)
Theorem smellsByFile_sums_to_total (results : list AnalysisResult.t) :
  NoDup (map AnalysisResult.fileName results) ->
  JsObject.proto_key ∉ map AnalysisResult.fileName results ->
  sum_counts (JsObject.entries (AnalysisStats.smellsByFile (calculateStats results)))
  = AnalysisStats.totalSmells (calculateStats results).
Proof.
  intros Hnd Hproto.
  rewrite (sum_counts_perm _ _ (entries_perm _)).
  rewrite calculateStats_smellsByFile, calculateStats_totalSmells.
  rewrite record_files_distinct; [| done | done | intros n _; apply not_elem_of_nil].
  by rewrite total_is_sum.
Qed.

Lemma smellsByFile_sums_to_total_witness :
  sum_counts (JsObject.entries (AnalysisStats.smellsByFile (calculateStats four_files)))
  = AnalysisStats.totalSmells (calculateStats four_files).
Proof.
  apply (smellsByFile_sums_to_total four_files).
  - apply (bool_decide_unpack _). vm_compute. exact I.
  - apply (bool_decide_unpack _). vm_compute. exact I.
Defined.

(** C2, as stated, fails when a file name occurs twice: the later result
    overwrites the count of the earlier one, while the total adds both. *)
Lemma smellsByFile_sum_counterexample :
  sum_counts (JsObject.entries (AnalysisStats.smellsByFile (calculateStats same_name_twice)))
  <> AnalysisStats.totalSmells (calculateStats same_name_twice).
Proof. vm_compute. discriminate. Qed.

Lemma sort_insert_perm {A : Type} (cmp : A -> A -> Z) (a : A) (l : list A) :
  Permutation (sort_insert cmp a l) (a :: l).
Proof.
  induction l as [|b l IH]; simpl; [done|].
  destruct (0 <? cmp a b)%Z; [|done].
  rewrite IH. apply perm_swap.
Qed.

Lemma js_sort_perm {A : Type} (cmp : A -> A -> Z) (l : list A) :
  Permutation (js_sort cmp l) l.
Proof.
  induction l as [|a l IH]; simpl; [done|].
  rewrite sort_insert_perm. by constructor.
Qed.

Lemma sort_insert_descending (a : WorstFile.t) (l : list WorstFile.t) :
  descending l -> descending (sort_insert by_smellCount_desc a l).
Proof.
  unfold descending.
  induction l as [|b l IH]; intros Hs; simpl.
  - constructor; constructor.
  - apply StronglySorted_inv in Hs as [Hl Hb].
    destruct (0 <? by_smellCount_desc a b)%Z eqn:E.
    + apply Z.ltb_lt in E. unfold by_smellCount_desc in E.
      constructor; [by apply IH|].
      rewrite (sort_insert_perm by_smellCount_desc a l).
      constructor; [lia | done].
    + apply Z.ltb_ge in E. unfold by_smellCount_desc in E.
      constructor; [by constructor|].
      constructor; [lia|].
      eapply Forall_impl; [exact Hb|]. simpl. intros c Hc. lia.
Qed.

Lemma js_sort_descending (l : list WorstFile.t) :
  descending (js_sort by_smellCount_desc l).
Proof.
  induction l as [|a l IH]; simpl.
  - constructor.
  - by apply sort_insert_descending.
Qed.

Lemma sort_insert_with_count (c : nat) (a : WorstFile.t) (l : list WorstFile.t) :
  with_count c (sort_insert by_smellCount_desc a l) = with_count c (a :: l).
Proof.
  unfold with_count.
  induction l as [|b l IH]; simpl; [reflexivity|].
  destruct (0 <? by_smellCount_desc a b)%Z eqn:E; [|reflexivity].
  apply Z.ltb_lt in E. unfold by_smellCount_desc in E.
  simpl. rewrite IH. simpl.
  destruct (WorstFile.smellCount a =? c) eqn:Ea;
    destruct (WorstFile.smellCount b =? c) eqn:Eb; try reflexivity.
  apply Nat.eqb_eq in Ea, Eb. lia.
Qed.

Lemma js_sort_with_count (c : nat) (l : list WorstFile.t) :
  with_count c (js_sort by_smellCount_desc l) = with_count c l.
Proof.
  induction l as [|a l IH]; simpl; [reflexivity|].
  rewrite sort_insert_with_count. unfold with_count in *. simpl. by rewrite IH.
Qed.

Lemma js_sort_stable_descending (l : list WorstFile.t) :
  stable_descending_sort_of l (js_sort by_smellCount_desc l).
Proof.
  split; [apply js_sort_perm|].
  split; [apply js_sort_descending|].
  intros c. apply js_sort_with_count.
Qed.

Lemma ordinary_names_no_index (results : list AnalysisResult.t) :
  Forall ordinary_name (map AnalysisResult.fileName results) ->
  Forall (fun e => JsObject.is_array_index (fst e) = false) (map name_count results)
  /\ JsObject.proto_key ∉ map AnalysisResult.fileName results.
Proof.
  induction results as [|r rs IH]; simpl; intros H.
  - split; [constructor | apply not_elem_of_nil].
  - apply Forall_cons in H as [[Hi Hp] Hrs]. destruct (IH Hrs) as [IH1 IH2].
    split; [by constructor|].
    apply not_elem_of_cons. split; [congruence | done].
Qed.

(** C7, as amended.  When the file names are pairwise distinct and each is
    an ordinary name (not an array index, not [__proto__]), the worst
    files are the first five of the stable descending sort of the input:
    counts never increase, and files with equal counts keep their input
    order. *)
Theorem worstFiles_top5_stable (results : list AnalysisResult.t) :
  NoDup (map AnalysisResult.fileName results) ->
  Forall ordinary_name (map AnalysisResult.fileName results) ->
  exists sorted : list WorstFile.t,
    stable_descending_sort_of (map file_entry results) sorted
    /\ AnalysisStats.worstFiles (calculateStats results) = take 5 sorted.
Proof.
  intros Hnd Hord.
  exists (js_sort by_smellCount_desc (map file_entry results)).
  split; [apply js_sort_stable_descending|].
  rewrite calculateStats_worstFiles.
  destruct (ordinary_names_no_index results Hord) as [Hidx Hproto].
  rewrite record_files_distinct; [| done | done | intros n _; apply not_elem_of_nil].
  simpl. rewrite entries_ordinary by exact Hidx.
  by rewrite map_map.
Qed.

Lemma worstFiles_top5_stable_witness :
  exists sorted : list WorstFile.t,
    stable_descending_sort_of (map file_entry four_files) sorted
    /\ AnalysisStats.worstFiles (calculateStats four_files) = take 5 sorted.
Proof.
  apply (worstFiles_top5_stable four_files).
  - apply (bool_decide_unpack _). vm_compute. exact I.
  - repeat constructor; vm_compute; discriminate.
Defined.

(** The example of the specification: counts 5, 5, 3, 1 come out in input
    order. *)
Example worstFiles_four_files :
  map WorstFile.fileName (AnalysisStats.worstFiles (calculateStats four_files))
  = ["a.cpp"; "b.cpp"; "c.cpp"; "d.cpp"].
Proof. reflexivity. Qed.

(** C7, as stated, fails when a file name is submitted twice: the name
    keeps the place of its first result and takes the count of its last,
    so here [a.cpp] precedes [b.cpp] although the result that gave
    [a.cpp] its count of 5 came after the result of [b.cpp]; and the list
    has two entries for three results. *)
Lemma worstFiles_counterexample :
  map WorstFile.fileName (AnalysisStats.worstFiles (calculateStats resubmitted_file))
  = ["a.cpp"; "b.cpp"]
  /\ ~ exists sorted : list WorstFile.t,
         stable_descending_sort_of (map file_entry resubmitted_file) sorted
         /\ AnalysisStats.worstFiles (calculateStats resubmitted_file) = take 5 sorted.
Proof.
  split; [reflexivity|].
  intros (sorted & (Hperm & _) & Heq).
  apply Permutation_length in Hperm.
  apply (f_equal (@length _)) in Heq.
  rewrite length_take in Heq.
  change (length (map file_entry resubmitted_file)) with 3 in Hperm.
  change (length (AnalysisStats.worstFiles (calculateStats resubmitted_file))) with 2 in Heq.
  lia.
Qed.

(* --------------------------------------------------------------------- *)
(** ** Deep nesting *)
(* --------------------------------------------------------------------- *)

Lemma gfold_cons {A S : Type} (f : S -> A -> Gen S) (x : A) (l : list A) (s : S) (u : UuidGen) :
  gfold f s (x :: l) u = gfold f (fst (f s x u)) l (snd (f s x u)).
Proof. reflexivity. Qed.

Lemma count_lines_cons (p : string -> bool) (l : string) (ls : list string) :
  count_lines p (l :: ls) = (if p l then 1 else 0) + count_lines p ls.
Proof. unfold count_lines. simpl. by destruct (p l). Qed.


Lemma run_depth_nonneg (run : list Level) : (0 <= run_depth run)%Z.
Proof. unfold run_depth. induction run as [|x run IH]; simpl; lia. Qed.




















(** The boundary cases: depth three gives nothing, depth four a medium
    finding, depth five a high one. *)
Example detectDeepNesting_boundaries :
  map severity (fst (detectDeepNesting (nest 3) "a.cpp" counting_uuids)) = []
  /\ map severity (fst (detectDeepNesting (nest 4) "a.cpp" counting_uuids)) = [medium]
  /\ map severity (fst (detectDeepNesting (nest 5) "a.cpp" counting_uuids)) = [high].
Proof. repeat split; reflexivity. Qed.


(** That text is the kind the amended statement leaves out: its one run
    comes back to its maximum depth after the first closing brace met
    there, and the detector reports the run twice where one finding is
    expected. *)
Example detectDeepNesting_two_summits :
  forallb one_summit (nesting_runs two_blocks_at_depth_four) = false
  /\ expected_nesting two_blocks_at_depth_four = [(4, medium)]
  /\ map placement (fst (detectDeepNesting two_blocks_at_depth_four "a.cpp" counting_uuids))
     = [(4, medium); (4, medium)].
Proof. repeat split; reflexivity. Qed.

(* --------------------------------------------------------------------- *)
(** ** Long functions *)
(* --------------------------------------------------------------------- *)

(** What the callback does when it is handed a function definition with a
    body: it flags the function exactly when the body has more than 20
    lines, grades it by 40 and 30, and ends the finding [lines] below its
    start. *)
Lemma longFunction_enter_rule
  (fileName : string) (node body : SyntaxNode) (smells : list CodeSmell) (u : UuidGen) :
  nodeTypeOf node = "function_definition" ->
  childForFieldName "body" node = Some body ->
  let n := length (JsString.lines (textOf body)) in
  (n <= 20 -> fst (longFunction_enter fileName node smells u) = smells)
  /\ (20 < n ->
      exists s : CodeSmell,
        fst (longFunction_enter fileName node smells u) = smells ++ [s]
        /\ type s = LongFunction
        /\ lineNumber s = startRowOf node + 1
        /\ endLineNumber s = Some (startRowOf node + 1 + n)
        /\ severity s = (if 40 <? n then high else if 30 <? n then medium else low)).
Proof.
  intros Htype Hbody n. unfold longFunction_enter. rewrite Htype, Hbody.
  change (String.eqb "function_definition" "function_definition") with true.
  cbv iota. fold n. split; intros Hn.
  - replace (20 <? n) with false by (symmetry; apply Nat.ltb_ge; lia).
    reflexivity.
  - replace (20 <? n) with true by (symmetry; apply Nat.ltb_lt; lia).
    eexists. split; [reflexivity|]. repeat split.
Qed.

(** The detector itself never reaches the callback: it hands it to
    [walk], which takes no argument, and returns the empty list it
    started with. *)
Lemma detectLongFunctions_reports_nothing
  (content fileName : string) (ast : SyntaxNode) (w w' : World) (smells : list CodeSmell) :
  detectLongFunctions content fileName ast w = (Returned smells, w') -> smells = [].
Proof.
  unfold detectLongFunctions, bind, ret.
  destruct (getInstance w) as [[[]|msg] w1]; [|discriminate].
  by intros [= <- _].
Qed.

(** C5.  A function whose body has 21 lines should be flagged with low
    severity.  The callback would do so, but the detector does not invoke
    it: whatever the tree, it returns no finding (or fails with the
    parser). *)
Theorem detectLongFunctions_misses_long_function :
  (forall (content fileName : string) (ast : SyntaxNode) (w : World),
      fst (detectLongFunctions content fileName ast w) = Returned []
      \/ exists message, fst (detectLongFunctions content fileName ast w) = Thrown message)
  /\ length (JsString.lines (body_of_lines 21)) = 21
  /\ childForFieldName "body" (function_node 21)
     = Some (mkNode "compound_statement" (body_of_lines 21) 0 [])
  /\ map severity (fst (longFunction_enter "a.cpp" (function_node 21) [] counting_uuids))
     = [low]
  /\ fst (detectLongFunctions (textOf (unit_with_function 21)) "a.cpp"
            (unit_with_function 21) ready_world)
     = Returned [].
Proof.
  split; [|repeat split; reflexivity].
  intros content fileName ast w.
  destruct (detectLongFunctions content fileName ast w) as [[smells|message] w'] eqn:E.
  - left. apply detectLongFunctions_reports_nothing in E. by subst.
  - right. by exists message.
Qed.

(* --------------------------------------------------------------------- *)
(** ** Duplicate code *)
(* --------------------------------------------------------------------- *)

Lemma duplicate_step_eval (content fileName : string) (smells : list CodeSmell)
  (bodies : gmap string FunctionEntry) (m : Regex.Match) (u : UuidGen) :
  duplicate_step content fileName (smells, bodies) m u
  = let normalizedBody := normalize_body (Regex.group 4 m) in
    let lineNumber := JsString.line_of content (Regex.index m) in
    if 100 <? String.length normalizedBody then
      match bodies !! normalizedBody with
      | Some original =>
          ((smells
              ++ [mkSmell (uuidSource u (uuidDrawn u)) DuplicateCode fileName lineNumber None
                    (Regex.group 2 m +++ "(...) { ... }")
                    (Regex.group 2 m)
                    ("Function " +++ JsString.dquote +++ Regex.group 2 m +++ JsString.dquote
                       +++ " contains code duplicated from " +++ JsString.dquote
                       +++ name original +++ JsString.dquote
                       +++ " (line " +++ JsString.of_nat (entryLine original) +++ ")")
                    "Extract the duplicated code into a shared function that can be called from both places."
                    high None],
            bodies),
           mkUuidGen (uuidSource u) (S (uuidDrawn u)))
      | None =>
          ((smells,
            <[normalizedBody := mkFunctionEntry (Regex.group 2 m) lineNumber normalizedBody]>
              bodies), u)
      end
    else ((smells, bodies), u).
Proof.
  unfold duplicate_step. cbv zeta.
  destruct (100 <? String.length (normalize_body (Regex.group 4 m))); [|reflexivity].
  destruct (bodies !! normalize_body (Regex.group 4 m)); reflexivity.
Qed.

(** *** Whitespace normalisation *)

Lemma drop_spaces_snoc (l : list ascii) (c : ascii) :
  JsString.drop_spaces (l ++ [c])
  = match JsString.drop_spaces l with
    | [] => if JsString.is_space c then [] else [c]
    | r => r ++ [c]
    end.
Proof.
  induction l as [|a l IH]; simpl; [done|].
  destruct (JsString.is_space a); [apply IH | done].
Qed.

Lemma strip_end_cons (c : ascii) (l : list ascii) :
  strip_end (c :: l)
  = match strip_end l with
    | [] => if JsString.is_space c then [] else [c]
    | r => c :: r
    end.
Proof.
  unfold strip_end. simpl. rewrite drop_spaces_snoc.
  destruct (JsString.drop_spaces (rev l)) as [|a r] eqn:E; simpl.
  - by destruct (JsString.is_space c).
  - rewrite rev_app_distr. simpl.
    destruct (rev r ++ [a]) eqn:E'; [by destruct (rev r)|done].
Qed.

Lemma drop_spaces_collapse (l : list ascii) :
  forall b,
    JsString.drop_spaces (JsString.collapse_spaces b l)
    = JsString.collapse_spaces false (JsString.drop_spaces l).
Proof.
  induction l as [|c l IH]; intros b; simpl; [done|].
  destruct (JsString.is_space c) eqn:E.
  - destruct b; simpl; [apply IH|]. change (JsString.is_space (ascii_of_nat 32)) with true.
    cbv iota. apply IH.
  - simpl. by rewrite E.
Qed.

Lemma words_of_drop_spaces (l : list ascii) :
  words_of (JsString.drop_spaces l) = words_of l.
Proof.
  induction l as [|c l IH]; simpl; [done|].
  destruct (JsString.is_space c) eqn:E; [exact IH|]. simpl. by rewrite E.
Qed.

Lemma unwords_cons_char (c : ascii) (w : list ascii) (ws : list (list ascii)) :
  unwords ((c :: w) :: ws) = c :: unwords (w :: ws).
Proof. by destruct ws. Qed.

Lemma words_of_nonempty (l : list ascii) : Forall (fun w => w <> []) (words_of l).
Proof.
  induction l as [|c l IH]; simpl; [constructor|].
  destruct (JsString.is_space c); [exact IH|].
  destruct (words_of l) as [|w ws]; [by repeat constructor|].
  apply Forall_cons in IH as [Hw Hws].
  destruct (starts_spaced l); repeat constructor; done.
Qed.

Lemma unwords_nil (ws : list (list ascii)) :
  Forall (fun w => w <> []) ws -> unwords ws = [] -> ws = [].
Proof.
  destruct ws as [|w ws]; [done|]. intros H. apply Forall_cons in H as [Hw _].
  destruct ws; simpl; [done|]. destruct w; [done | discriminate].
Qed.

(** Collapsing the runs of white space and stripping the end leaves the
    words joined by single blanks, after one blank if the text began with
    white space. *)
Lemma strip_end_collapse (l : list ascii) :
  strip_end (JsString.collapse_spaces true l) = unwords (words_of l)
  /\ strip_end (JsString.collapse_spaces false l)
     = match l with
       | c :: _ =>
           if JsString.is_space c
           then match words_of l with
                | [] => []
                | ws => " "%char :: unwords ws
                end
           else unwords (words_of l)
       | [] => []
       end.
Proof.
  induction l as [|c l [IHt IHf]]; [by split|].
  cbn [JsString.collapse_spaces words_of].
  destruct (JsString.is_space c) eqn:E.
  - split; [exact IHt|].
    rewrite strip_end_cons, IHt.
    change (JsString.is_space (ascii_of_nat 32)) with true. cbv iota.
    destruct (words_of l) as [|w ws] eqn:Ew; [done|].
    destruct (unwords (w :: ws)) eqn:Eu; [|done].
    apply unwords_nil in Eu; [done|]. rewrite <- Ew. apply words_of_nonempty.
  - assert (strip_end (c :: JsString.collapse_spaces false l)
            = unwords
                match words_of l with
                | [] => [[c]]
                | w :: ws => if starts_spaced l then [c] :: w :: ws else (c :: w) :: ws
                end) as H.
    { rewrite strip_end_cons, IHf, E.
      destruct l as [|d l']; [done|]. cbn [starts_spaced].
      destruct (JsString.is_space d) eqn:Ed.
      - destruct (words_of (d :: l')) as [|w ws]; [done|]. reflexivity.
      - destruct (words_of (d :: l')) as [|w ws] eqn:Ew; [done|].
        rewrite unwords_cons_char.
        destruct (unwords (w :: ws)) eqn:Eu; [|done].
        apply unwords_nil in Eu; [done|]. rewrite <- Ew. apply words_of_nonempty. }
    split; exact H.
Qed.

(** The normalisation the detector computes is the one specified. *)
Lemma normalize_body_spec (body : string) : normalize_body body = spec_normalize body.
Proof.
  unfold normalize_body, spec_normalize, JsString.trim. f_equal.
  rewrite chars_of_chars, drop_spaces_collapse.
  fold (strip_end (JsString.collapse_spaces false (JsString.drop_spaces (JsString.chars body)))).
  rewrite <- (words_of_drop_spaces (JsString.chars body)).
  destruct (strip_end_collapse (JsString.drop_spaces (JsString.chars body))) as [_ ->].
  destruct (JsString.drop_spaces (JsString.chars body)) as [|c l] eqn:E; [done|].
  assert (JsString.is_space c = false) as ->; [|done].
  clear -E. induction (JsString.chars body) as [|a l' IH]; simpl in E; [done|].
  destruct (JsString.is_space a) eqn:Ea; [by apply IH|]. by injection E as <- _.
Qed.

(** *** The matcher on the path it tries first, and what it can find *)

Lemma behind_after_app (b : option ascii) (s1 s2 : list ascii) :
  behind_after b (s1 ++ s2) = behind_after (behind_after b s1) s2.
Proof. apply fold_left_app. Qed.

Lemma consumes_eps (rest : list ascii) : consumes Regex.Eps [] rest [].
Proof.
  intros k o b c fin H. simpl in *. by rewrite Nat.add_0_r in H.
Qed.

Lemma consumes_chr (p : ascii -> bool) (a : ascii) (rest : list ascii) :
  p a = true -> consumes (Regex.Chr p) [a] rest [].
Proof.
  intros Hp k o b c fin H. simpl in *. unfold Regex.step_char. simpl. rewrite Hp.
  by rewrite Nat.add_1_r in H.
Qed.

Lemma consumes_seq (r1 r2 : Regex.regex) (s1 s2 rest : list ascii)
  (g1 g2 : list (nat * string)) :
  consumes r1 s1 (s2 ++ rest) g1 ->
  consumes r2 s2 rest g2 ->
  consumes (Regex.Seq r1 r2) (s1 ++ s2) rest (g2 ++ g1).
Proof.
  intros H1 H2 k o b c fin H. simpl. rewrite <- app_assoc.
  apply H1, H2.
  by rewrite length_app, Nat.add_assoc, behind_after_app, <- app_assoc in H.
Qed.

Lemma consumes_lit (s : string) (rest : list ascii) :
  consumes (Regex.lit s) (JsString.chars s) rest [].
Proof.
  induction s as [|a s IH]; simpl.
  - apply consumes_eps.
  - apply (consumes_seq _ _ [a] _ _ [] []); [|exact IH].
    apply consumes_chr. apply Ascii.eqb_refl.
Qed.

Lemma consumes_group (i : nat) (r : Regex.regex) (s rest : list ascii)
  (g : list (nat * string)) :
  consumes r s rest g ->
  consumes (Regex.Group i r) s rest ((i, JsString.of_chars s) :: g).
Proof.
  intros Hr k o b c fin H. simpl. apply Hr. unfold Regex.close_group. simpl.
  replace (o + length s - o) with (length s) by lia.
  by rewrite take_app_length.
Qed.

Lemma consumes_alt_l (r1 r2 : Regex.regex) (s rest : list ascii) (g : list (nat * string)) :
  consumes r1 s rest g -> consumes (Regex.Alt r1 r2) s rest g.
Proof.
  intros H1 k o b c fin H. simpl. by rewrite (H1 k o b c fin H).
Qed.

Lemma consumes_alt_r (r1 r2 : Regex.regex) (s rest : list ascii) (g : list (nat * string)) :
  fails_on r1 (s ++ rest) -> consumes r2 s rest g -> consumes (Regex.Alt r1 r2) s rest g.
Proof.
  intros H1 H2 k o b c fin H. simpl. rewrite H1. simpl. by apply H2.
Qed.

Lemma fails_on_chr (p : ascii -> bool) (l : list ascii) :
  stops p l -> fails_on (Regex.Chr p) l.
Proof.
  intros H k o b c. simpl. unfold Regex.step_char. simpl.
  destruct l as [|a l]; [done|]. simpl in H. by rewrite H.
Qed.

Lemma fails_on_seq (r1 r2 : Regex.regex) (l : list ascii) :
  fails_on r1 l -> fails_on (Regex.Seq r1 r2) l.
Proof. intros H k o b c. simpl. apply H. Qed.

Lemma first_of_some (a : option Regex.mstate) (b : unit -> option Regex.mstate)
  (x : Regex.mstate) :
  a = Some x -> Regex.first_of a b = Some x.
Proof. by intros ->. Qed.

(** A greedy repetition of a character class takes the whole stretch of
    the class. *)
Lemma star_loop_class (p : ascii -> bool) (s : list ascii) :
  forall rest fuel (k : Regex.cont) o b c fin,
    forallb p s = true -> stops p rest -> length s <= fuel ->
    k (Regex.mkState rest (o + length s) (behind_after b s) c) = Some fin ->
    Regex.star_loop (Regex.run (Regex.Chr p)) true fuel k (Regex.mkState (s ++ rest) o b c)
    = Some fin.
Proof.
  induction s as [|a s IH]; intros rest fuel k o b c fin Hall Hstop Hfuel H.
  - simpl in *. rewrite Nat.add_0_r in H.
    destruct fuel as [|fuel]; simpl; [done|].
    unfold Regex.step_char. simpl.
    destruct rest as [|x rest]; simpl; [done|]. simpl in Hstop. by rewrite Hstop.
  - simpl in Hall. apply andb_true_iff in Hall as [Ha Hall].
    destruct fuel as [|fuel]; [simpl in Hfuel; lia|].
    cbn [Regex.star_loop Regex.run app]. apply first_of_some.
    unfold Regex.step_char. cbn [Regex.ahead Regex.offset Regex.caps]. rewrite Ha.
    replace (S o =? o) with false by (symmetry; apply Nat.eqb_neq; lia).
    refine (IH rest fuel k (S o) (Some a) c fin Hall Hstop _ _); [simpl in Hfuel; lia|].
    simpl in H. by replace (S o + length s) with (o + S (length s)) by lia.
Qed.

Lemma consumes_star_class (p : ascii -> bool) (s rest : list ascii) :
  forallb p s = true -> stops p rest ->
  consumes (Regex.star (Regex.Chr p)) s rest [].
Proof.
  intros Hall Hstop k o b c fin H. unfold Regex.star. simpl in H.
  refine (star_loop_class p s rest (S (length (s ++ rest))) k o b c fin Hall Hstop _ H).
  rewrite length_app. lia.
Qed.

Lemma consumes_plus_class (p : ascii -> bool) (s rest : list ascii) :
  s <> [] -> forallb p s = true -> stops p rest ->
  consumes (Regex.plus (Regex.Chr p)) s rest [].
Proof.
  intros Hne Hall Hstop. destruct s as [|a s]; [done|].
  simpl in Hall. apply andb_true_iff in Hall as [Ha Hall].
  unfold Regex.plus. apply (consumes_seq _ _ [a] s rest [] []).
  - by apply consumes_chr.
  - by apply consumes_star_class.
Qed.

(** A greedy repetition takes one item after the other when each item is
    taken on the first path and nothing more can begin after the last. *)
Lemma star_loop_items (r : Regex.regex) (items : list (list ascii)) (rest : list ascii) :
  forall fuel (k : Regex.cont) o b c fin,
    Forall (fun it => it <> []) items ->
    (forall before it after,
        items = before ++ it :: after -> consumes r it (concat after ++ rest) []) ->
    fails_on r rest ->
    length items <= fuel ->
    k (Regex.mkState rest (o + length (concat items)) (behind_after b (concat items)) c)
    = Some fin ->
    Regex.star_loop (Regex.run r) true fuel k (Regex.mkState (concat items ++ rest) o b c)
    = Some fin.
Proof.
  induction items as [|it items IH]; intros fuel k o b c fin Hne Hitem Hfail Hfuel H.
  - simpl in *. rewrite Nat.add_0_r in H.
    destruct fuel as [|fuel]; simpl; [done|]. by rewrite Hfail.
  - destruct fuel as [|fuel]; [simpl in Hfuel; lia|].
    apply Forall_cons in Hne as [Hit Hne].
    cbn [Regex.star_loop concat]. rewrite <- app_assoc. apply first_of_some.
    apply (Hitem [] it items eq_refl). cbn [Regex.offset app].
    replace (o + length it =? o) with false
      by (symmetry; apply Nat.eqb_neq; destruct it; [done | simpl; lia]).
    apply IH; [done | | done | simpl in Hfuel; lia |].
    + intros before it' after ->. apply (Hitem (it :: before) it' after eq_refl).
    + simpl in H. by rewrite length_app, Nat.add_assoc, behind_after_app in H.
Qed.

Lemma consumes_star_items (r : Regex.regex) (items : list (list ascii)) (rest : list ascii) :
  Forall (fun it => it <> []) items ->
  (forall before it after,
      items = before ++ it :: after -> consumes r it (concat after ++ rest) []) ->
  fails_on r rest ->
  consumes (Regex.star r) (concat items) rest [].
Proof.
  intros Hne Hitem Hfail k o b c fin H. unfold Regex.star. simpl in H.
  refine (star_loop_items r items rest (S (length (concat items ++ rest))) k o b c fin
            Hne Hitem Hfail _ H).
  rewrite length_app.
  assert (length items <= length (concat items)); [|lia].
  clear -Hne. induction Hne as [|it items Hit _ IH]; simpl; [lia|].
  rewrite length_app. destruct it; [done | simpl; lia].
Qed.

(** Whatever the matcher finds lies in the language of the pattern. *)
Lemma star_loop_sound (r : Regex.regex) (greedy : bool) :
  (forall (k : Regex.cont) st fin,
      Regex.run r k st = Some fin ->
      exists s rest b' c',
        Regex.ahead st = s ++ rest /\ lang r s
        /\ k (Regex.mkState rest (Regex.offset st + length s) b' c') = Some fin) ->
  forall fuel (k : Regex.cont) st fin,
    Regex.star_loop (Regex.run r) greedy fuel k st = Some fin ->
    exists s rest b' c',
      Regex.ahead st = s ++ rest /\ lang (Regex.Star greedy r) s
      /\ k (Regex.mkState rest (Regex.offset st + length s) b' c') = Some fin.
Proof.
  intros Hr. induction fuel as [|fuel IH]; intros k st fin H.
  - simpl in H. exists [], (Regex.ahead st), (Regex.behind st), (Regex.caps st).
    split; [done|]. split; [by exists [] |].
    simpl. rewrite Nat.add_0_r. by destruct st.
  - assert (Hstop : k st = Some fin ->
              exists s rest b' c',
                Regex.ahead st = s ++ rest /\ lang (Regex.Star greedy r) s
                /\ k (Regex.mkState rest (Regex.offset st + length s) b' c') = Some fin).
    { intros Hk. exists [], (Regex.ahead st), (Regex.behind st), (Regex.caps st).
      split; [done|]. split; [by exists [] |].
      simpl. rewrite Nat.add_0_r. by destruct st. }
    assert (Hagain :
              Regex.run r
                (fun st' =>
                   if Regex.offset st' =? Regex.offset st then None
                   else Regex.star_loop (Regex.run r) greedy fuel k st') st = Some fin ->
              exists s rest b' c',
                Regex.ahead st = s ++ rest /\ lang (Regex.Star greedy r) s
                /\ k (Regex.mkState rest (Regex.offset st + length s) b' c') = Some fin).
    { intros Hrun. apply Hr in Hrun as (s1 & rest1 & b1 & c1 & Hahead & Hs1 & Hk).
      simpl in Hk. destruct (_ =? _); [discriminate|].
      apply IH in Hk as (s2 & rest2 & b2 & c2 & Hahead2 & (pieces & -> & Hpieces) & Hk).
      simpl in Hahead2, Hk. subst rest1.
      exists (s1 ++ concat pieces), rest2, b2, c2.
      split; [by rewrite Hahead, app_assoc|].
      split; [exists (s1 :: pieces); split; [done | by constructor] |].
      by rewrite length_app, Nat.add_assoc. }
    simpl in H. destruct greedy; unfold Regex.first_of in H.
    + destruct (Regex.run r _ st) eqn:E; [injection H as ->; by apply Hagain | by apply Hstop].
    + destruct (k st) eqn:E; [injection H as ->; by apply Hstop | by apply Hagain].
Qed.

Lemma run_sound (r : Regex.regex) :
  forall (k : Regex.cont) st fin,
    Regex.run r k st = Some fin ->
    exists s rest b' c',
      Regex.ahead st = s ++ rest /\ lang r s
      /\ k (Regex.mkState rest (Regex.offset st + length s) b' c') = Some fin.
Proof.
  induction r as [|p|r1 IH1 r2 IH2|r1 IH1 r2 IH2|greedy r1 IH1|i r1 IH1|];
    intros k st fin H; [simpl in H .. | | simpl in H | simpl in H].
  - exists [], (Regex.ahead st), (Regex.behind st), (Regex.caps st).
    split; [done|]. split; [done|]. simpl. rewrite Nat.add_0_r. by destruct st.
  - unfold Regex.step_char in H. destruct (Regex.ahead st) as [|a rest] eqn:E; [done|].
    destruct (p a) eqn:Hp; [|done].
    exists [a], rest, (Some a), (Regex.caps st).
    split; [done|]. split; [by exists a|]. simpl. by rewrite Nat.add_1_r.
  - apply IH1 in H as (s1 & rest1 & b1 & c1 & Hahead & Hs1 & H).
    apply IH2 in H as (s2 & rest2 & b2 & c2 & Hahead2 & Hs2 & H).
    simpl in Hahead2, H. subst rest1.
    exists (s1 ++ s2), rest2, b2, c2.
    split; [by rewrite Hahead, app_assoc|].
    split; [by exists s1, s2|]. by rewrite length_app, Nat.add_assoc.
  - unfold Regex.first_of in H. destruct (Regex.run r1 k st) eqn:E.
    + injection H as ->. apply IH1 in E as (s & rest & b' & c' & ? & ? & ?).
      exists s, rest, b', c'. split; [done|]. split; [by left | done].
    + apply IH2 in H as (s & rest & b' & c' & ? & ? & ?).
      exists s, rest, b', c'. split; [done|]. split; [by right | done].
  - exact (star_loop_sound r1 greedy IH1 _ k st fin H).
  - apply IH1 in H as (s & rest & b' & c' & Hahead & Hs & H).
    unfold Regex.close_group in H. simpl in H.
    by exists s, rest, b', ((i, JsString.of_chars
                                (take (Regex.offset st + length s - Regex.offset st)
                                   (Regex.ahead st))) :: c').
  - destruct (Regex.at_line_start st); [|done].
    exists [], (Regex.ahead st), (Regex.behind st), (Regex.caps st).
    split; [done|]. split; [done|]. simpl. rewrite Nat.add_0_r. by destruct st.
Qed.

(** The language of a repeated character class. *)
Lemma lang_star_class (g : bool) (p : ascii -> bool) (s : list ascii) :
  lang (Regex.Star g (Regex.Chr p)) s -> forallb p s = true.
Proof.
  intros (pieces & -> & H). induction H as [|x pieces (a & -> & Ha) _ IH]; [done|].
  simpl. by rewrite Ha, IH.
Qed.

Lemma lang_plus_class (p : ascii -> bool) (s : list ascii) :
  lang (Regex.plus (Regex.Chr p)) s -> s <> [] /\ forallb p s = true.
Proof.
  intros (s1 & s2 & -> & (a & -> & Ha) & H2). apply lang_star_class in H2.
  split; [done|]. simpl. by rewrite Ha, H2.
Qed.

Lemma lang_lit (x : string) (s : list ascii) : lang (Regex.lit x) s -> s = JsString.chars x.
Proof.
  revert s. induction x as [|a x IH]; intros s; simpl; [done|].
  intros (s1 & s2 & -> & (c & -> & Hc) & H2). apply IH in H2 as ->.
  apply Ascii.eqb_eq in Hc. by subst.
Qed.

(** *** The function pattern *)

Lemma space_not_word (c : ascii) : JsString.is_space c = true -> JsString.is_word c = false.
Proof.
  destruct c as [[] [] [] [] [] [] [] []]; vm_compute; congruence.
Qed.

Lemma word_not_space (c : ascii) : JsString.is_word c = true -> JsString.is_space c = false.
Proof.
  intros H. destruct (JsString.is_space c) eqn:E; [|done].
  apply space_not_word in E. congruence.
Qed.

Lemma is_word_text_chars (s : string) :
  is_word_text s = true ->
  JsString.chars s <> [] /\ forallb JsString.is_word (JsString.chars s) = true.
Proof.
  unfold is_word_text. intros H. apply andb_true_iff in H as [Hne Hall].
  split; [|done]. destruct s; [discriminate | done].
Qed.

Lemma stops_cons (p : ascii -> bool) (c : ascii) (l : list ascii) :
  p c = false -> stops p (c :: l).
Proof. done. Qed.

(** What stops a class after a stretch [s] that may be empty. *)
Lemma stops_app (p : ascii -> bool) (s l : list ascii) :
  forallb (fun c => negb (p c)) s = true -> stops p l -> stops p (s ++ l).
Proof.
  destruct s as [|c s]; [done|]. simpl. intros H _.
  apply andb_true_iff in H as [H _]. by apply negb_true_iff.
Qed.

Lemma at_brace_stops (l : list ascii) : at_brace l -> stops (outside "{}") l.
Proof. intros (c & t & -> & [-> | ->]); reflexivity. Qed.

Lemma at_brace_blocks (blocks : list (list ascii * list ascii)) (rest : list ascii) :
  at_brace (concat (map (fun b => block (fst b) (snd b)) blocks) ++ "}"%char :: rest).
Proof.
  destruct blocks as [|b blocks]; simpl.
  - exists "}"%char, rest. by split; [|right].
  - eexists _, _. by split; [|left].
Qed.

Lemma fails_on_open_brace (r : Regex.regex) (rest : list ascii) :
  fails_on (Regex.Seq (Regex.lit "{") r) ("}"%char :: rest).
Proof.
  apply fails_on_seq. simpl. apply fails_on_seq. by apply fails_on_chr.
Qed.

(** Text without braces, up to the next brace. *)
Lemma consumes_no_brace (s rest : list ascii) :
  forallb (outside "{}") s = true -> at_brace rest ->
  consumes Patterns.no_brace s rest [].
Proof.
  intros Hs Hrest. unfold Patterns.no_brace, Regex.none_of.
  apply (consumes_star_class (outside "{}")); [done | by apply at_brace_stops].
Qed.

(** A block without blocks inside. *)
Lemma consumes_inner_block (inner after rest : list ascii) :
  forallb (outside "{}") inner = true ->
  forallb (outside "{}") after = true ->
  at_brace rest ->
  consumes
    (Regex.seq [Regex.lit "{"; Patterns.no_brace; Regex.lit "}"; Patterns.no_brace])
    (block inner after) rest [].
Proof.
  intros Hinner Hafter Hrest. unfold block. cbn [Regex.seq].
  apply (consumes_seq _ _ ["{"%char] (inner ++ "}"%char :: after) rest [] []);
    [apply (consumes_lit "{")|].
  apply (consumes_seq _ _ inner ("}"%char :: after) rest [] []).
  { apply consumes_no_brace; [done|]. eexists _, _. by split; [|right]. }
  apply (consumes_seq _ _ ["}"%char] after rest [] []); [apply (consumes_lit "}")|].
  by apply consumes_no_brace.
Qed.

(** Any number of such blocks, up to the closing brace of what holds
    them. *)
Lemma consumes_braces_2 (blocks : list (list ascii * list ascii)) (rest : list ascii) :
  Forall (fun b => nested 0 (fst b) /\ forallb (outside "{}") (snd b) = true) blocks ->
  consumes Patterns.braces_2 (concat (map (fun b => block (fst b) (snd b)) blocks))
    ("}"%char :: rest) [].
Proof.
  intros Hblocks. unfold Patterns.braces_2.
  apply consumes_star_items.
  - apply Forall_map. apply Forall_forall. by intros b _.
  - intros before it after Hsplit.
    apply map_eq_app in Hsplit as (lb & la & -> & _ & Hla).
    apply map_eq_cons in Hla as (b & la' & -> & <- & <-).
    apply Forall_app in Hblocks as [_ Hb]. apply Forall_cons in Hb as [[Hin Haf] _].
    apply consumes_inner_block; [done | done | apply at_brace_blocks].
  - apply fails_on_open_brace.
Qed.

(** A block with such blocks inside. *)
Lemma consumes_outer_block (inner after rest : list ascii) :
  nested 1 inner ->
  forallb (outside "{}") after = true ->
  at_brace rest ->
  consumes
    (Regex.seq [Regex.lit "{"; Patterns.no_brace; Patterns.braces_2; Regex.lit "}";
                Patterns.no_brace])
    (block inner after) rest [].
Proof.
  intros (first & blocks & Hfirst & Hblocks & ->) Hafter Hrest. unfold block.
  cbn [Regex.seq]. rewrite <- app_assoc.
  apply (consumes_seq _ _ ["{"%char] _ rest [] []); [apply (consumes_lit "{")|].
  apply (consumes_seq _ _ first _ rest [] []).
  { apply consumes_no_brace; [done|]. rewrite <- app_assoc. apply at_brace_blocks. }
  apply (consumes_seq _ _ _ ("}"%char :: after) rest [] []).
  { by apply consumes_braces_2. }
  apply (consumes_seq _ _ ["}"%char] after rest [] []); [apply (consumes_lit "}")|].
  by apply consumes_no_brace.
Qed.

Lemma consumes_braces_1 (blocks : list (list ascii * list ascii)) (rest : list ascii) :
  Forall (fun b => nested 1 (fst b) /\ forallb (outside "{}") (snd b) = true) blocks ->
  consumes Patterns.braces_1 (concat (map (fun b => block (fst b) (snd b)) blocks))
    ("}"%char :: rest) [].
Proof.
  intros Hblocks. unfold Patterns.braces_1.
  apply consumes_star_items.
  - apply Forall_map. apply Forall_forall. by intros b _.
  - intros before it after Hsplit.
    apply map_eq_app in Hsplit as (lb & la & -> & _ & Hla).
    apply map_eq_cons in Hla as (b & la' & -> & <- & <-).
    apply Forall_app in Hblocks as [_ Hb]. apply Forall_cons in Hb as [[Hin Haf] _].
    apply consumes_outer_block; [done | done | apply at_brace_blocks].
  - apply fails_on_open_brace.
Qed.

(** The body of a function, up to its closing brace. *)
Lemma consumes_block_body (l rest : list ascii) :
  nested 2 l -> consumes Patterns.block_body l ("}"%char :: rest) [].
Proof.
  intros (first & blocks & Hfirst & Hblocks & ->). unfold Patterns.block_body.
  cbn [Regex.seq].
  apply (consumes_seq _ _ first _ _ [] []).
  - apply consumes_no_brace; [done | apply at_brace_blocks].
  - by apply consumes_braces_1.
Qed.

Lemma white_space_stops_word (s : string) (l : list ascii) :
  white_space s = true -> stops JsString.is_word l -> stops JsString.is_word (JsString.chars s ++ l).
Proof.
  unfold white_space. intros Hs Hl.
  destruct (JsString.chars s) as [|c t]; [done|]. simpl in *.
  apply andb_true_iff in Hs as [Hc _]. by apply space_not_word.
Qed.

Lemma word_stops_space (s : string) (l : list ascii) :
  is_word_text s = true -> stops JsString.is_space (JsString.chars s ++ l).
Proof.
  intros H. apply is_word_text_chars in H as [Hne Hall].
  destruct (JsString.chars s) as [|c t]; [done|]. simpl in *.
  apply andb_true_iff in Hall as [Hc _]. by apply word_not_space.
Qed.

(** The function pattern takes a function of the form it looks for, as
    it stands, and closes its four groups on the return type, the name,
    the parameters and the body. *)
Lemma consumes_function (f : FunctionText) (rest : list ascii) :
  function_form f ->
  consumes Patterns.functionWithBody (JsString.chars (render f)) rest (function_groups f).
Proof.
  intros (Htype & Hgap_ne & Hgap & Hname & Hngap & Hparams & Hbgap & Hcgap & Hbody).
  pose proof (is_word_text_chars _ Htype) as [Htype_ne Htype_all].
  pose proof (is_word_text_chars _ Hname) as [Hname_ne Hname_all].
  unfold render. rewrite !chars_append.
  change (JsString.chars "(") with ["("%char].
  change (JsString.chars ")") with [")"%char].
  change (JsString.chars "{") with ["{"%char].
  change (JsString.chars "}") with ["}"%char].
  unfold Patterns.functionWithBody, function_groups. cbn [Regex.seq].
  (* the return type *)
  apply (consumes_seq _ _ _ _ rest [(1, returnType f)] [(4, body f); (3, params f);
                                                         (2, functionName f)]).
  { rewrite <- (of_chars_chars (returnType f)) at 2.
    apply consumes_group, consumes_plus_class; [done | done |].
    rewrite <- app_assoc.
    destruct (JsString.chars (typeGap f)) as [|c t] eqn:E;
      [by apply chars_nonempty in Hgap_ne|].
    unfold white_space in Hgap. rewrite E in Hgap. simpl in Hgap.
    apply andb_true_iff in Hgap as [Hc _]. simpl. by apply space_not_word. }
  (* the white space after it *)
  apply (consumes_seq _ _ _ _ rest [] [(4, body f); (3, params f); (2, functionName f)]).
  { apply consumes_plus_class; [by apply chars_nonempty | done |].
    rewrite <- app_assoc. by apply word_stops_space. }
  (* the name *)
  apply (consumes_seq _ _ _ _ rest [(2, functionName f)] [(4, body f); (3, params f)]).
  { rewrite <- (of_chars_chars (functionName f)) at 2.
    apply consumes_group, consumes_plus_class; [done | done |].
    rewrite <- app_assoc. by apply white_space_stops_word. }
  (* the white space before the parameter list *)
  apply (consumes_seq _ _ _ _ rest [] [(4, body f); (3, params f)]).
  { by apply consumes_star_class. }
  apply (consumes_seq _ _ ["("%char] _ rest [] [(4, body f); (3, params f)]);
    [apply (consumes_lit "(")|].
  (* the parameters *)
  apply (consumes_seq _ _ _ _ rest [(3, params f)] [(4, body f)]).
  { rewrite <- (of_chars_chars (params f)) at 2.
    apply consumes_group. by apply (consumes_star_class (outside ")")). }
  apply (consumes_seq _ _ [")"%char] _ rest [] [(4, body f)]); [apply (consumes_lit ")")|].
  (* the qualifier and the white space around it *)
  destruct (constQualified f).
  - apply (consumes_seq _ _ _ _ rest [] [(4, body f)]).
    { by apply consumes_star_class. }
    apply (consumes_seq _ _ _ _ rest [] [(4, body f)]).
    { apply consumes_alt_l, consumes_lit. }
    apply (consumes_seq _ _ _ _ rest [] [(4, body f)]).
    { by apply consumes_star_class. }
    apply (consumes_seq _ _ ["{"%char] _ rest [] [(4, body f)]); [apply (consumes_lit "{")|].
    apply (consumes_seq _ _ _ ["}"%char] rest [(4, body f)] []).
    { rewrite <- (of_chars_chars (body f)) at 2.
      by apply consumes_group, consumes_block_body. }
    apply (consumes_lit "}").
  - change (JsString.chars "") with (@nil ascii). cbn [app].
    rewrite (app_assoc (JsString.chars (bodyGap f))).
    apply (consumes_seq _ _ _ _ rest [] [(4, body f)]).
    { apply consumes_star_class; [|done].
      rewrite forallb_app. unfold white_space in Hbgap, Hcgap. by rewrite Hbgap, Hcgap. }
    apply (consumes_seq _ _ [] _ rest [] [(4, body f)]).
    { apply consumes_alt_r; [|apply consumes_eps].
      simpl. apply fails_on_seq. by apply fails_on_chr. }
    apply (consumes_seq _ _ [] _ rest [] [(4, body f)]).
    { by apply consumes_star_class. }
    apply (consumes_seq _ _ ["{"%char] _ rest [] [(4, body f)]); [apply (consumes_lit "{")|].
    apply (consumes_seq _ _ _ ["}"%char] rest [(4, body f)] []).
    { rewrite <- (of_chars_chars (body f)) at 2.
      by apply consumes_group, consumes_block_body. }
    apply (consumes_lit "}").
Qed.

Lemma lang_no_brace (s : list ascii) :
  lang Patterns.no_brace s -> forallb (outside "{}") s = true.
Proof. apply (lang_star_class true). Qed.

Lemma lang_braces_2 (s : list ascii) :
  lang Patterns.braces_2 s ->
  exists blocks,
    Forall (fun b => nested 0 (fst b) /\ forallb (outside "{}") (snd b) = true) blocks
    /\ s = concat (map (fun b => block (fst b) (snd b)) blocks).
Proof.
  intros (pieces & -> & H). induction H as [|x pieces Hx _ (blocks & Hblocks & Heq)].
  - by exists [].
  - destruct Hx as (o & t1 & -> & Ho & n1 & t2 & -> & Hn1 & c & n2 & -> & Hc & Hn2).
    apply (lang_lit "{") in Ho as ->. apply (lang_lit "}") in Hc as ->.
    apply lang_no_brace in Hn1, Hn2.
    exists ((n1, n2) :: blocks). split; [by constructor|].
    simpl. rewrite Heq. unfold block. simpl. by rewrite <- !app_assoc.
Qed.

Lemma lang_braces_1 (s : list ascii) :
  lang Patterns.braces_1 s ->
  exists blocks,
    Forall (fun b => nested 1 (fst b) /\ forallb (outside "{}") (snd b) = true) blocks
    /\ s = concat (map (fun b => block (fst b) (snd b)) blocks).
Proof.
  intros (pieces & -> & H). induction H as [|x pieces Hx _ (blocks & Hblocks & Heq)].
  - by exists [].
  - destruct Hx as (o & t1 & -> & Ho & n1 & t2 & -> & Hn1 & inner & t3 & -> & Hinner
                    & c & n2 & -> & Hc & Hn2).
    apply (lang_lit "{") in Ho as ->. apply (lang_lit "}") in Hc as ->.
    apply lang_no_brace in Hn1, Hn2.
    apply lang_braces_2 in Hinner as (inner_blocks & Hinner & ->).
    exists ((n1 ++ concat (map (fun b => block (fst b) (snd b)) inner_blocks), n2) :: blocks).
    split.
    + constructor; [|done]. split; [|done]. by exists n1, inner_blocks.
    + simpl. rewrite Heq. unfold block. simpl. by rewrite <- !app_assoc.
Qed.

Lemma lang_block_body (s : list ascii) : lang Patterns.block_body s -> nested 2 s.
Proof.
  intros (first & t & -> & Hfirst & Hblocks).
  apply lang_no_brace in Hfirst. apply lang_braces_1 in Hblocks as (blocks & Hblocks & ->).
  by exists first, blocks.
Qed.

Lemma is_word_text_of_chars (s : list ascii) :
  s <> [] -> forallb JsString.is_word s = true -> is_word_text (JsString.of_chars s) = true.
Proof.
  intros Hne Hall. unfold is_word_text. rewrite chars_of_chars, Hall.
  by destruct s.
Qed.

(** Whatever the function pattern matches is a function of the form
    described. *)
Lemma lang_function (s : list ascii) :
  lang Patterns.functionWithBody s ->
  exists f, function_form f /\ s = JsString.chars (render f).
Proof.
  intros (s1 & t1 & -> & H1 & s2 & t2 & -> & H2 & s3 & t3 & -> & H3 & s4 & t4 & -> & H4
          & s5 & t5 & -> & H5 & s6 & t6 & -> & H6 & s7 & t7 & -> & H7 & s8 & t8 & -> & H8
          & s9 & t9 & -> & H9 & s10 & t10 & -> & H10 & s11 & t11 & -> & H11
          & s12 & s13 & -> & H12 & H13).
  apply lang_plus_class in H1 as [H1n H1], H2 as [H2n H2], H3 as [H3n H3].
  apply (lang_star_class true) in H4, H6, H8, H10.
  apply (lang_lit "(") in H5 as ->. apply (lang_lit ")") in H7 as ->.
  apply (lang_lit "{") in H11 as ->. apply (lang_lit "}") in H13 as ->.
  apply lang_block_body in H12.
  assert (Hconst : exists q : bool, s9 = JsString.chars (if q then "const" else "")).
  { destruct H9 as [H9|H9]; [apply (lang_lit "const") in H9 as -> | rewrite H9];
      [by exists true | by exists false]. }
  destruct Hconst as [q ->].
  exists (mkFunctionText (JsString.of_chars s1) (JsString.of_chars s2) (JsString.of_chars s3)
            (JsString.of_chars s4) (JsString.of_chars s6) (JsString.of_chars s8) q
            (JsString.of_chars s10) (JsString.of_chars s12)).
  split.
  - unfold function_form, white_space. cbn [returnType typeGap functionName nameGap params
                                             bodyGap constQualified constGap body].
    rewrite !chars_of_chars.
    repeat split; try done; try by apply is_word_text_of_chars.
    by destruct s2.
  - unfold render. cbn [returnType typeGap functionName nameGap params
                        bodyGap constQualified constGap body].
    rewrite !chars_append, !chars_of_chars. reflexivity.
Qed.

Lemma render_nonempty (f : FunctionText) (rest : string) :
  function_form f -> render f +++ rest <> EmptyString.
Proof.
  intros (Htype & _). unfold render. unfold is_word_text in Htype.
  destruct (returnType f); [discriminate | done].
Qed.

(** Where no function of the form begins, the function pattern does not
    match. *)
Lemma no_function_no_match (text : string) (o : nat) (b : option ascii)
  (c : list (nat * string)) :
  ~ function_begins text ->
  Regex.run Patterns.functionWithBody Some (Regex.mkState (JsString.chars text) o b c) = None.
Proof.
  intros Hno. destruct (Regex.run _ _ _) as [fin|] eqn:E; [|done]. exfalso. apply Hno.
  apply run_sound in E as (s & rest & b' & c' & Hahead & Hs & _). simpl in Hahead.
  apply lang_function in Hs as (f & Hf & ->).
  exists f, (JsString.of_chars rest). split; [done|].
  by rewrite <- (of_chars_chars text), Hahead, of_chars_app, of_chars_chars.
Qed.

(** *** The search, gap by gap *)

Lemma search_eq (r : Regex.regex) (text : list ascii) (pos : nat) (prev : option ascii) :
  Regex.search r text pos prev
  = match Regex.run r Some (Regex.mkState text pos prev []) with
    | Some fin =>
        Some (Regex.mkMatch pos (JsString.of_chars (take (Regex.offset fin - pos) text))
                (Regex.caps fin), fin)
    | None =>
        match text with
        | [] => None
        | c :: rest => Regex.search r rest (S pos) (Some c)
        end
    end.
Proof. by destruct text. Qed.

(** The search passes over a stretch in which no function begins. *)
Lemma search_gap (gap following : string) :
  forall pos prev,
    free_of_functions gap following ->
    Regex.search Patterns.functionWithBody (JsString.chars (gap +++ following)) pos prev
    = Regex.search Patterns.functionWithBody (JsString.chars following)
        (pos + String.length gap) (behind_after prev (JsString.chars gap)).
Proof.
  induction gap as [|c gap IH]; intros pos prev Hfree.
  - simpl. by rewrite Nat.add_0_r.
  - change (JsString.chars (String c gap +++ following))
      with (c :: JsString.chars (gap +++ following)).
    rewrite search_eq.
    assert (Hnone : Regex.run Patterns.functionWithBody Some
                      (Regex.mkState (c :: JsString.chars (gap +++ following)) pos prev [])
                    = None).
    { apply (no_function_no_match (String c gap +++ following) pos prev []).
      by apply (Hfree EmptyString (String c gap)). }
    rewrite Hnone. rewrite IH.
    + cbn [String.length JsString.chars list_ascii_of_string behind_after fold_left].
      by replace (S pos + String.length gap) with (pos + S (String.length gap)) by lia.
    + intros a b -> Hb. by apply (Hfree (String c a) b).
Qed.

(** It stops on a function of the form the pattern looks for. *)
Lemma search_function (f : FunctionText) (rest : string) (pos : nat) (prev : option ascii) :
  function_form f ->
  Regex.search Patterns.functionWithBody (JsString.chars (render f +++ rest)) pos prev
  = Some (Regex.mkMatch pos (render f) (function_groups f),
          Regex.mkState (JsString.chars rest) (pos + String.length (render f))
            (behind_after prev (JsString.chars (render f))) (function_groups f)).
Proof.
  intros Hf. rewrite search_eq, chars_append.
  rewrite (consumes_function f (JsString.chars rest) Hf Some pos prev []
             (Regex.mkState (JsString.chars rest) (pos + length (JsString.chars (render f)))
                (behind_after prev (JsString.chars (render f))) (function_groups f)));
    [|by rewrite app_nil_r].
  cbn [Regex.offset Regex.caps].
  replace (pos + length (JsString.chars (render f)) - pos)
    with (length (JsString.chars (render f))) by lia.
  by rewrite take_app_length, of_chars_chars, length_chars.
Qed.

(** It finds nothing in a last stretch in which no function begins. *)
Lemma search_end (gap : string) (pos : nat) (prev : option ascii) :
  free_of_functions gap EmptyString ->
  Regex.search Patterns.functionWithBody (JsString.chars gap) pos prev = None.
Proof.
  intros Hfree. rewrite <- (append_nil_r gap) at 1. rewrite search_gap by done.
  rewrite search_eq.
  rewrite (no_function_no_match EmptyString); [done|].
  intros (f & rest & Hf & H). symmetry in H. by apply render_nonempty in H.
Qed.

(** The matches of the function pattern in a text that holds two
    functions and no other. *)
Lemma exec_all_two_functions (pre sep post : string) (earlier later : FunctionText) :
  function_form earlier -> function_form later ->
  free_of_functions pre (render earlier +++ sep +++ render later +++ post) ->
  free_of_functions sep (render later +++ post) ->
  free_of_functions post EmptyString ->
  Regex.exec_all Patterns.functionWithBody
    (pre +++ render earlier +++ sep +++ render later +++ post)
  = [ Regex.mkMatch (String.length pre) (render earlier) (function_groups earlier);
      Regex.mkMatch (String.length (pre +++ render earlier +++ sep)) (render later)
        (function_groups later) ].
Proof.
  intros Hearlier Hlater Hpre Hsep Hpost. unfold Regex.exec_all.
  assert (Hlen : exists n,
             String.length (pre +++ render earlier +++ sep +++ render later +++ post)
             = S (S n)).
  { rewrite !length_append.
    assert (forall f, function_form f -> 0 < String.length (render f)) as Hpos.
    { intros f Hf. pose proof (render_nonempty f EmptyString Hf) as H.
      rewrite append_nil_r in H. destruct (render f); [done | simpl; lia]. }
    pose proof (Hpos _ Hearlier). pose proof (Hpos _ Hlater).
    exists (String.length pre + String.length (render earlier) + String.length sep
            + String.length (render later) + String.length post - 2). lia. }
  destruct Hlen as [n ->].
  cbn [Regex.exec_from].
  rewrite search_gap by done. rewrite search_function by done.
  cbn [Regex.ahead Regex.offset Regex.behind].
  rewrite search_gap by done. rewrite search_function by done.
  cbn [Regex.ahead Regex.offset Regex.behind].
  rewrite search_end by done.
  rewrite !length_append. simpl. by rewrite Nat.add_assoc.
Qed.

Lemma chars_drop_append (a b : string) :
  drop (String.length a) (JsString.chars (a +++ b)) = JsString.chars b.
Proof. by rewrite chars_append, <- length_chars, drop_app_length. Qed.

(** A stretch at no offset of which the pattern matches is free of
    functions. *)
Lemma free_of_functions_scan (gap following : string) :
  forallb (no_match_at (gap +++ following)) (seq 0 (String.length gap)) = true ->
  free_of_functions gap following.
Proof.
  intros Hscan a b -> Hb (f & rest & Hf & Hbegins).
  rewrite forallb_forall in Hscan.
  specialize (Hscan (String.length a)).
  unfold no_match_at in Hscan.
  rewrite append_assoc, chars_drop_append, Hbegins, chars_append in Hscan.
  rewrite (consumes_function f (JsString.chars rest) Hf Some 0 None []
             (Regex.mkState (JsString.chars rest) (0 + length (JsString.chars (render f)))
                (behind_after None (JsString.chars (render f))) (function_groups f ++ [])))
    in Hscan by done.
  assert (false = true); [|done]. apply Hscan.
  apply in_seq. rewrite length_append.
  destruct b; [done | simpl; lia].
Qed.

(** The form of a function, checked by computation but for the nesting
    of its body. *)
Lemma function_form_checked (f : FunctionText) :
  is_word_text (returnType f) && negb (String.eqb (typeGap f) EmptyString)
  && white_space (typeGap f) && is_word_text (functionName f) && white_space (nameGap f)
  && forallb (outside ")") (JsString.chars (params f)) && white_space (bodyGap f)
  && white_space (constGap f) = true ->
  nested 2 (JsString.chars (body f)) ->
  function_form f.
Proof.
  intros H Hbody.
  apply andb_true_iff in H as [H H8]. apply andb_true_iff in H as [H H7].
  apply andb_true_iff in H as [H H6]. apply andb_true_iff in H as [H H5].
  apply andb_true_iff in H as [H H4]. apply andb_true_iff in H as [H H3].
  apply andb_true_iff in H as [H1 H2].
  unfold function_form.
  split; [done|]. split; [by intros E; rewrite E in H2|]. split; [done|].
  split; [done|]. split; [done|]. split; [done|]. split; [done|]. by split.
Qed.

(** C6, as amended.  A text that holds two functions of the form the
    detector looks for, and none besides, whose bodies are the same after
    whitespace normalisation: if the normalised body is longer than 100
    characters the detector reports exactly one finding, a DuplicateCode
    finding of high severity on the line of the later function, under its
    name, that names the earlier function and its line; if not, it
    reports nothing. *)
Theorem detectDuplicateCode_two_functions
  (pre sep post : string) (earlier later : FunctionText) (file : string) (u : UuidGen) :
  function_form earlier -> function_form later ->
  free_of_functions pre (render earlier +++ sep +++ render later +++ post) ->
  free_of_functions sep (render later +++ post) ->
  free_of_functions post EmptyString ->
  spec_normalize (body earlier) = spec_normalize (body later) ->
  map erase_id
    (fst (detectDuplicateCode (pre +++ render earlier +++ sep +++ render later +++ post)
            file u))
  = if 100 <? String.length (spec_normalize (body earlier))
    then [expected_duplicate file
            (functionName earlier) (S (line_feeds pre))
            (functionName later) (S (line_feeds (pre +++ render earlier +++ sep)))]
    else [].
Proof.
  intros Hearlier Hlater Hpre Hsep Hpost Hsame.
  unfold detectDuplicateCode, gbind, gret. cbv zeta. cbn [fst].
  rewrite exec_all_two_functions by done.
  rewrite gfold_cons, duplicate_step_eval. cbv zeta.
  change (Regex.group 4 (Regex.mkMatch ?i ?m (function_groups ?f))) with (body f).
  change (Regex.group 2 (Regex.mkMatch ?i ?m (function_groups ?f))) with (functionName f).
  cbn [Regex.index]. rewrite !normalize_body_spec.
  destruct (100 <? String.length (spec_normalize (body earlier))) eqn:Hlong.
  - rewrite lookup_empty. cbn [fst snd].
    rewrite gfold_cons, duplicate_step_eval. cbv zeta.
    change (Regex.group 4 (Regex.mkMatch ?i ?m (function_groups ?f))) with (body f).
    change (Regex.group 2 (Regex.mkMatch ?i ?m (function_groups ?f))) with (functionName f).
    cbn [Regex.index]. rewrite !normalize_body_spec, <- Hsame, Hlong, lookup_insert_eq.
    cbn [gfold gret fst snd map app name entryLine]. unfold erase_id, expected_duplicate.
    cbn [type fileName lineNumber endLineNumber codeSnippet entityName description
         refactoringTip severity metrics].
    unfold JsString.line_of.
    rewrite substring0_append, lines_length.
    replace (pre +++ render earlier +++ sep +++ render later +++ post)
      with ((pre +++ render earlier +++ sep) +++ render later +++ post)
      by (by rewrite !append_assoc).
    by rewrite substring0_append, lines_length.
  - cbn [fst snd].
    rewrite gfold_cons, duplicate_step_eval. cbv zeta.
    change (Regex.group 4 (Regex.mkMatch ?i ?m (function_groups ?f))) with (body f).
    rewrite !normalize_body_spec, <- Hsame, Hlong. reflexivity.
Qed.

Lemma detectDuplicateCode_two_functions_witness :
  map erase_id
    (fst (detectDuplicateCode
            (sample_pre +++ render sample_earlier +++ sample_sep +++ render sample_later
               +++ sample_post) "a.cpp" counting_uuids))
  = [expected_duplicate "a.cpp" "alpha" 3 "beta" 6].
Proof.
  rewrite (detectDuplicateCode_two_functions sample_pre sample_sep sample_post
             sample_earlier sample_later "a.cpp" counting_uuids).
  - reflexivity.
  - apply function_form_checked; [reflexivity|].
    exists (JsString.chars " int total = a + b; if (total > 10) "),
      [(JsString.chars " total = total - 10; ",
        JsString.chars " total = total * 2; total = total + a; total = total - b; return total; ")].
    split; [reflexivity|]. split; [|reflexivity].
    repeat constructor. by exists (JsString.chars " total = total - 10; "), [].
  - apply function_form_checked; [reflexivity|].
    exists (JsString.chars (nl +++ "  int total = a + b;" +++ nl +++ "  if (total > 10) ")),
      [(JsString.chars (nl +++ "    total = total - 10;" +++ nl +++ "  "),
        JsString.chars (nl +++ "  total = total * 2;   total = total + a;" +++ nl
                           +++ "  total = total - b;" +++ nl
                           +++ "  return total;" +++ nl))].
    split; [reflexivity|]. split; [|reflexivity].
    repeat constructor.
    by exists (JsString.chars (nl +++ "    total = total - 10;" +++ nl +++ "  ")), [].
  - apply free_of_functions_scan. vm_compute. reflexivity.
  - apply free_of_functions_scan. vm_compute. reflexivity.
  - apply free_of_functions_scan. vm_compute. reflexivity.
  - vm_compute. reflexivity.
Defined.

(** Two short identical bodies: no finding. *)
Example detectDuplicateCode_short_bodies :
  length (Regex.exec_all Patterns.functionWithBody (two_functions short_body)) = 2
  /\ fst (detectDuplicateCode (two_functions short_body) "a.cpp" counting_uuids) = [].
Proof. split; reflexivity. Qed.

(** C6, as stated, fails on functions that the detector does not see as
    functions: the two below return a pointer and have the same body of
    more than 100 normalised characters, and nothing is reported. *)
Lemma detectDuplicateCode_counterexample :
  100 < String.length (spec_normalize long_body)
  /\ fst (detectDuplicateCode pointer_functions "a.cpp" counting_uuids) = [].
Proof. split; [vm_compute; lia | reflexivity]. Qed.

(** The same happens when the blocks of the bodies are nested three deep,
    one level more than the function pattern follows. *)
Example detectDuplicateCode_deep_bodies :
  100 < String.length (spec_normalize deep_body)
  /\ fst (detectDuplicateCode (two_functions deep_body) "a.cpp" counting_uuids) = [].
Proof. split; [vm_compute; lia | reflexivity]. Qed.


(* --------------------------------------------------------------------- *)
(** ** The content cache *)
(* --------------------------------------------------------------------- *)

Lemma keeps_store_ret {A : Type} (a : A) : keeps_store (ret a).
Proof. by intros w. Qed.

Lemma keeps_store_bind {A B : Type} (e : Eff A) (f : A -> Eff B) :
  keeps_store e -> (forall a, keeps_store (f a)) -> keeps_store (bind e f).
Proof.
  intros He Hf w. unfold bind. specialize (He w).
  destruct (e w) as [[a|msg] w1]; simpl in *; [|done].
  by rewrite Hf.
Qed.

Lemma keeps_store_getInstance : keeps_store getInstance.
Proof.
  intros w. unfold getInstance.
  by destruct (parserInitialized w), (grammarAvailable w).
Qed.

Lemma keeps_store_parseCode ts_parse code : keeps_store (parseCode ts_parse code).
Proof.
  intros w. unfold parseCode.
  by destruct (parserInitialized w), (ts_parse code).
Qed.

Lemma keeps_store_lift {A : Type} (g : Gen A) : keeps_store (lift g).
Proof. by intros w. Qed.

Lemma keeps_store_Date_now : keeps_store Date_now.
Proof. by intros w. Qed.

Create HintDb store.

#[local] Hint Resolve keeps_store_ret keeps_store_getInstance keeps_store_parseCode
  keeps_store_lift keeps_store_Date_now : store.

Ltac keeps_store_steps :=
  repeat (apply keeps_store_bind; [solve [auto with store] | intros ?]);
  auto with store.

Lemma keeps_store_calculateMetrics ts_parse code :
  keeps_store (calculateMetrics ts_parse code).
Proof. unfold calculateMetrics. keeps_store_steps. Qed.

Lemma keeps_store_detectLongFunctions content fileName ast :
  keeps_store (detectLongFunctions content fileName ast).
Proof. unfold detectLongFunctions. keeps_store_steps. Qed.

Lemma keeps_store_detectLargeClasses content fileName ast :
  keeps_store (detectLargeClasses content fileName ast).
Proof. unfold detectLargeClasses. keeps_store_steps. Qed.

#[local] Hint Resolve keeps_store_calculateMetrics keeps_store_detectLongFunctions
  keeps_store_detectLargeClasses : store.

(** Whatever its outcome, [analyzeCode] leaves the cache holding the
    submitted text under the file name. *)
Lemma analyzeCode_store ts_parse (content fileName : string) (w : World) :
  fileContentStore (snd (analyzeCode ts_parse content fileName w))
  = <[fileName := content]> (fileContentStore w).
Proof.
  unfold analyzeCode. unfold bind at 1. unfold store_set at 1.
  match goal with
  | |- fileContentStore (snd (?e ?w0)) = _ =>
      assert (Hk : keeps_store e) by keeps_store_steps;
      rewrite (Hk w0)
  end.
  reflexivity.
Qed.

Lemma or_else_nonempty (s fallback : string) :
  s <> EmptyString -> or_else s fallback = s.
Proof. intros H. unfold or_else. by destruct s. Qed.

(** C10, as amended.  When [analyzeCode] throws, the cache already holds
    the submitted text under the file name, and [getFileContent] returns
    that text provided it is not empty. *)
Theorem analyzeCode_failure_overwrites_cache
  (ts_parse : string -> option SyntaxNode) (content fileName message : string)
  (w w' : World) :
  analyzeCode ts_parse content fileName w = (Thrown message, w') ->
  fileContentStore w' !! fileName = Some content
  /\ (content <> EmptyString -> getFileContent fileName w' = (Returned content, w')).
Proof.
  intros Hrun.
  assert (Hstore : fileContentStore w' !! fileName = Some content).
  { pose proof (analyzeCode_store ts_parse content fileName w) as H.
    rewrite Hrun in H. simpl in H. rewrite H. apply lookup_insert_eq. }
  split; [exact Hstore|].
  intros Hne. unfold getFileContent, bind, store_get, ret.
  rewrite Hstore. by rewrite or_else_nonempty.
Qed.

Lemma analyzeCode_failure_overwrites_cache_witness :
  let w' := snd (analyzeCode flat_parse "int x;" "a.cpp" broken_world) in
  fileContentStore w' !! "a.cpp" = Some "int x;"
  /\ ("int x;" <> EmptyString -> getFileContent "a.cpp" w' = (Returned "int x;", w')).
Proof.
  apply (analyzeCode_failure_overwrites_cache flat_parse "int x;" "a.cpp"
           "Failed to initialize code parser. Please ensure all required files are present."
           broken_world).
  vm_compute. reflexivity.
Defined.

(** C10, as stated, fails for an empty file: the cache holds the empty
    text, which [getFileContent] takes for a missing entry, and the caller
    gets the placeholder instead of the submitted text. *)
Lemma getFileContent_counterexample :
  let run := analyzeCode flat_parse EmptyString "a.cpp" broken_world in
  (exists message, fst run = Thrown message)
  /\ fileContentStore (snd run) !! "a.cpp" = Some EmptyString
  /\ fst (getFileContent "a.cpp" (snd run)) = Returned not_available
  /\ fst (getFileContent "a.cpp" (snd run)) <> Returned EmptyString.
Proof.
  cbv zeta. split; [eexists; vm_compute; reflexivity|].
  split; [vm_compute; reflexivity|].
  split; [vm_compute; reflexivity|].
  vm_compute. discriminate.
Qed.

(* --------------------------------------------------------------------- *)
(** ** Determinism *)
(* --------------------------------------------------------------------- *)

Lemma same_findings_app (a1 a2 b1 b2 : list CodeSmell) :
  same_findings a1 a2 -> same_findings b1 b2 -> same_findings (a1 ++ b1) (a2 ++ b2).
Proof. unfold same_findings. intros Ha Hb. by rewrite !map_app, Ha, Hb. Qed.

Lemma id_blind_gret {A : Type} (R : A -> A -> Prop) (a1 a2 : A) :
  R a1 a2 -> id_blind R (gret a1) (gret a2).
Proof. by intros H u1 u2. Qed.

Lemma id_blind_gbind {A B : Type} (R : A -> A -> Prop) (R' : B -> B -> Prop)
  (g1 g2 : Gen A) (f1 f2 : A -> Gen B) :
  id_blind R g1 g2 ->
  (forall a1 a2, R a1 a2 -> id_blind R' (f1 a1) (f2 a2)) ->
  id_blind R' (gbind g1 f1) (gbind g2 f2).
Proof. intros Hg Hf u1 u2. unfold gbind. cbv zeta. apply Hf, Hg. Qed.

Lemma id_blind_push (s1 s2 : list CodeSmell) (mk1 mk2 : string -> CodeSmell) :
  same_findings s1 s2 ->
  (forall i j, erase_id (mk1 i) = erase_id (mk2 j)) ->
  id_blind same_findings (push s1 mk1) (push s2 mk2).
Proof.
  intros Hs Hmk u1 u2. unfold push, gbind, uuidv4, gret, same_findings. simpl.
  rewrite !map_app. simpl. by rewrite Hs, (Hmk _ (uuidSource u2 (uuidDrawn u2))).
Qed.

Lemma id_blind_gfold {A S : Type} (R : S -> S -> Prop) (f : S -> A -> Gen S)
  (l : list A) :
  (forall x s1 s2, R s1 s2 -> id_blind R (f s1 x) (f s2 x)) ->
  forall s1 s2, R s1 s2 -> id_blind R (gfold f s1 l) (gfold f s2 l).
Proof.
  intros Hf. induction l as [|x l IH]; intros s1 s2 Hs.
  - by apply id_blind_gret.
  - simpl. eapply id_blind_gbind; [by apply Hf | exact IH].
Qed.

(** Closes a goal about one round of a detector loop: split on the tests
    of the round, then either a finding is pushed on both sides or the
    findings are handed on. *)
Ltac blind_round :=
  cbv beta zeta;
  repeat match goal with
         | |- id_blind _ (if ?c then _ else _) _ => destruct c
         | |- id_blind _ (match ?c with Some _ => _ | None => _ end) _ => destruct c
         end;
  first [ apply id_blind_push; [assumption | intros; reflexivity]
        | apply id_blind_gret; assumption ].

Lemma detectLongParameterLists_id_blind content fileName :
  id_blind same_findings (detectLongParameterLists content fileName)
    (detectLongParameterLists content fileName).
Proof.
  unfold detectLongParameterLists.
  apply id_blind_gfold; [|reflexivity]. intros m s1 s2 Hs. blind_round.
Qed.

Lemma detectGlobalVariables_id_blind content fileName :
  id_blind same_findings (detectGlobalVariables content fileName)
    (detectGlobalVariables content fileName).
Proof.
  unfold detectGlobalVariables.
  apply id_blind_gfold; [|reflexivity]. intros m s1 s2 Hs. blind_round.
Qed.

Lemma detectPrimitiveObsession_id_blind content fileName :
  id_blind same_findings (detectPrimitiveObsession content fileName)
    (detectPrimitiveObsession content fileName).
Proof.
  unfold detectPrimitiveObsession.
  apply id_blind_gfold; [|reflexivity]. intros m s1 s2 Hs. blind_round.
Qed.

Lemma detectComplexConditions_id_blind content fileName :
  id_blind same_findings (detectComplexConditions content fileName)
    (detectComplexConditions content fileName).
Proof.
  unfold detectComplexConditions.
  apply id_blind_gfold; [|reflexivity]. intros m s1 s2 Hs. blind_round.
Qed.

Lemma detectInappropriateIntimacy_id_blind content fileName :
  id_blind same_findings (detectInappropriateIntimacy content fileName)
    (detectInappropriateIntimacy content fileName).
Proof.
  unfold detectInappropriateIntimacy.
  apply id_blind_gfold; [|reflexivity]. intros m s1 s2 Hs. cbv beta zeta.
  apply id_blind_gfold; [|assumption]. intros [referencedClass count] t1 t2 Ht.
  blind_round.
Qed.

Lemma detectDuplicateCode_id_blind content fileName :
  id_blind same_findings (detectDuplicateCode content fileName)
    (detectDuplicateCode content fileName).
Proof.
  unfold detectDuplicateCode.
  eapply (id_blind_gbind same_duplicate_state).
  - apply id_blind_gfold; [|by split].
    intros m [s1 b1] [s2 b2] [Hs Hb] u1 u2. simpl in Hs, Hb. subst b2.
    rewrite !duplicate_step_eval. cbv zeta.
    destruct (100 <? _); [|by split].
    destruct (b1 !! _); [|by split].
    split; [|reflexivity]. simpl. unfold same_findings in *.
    rewrite !map_app. by rewrite Hs.
  - intros st1 st2 [Hs _]. by apply id_blind_gret.
Qed.

Lemma nesting_open_same i line st1 st2 :
  same_nesting st1 st2 -> same_nesting (nesting_open i line st1) (nesting_open i line st2).
Proof.
  intros (Hc & Hm & Hl & Hs). unfold nesting_open.
  destruct (JsString.includes "{" line); [|done].
  rewrite Hc, Hm, Hl. by destruct (_ <? _)%Z.
Qed.

Lemma nesting_close_id_blind fileName line st1 st2 :
  same_nesting st1 st2 ->
  id_blind same_nesting (nesting_close fileName line st1) (nesting_close fileName line st2).
Proof.
  intros (Hc & Hm & Hl & Hs). unfold nesting_close.
  destruct (JsString.includes "}" line); [|by apply id_blind_gret].
  rewrite Hc, Hm, Hl.
  eapply (id_blind_gbind same_findings).
  - destruct (_ && _).
    + apply id_blind_push; [assumption | intros; reflexivity].
    + by apply id_blind_gret.
  - intros a1 a2 Ha. by apply id_blind_gret.
Qed.

Lemma detectDeepNesting_id_blind content fileName :
  id_blind same_findings (detectDeepNesting content fileName)
    (detectDeepNesting content fileName).
Proof.
  unfold detectDeepNesting. cbv zeta.
  eapply (id_blind_gbind same_nesting).
  - apply id_blind_gfold; [|by repeat split].
    intros [i raw] st1 st2 Hst. unfold nesting_step.
    by apply nesting_close_id_blind, nesting_open_same.
  - intros st1 st2 (_ & _ & _ & Hs). by apply id_blind_gret.
Qed.

Lemma rerun_ret {A : Type} (R : A -> A -> Prop) (a1 a2 : A) :
  R a1 a2 -> rerun R (ret a1) (ret a2).
Proof.
  intros H w1 w2 b1 w1' [= <- <-] Hinit. by exists a2, w2.
Qed.

Lemma rerun_bind {A B : Type} (R : A -> A -> Prop) (R' : B -> B -> Prop)
  (e1 e2 : Eff A) (f1 f2 : A -> Eff B) :
  rerun R e1 e2 ->
  (forall a1 a2, R a1 a2 -> rerun R' (f1 a1) (f2 a2)) ->
  rerun R' (bind e1 f1) (bind e2 f2).
Proof.
  intros He Hf w1 w2 b1 w1' Hrun Hinit. unfold bind in *.
  destruct (e1 w1) as [[a1|msg] v1] eqn:E1; [|discriminate].
  destruct (He w1 w2 a1 v1 E1 Hinit) as (a2 & v2 & -> & Ha & Hinit2).
  exact (Hf a1 a2 Ha v1 v2 b1 w1' Hrun Hinit2).
Qed.

Lemma rerun_lift {A : Type} (R : A -> A -> Prop) (g : Gen A) :
  id_blind R g g -> rerun R (lift g) (lift g).
Proof.
  intros Hg w1 w2 a1 w1' Hrun Hinit. unfold lift in *. cbv zeta in *.
  injection Hrun as <- <-.
  eexists _, _. split; [reflexivity|]. split; [apply Hg | exact Hinit].
Qed.

Lemma rerun_getInstance : rerun (fun _ _ => True) getInstance getInstance.
Proof.
  intros w1 w2 [] w1' _ Hinit. exists tt, w2. unfold getInstance.
  by rewrite Hinit.
Qed.

Lemma rerun_parseCode ts_parse code :
  rerun eq (parseCode ts_parse code) (parseCode ts_parse code).
Proof.
  intros w1 w2 root w1' Hrun Hinit. unfold parseCode in *. rewrite Hinit.
  destruct (parserInitialized w1); [|discriminate].
  destruct (ts_parse code) as [r|]; [|discriminate].
  injection Hrun as <- <-. by exists r, w2.
Qed.

Lemma rerun_Date_now : rerun (fun _ _ => True) Date_now Date_now.
Proof.
  intros w1 w2 t w1' _ Hinit. by exists (clock w2), w2.
Qed.

Lemma rerun_calculateMetrics ts_parse code :
  rerun eq (calculateMetrics ts_parse code) (calculateMetrics ts_parse code).
Proof.
  unfold calculateMetrics.
  eapply rerun_bind; [apply rerun_parseCode|].
  intros r1 r2 <-. by apply rerun_ret.
Qed.

Lemma rerun_detectLongFunctions content fileName ast :
  rerun same_findings (detectLongFunctions content fileName ast)
    (detectLongFunctions content fileName ast).
Proof.
  unfold detectLongFunctions. cbv zeta.
  eapply rerun_bind; [apply rerun_getInstance|].
  intros _ _ _. by apply rerun_ret.
Qed.

Lemma rerun_detectLargeClasses content fileName ast :
  rerun same_findings (detectLargeClasses content fileName ast)
    (detectLargeClasses content fileName ast).
Proof.
  unfold detectLargeClasses. cbv zeta.
  eapply rerun_bind; [apply rerun_getInstance|].
  intros _ _ _. by apply rerun_ret.
Qed.

(** What follows the first [getInstance] in [analyzeCode]. *)
Lemma rerun_analysis ts_parse (content fileName : string) :
  rerun same_analysis
    (doE ast <- parseCode ts_parse content;
     doE metrics <- calculateMetrics ts_parse content;
     doE s1 <- detectLongFunctions content fileName ast;
     doE s2 <- detectLargeClasses content fileName ast;
     doE s3 <- lift (detectLongParameterLists content fileName);
     doE s4 <- lift (detectGlobalVariables content fileName);
     doE s5 <- lift (detectDuplicateCode content fileName);
     doE s6 <- lift (detectPrimitiveObsession content fileName);
     doE s7 <- lift (detectInappropriateIntimacy content fileName);
     doE s8 <- lift (detectComplexConditions content fileName);
     doE s9 <- lift (detectDeepNesting content fileName);
     let smells := s1 ++ s2 ++ s3 ++ s4 ++ s5 ++ s6 ++ s7 ++ s8 ++ s9 in
     doE now <- Date_now;
     ret (AnalysisResult.mk fileName (String.length content) smells (length smells)
            now metrics))
    (doE ast <- parseCode ts_parse content;
     doE metrics <- calculateMetrics ts_parse content;
     doE s1 <- detectLongFunctions content fileName ast;
     doE s2 <- detectLargeClasses content fileName ast;
     doE s3 <- lift (detectLongParameterLists content fileName);
     doE s4 <- lift (detectGlobalVariables content fileName);
     doE s5 <- lift (detectDuplicateCode content fileName);
     doE s6 <- lift (detectPrimitiveObsession content fileName);
     doE s7 <- lift (detectInappropriateIntimacy content fileName);
     doE s8 <- lift (detectComplexConditions content fileName);
     doE s9 <- lift (detectDeepNesting content fileName);
     let smells := s1 ++ s2 ++ s3 ++ s4 ++ s5 ++ s6 ++ s7 ++ s8 ++ s9 in
     doE now <- Date_now;
     ret (AnalysisResult.mk fileName (String.length content) smells (length smells)
            now metrics)).
Proof.
  eapply rerun_bind; [apply rerun_parseCode|]. intros ast ? <-.
  eapply rerun_bind; [apply rerun_calculateMetrics|]. intros metrics ? <-.
  eapply rerun_bind; [apply rerun_detectLongFunctions|]. intros a1 b1 H1.
  eapply rerun_bind; [apply rerun_detectLargeClasses|]. intros a2 b2 H2.
  eapply rerun_bind; [apply rerun_lift, detectLongParameterLists_id_blind|].
  intros a3 b3 H3.
  eapply rerun_bind; [apply rerun_lift, detectGlobalVariables_id_blind|].
  intros a4 b4 H4.
  eapply rerun_bind; [apply rerun_lift, detectDuplicateCode_id_blind|].
  intros a5 b5 H5.
  eapply rerun_bind; [apply rerun_lift, detectPrimitiveObsession_id_blind|].
  intros a6 b6 H6.
  eapply rerun_bind; [apply rerun_lift, detectInappropriateIntimacy_id_blind|].
  intros a7 b7 H7.
  eapply rerun_bind; [apply rerun_lift, detectComplexConditions_id_blind|].
  intros a8 b8 H8.
  eapply rerun_bind; [apply rerun_lift, detectDeepNesting_id_blind|].
  intros a9 b9 H9. cbv zeta.
  eapply rerun_bind; [apply rerun_Date_now|]. intros t1 t2 _.
  apply rerun_ret. split; [|reflexivity]. simpl.
  repeat apply same_findings_app; assumption.
Qed.

(** A run that returned, and a second run on the same pair in any world
    where the parser can be obtained: the second returns too, with the
    same findings, identities aside, and the same metrics. *)
Lemma analyzeCode_rerun
  (ts_parse : string -> option SyntaxNode) (content fileName : string)
  (w1 w1' w2 : World) (r1 : AnalysisResult.t) :
  analyzeCode ts_parse content fileName w1 = (Returned r1, w1') ->
  parser_obtainable w2 ->
  exists r2 w2',
    analyzeCode ts_parse content fileName w2 = (Returned r2, w2')
    /\ map erase_id (AnalysisResult.smells r1) = map erase_id (AnalysisResult.smells r2)
    /\ AnalysisResult.metrics r1 = AnalysisResult.metrics r2.
Proof.
  intros Hrun Hready. unfold analyzeCode in *.
  unfold bind at 1 in Hrun. unfold bind at 1. unfold store_set at 1 in Hrun.
  unfold store_set at 1.
  unfold bind at 1 in Hrun. unfold bind at 1.
  destruct (getInstance _) as [[[]|msg] v1] eqn:E1 in Hrun; [|discriminate].
  match goal with
  | |- context [getInstance ?w0] =>
      assert (Hinst : exists v2, getInstance w0 = (Returned tt, v2)
                                 /\ parserInitialized v2 = true)
  end.
  { unfold getInstance. simpl.
    destruct (parserInitialized w2) eqn:Hi; [by eexists|].
    destruct Hready as [H|H]; [congruence|]. rewrite H. by eexists. }
  destruct Hinst as (v2 & -> & Hinit).
  destruct (rerun_analysis ts_parse content fileName v1 v2 r1 w1' Hrun Hinit)
    as (r2 & w2' & Hrun2 & [Hs Hm] & _).
  by exists r2, w2'.
Qed.

Lemma stays_initialized_ret {A : Type} (a : A) : stays_initialized (ret a).
Proof. by intros w. Qed.

Lemma stays_initialized_bind {A B : Type} (e : Eff A) (f : A -> Eff B) :
  stays_initialized e -> (forall a, stays_initialized (f a)) ->
  stays_initialized (bind e f).
Proof.
  intros He Hf w Hw. unfold bind. specialize (He w Hw).
  destruct (e w) as [[a|msg] w1]; simpl in *; [|done].
  by apply Hf.
Qed.

Lemma stays_initialized_getInstance : stays_initialized getInstance.
Proof. intros w Hw. unfold getInstance. by rewrite Hw. Qed.

Lemma stays_initialized_parseCode ts_parse code :
  stays_initialized (parseCode ts_parse code).
Proof.
  intros w Hw. unfold parseCode. rewrite Hw. by destruct (ts_parse code).
Qed.

Lemma stays_initialized_lift {A : Type} (g : Gen A) : stays_initialized (lift g).
Proof. by intros w. Qed.

Lemma stays_initialized_Date_now : stays_initialized Date_now.
Proof. by intros w. Qed.

Create HintDb parser.

#[local] Hint Resolve stays_initialized_ret stays_initialized_getInstance
  stays_initialized_parseCode stays_initialized_lift stays_initialized_Date_now : parser.

Ltac stays_initialized_steps :=
  repeat (apply stays_initialized_bind; [solve [auto with parser] | intros ?]);
  auto with parser.

Lemma stays_initialized_calculateMetrics ts_parse code :
  stays_initialized (calculateMetrics ts_parse code).
Proof. unfold calculateMetrics. stays_initialized_steps. Qed.

Lemma stays_initialized_detectLongFunctions content fileName ast :
  stays_initialized (detectLongFunctions content fileName ast).
Proof. unfold detectLongFunctions. stays_initialized_steps. Qed.

Lemma stays_initialized_detectLargeClasses content fileName ast :
  stays_initialized (detectLargeClasses content fileName ast).
Proof. unfold detectLargeClasses. stays_initialized_steps. Qed.

#[local] Hint Resolve stays_initialized_calculateMetrics
  stays_initialized_detectLongFunctions stays_initialized_detectLargeClasses : parser.

(** A run that returned leaves the parser initialised. *)
Lemma analyzeCode_initializes ts_parse content fileName w r w' :
  analyzeCode ts_parse content fileName w = (Returned r, w') ->
  parserInitialized w' = true.
Proof.
  unfold analyzeCode. unfold bind at 1. unfold store_set at 1. unfold bind at 1.
  destruct (getInstance _) as [[[]|msg] v] eqn:E; [|discriminate].
  assert (Hv : parserInitialized v = true).
  { unfold getInstance in E. simpl in E.
    destruct (parserInitialized w) eqn:Hi.
    - injection E as <-. reflexivity.
    - destruct (grammarAvailable w); [|discriminate]. by injection E as <-. }
  match goal with
  | |- ?e v = _ -> _ =>
      assert (Hk : stays_initialized e) by stays_initialized_steps;
      intros Hrun; pose proof (Hk v Hv) as H; by rewrite Hrun in H
  end.
Qed.

(** C9.  If [analyzeCode] returns a result for a text and a file name,
    then the world it leaves is one where the parser can be obtained, and
    run again on the same pair, in that world or in any other such world,
    it returns a result with the same findings in the same order
    (identities aside) and the same metrics. *)
Theorem analyzeCode_deterministic
  (ts_parse : string -> option SyntaxNode) (content fileName : string)
  (w1 w1' : World) (r1 : AnalysisResult.t) :
  analyzeCode ts_parse content fileName w1 = (Returned r1, w1') ->
  parser_obtainable w1'
  /\ forall w2 : World,
       parser_obtainable w2 ->
       exists r2 w2',
         analyzeCode ts_parse content fileName w2 = (Returned r2, w2')
         /\ map erase_id (AnalysisResult.smells r1) = map erase_id (AnalysisResult.smells r2)
         /\ AnalysisResult.metrics r1 = AnalysisResult.metrics r2.
Proof.
  intros Hrun. split.
  - left. by eapply analyzeCode_initializes.
  - intros w2 Hready. by eapply analyzeCode_rerun.
Qed.

Lemma analyzeCode_deterministic_witness :
  exists r2 w2',
    analyzeCode flat_parse (two_functions long_body) "a.cpp" (snd first_run)
    = (Returned r2, w2')
    /\ map erase_id (AnalysisResult.smells (analysis_of (fst first_run)))
       = map erase_id (AnalysisResult.smells r2)
    /\ AnalysisResult.metrics (analysis_of (fst first_run)) = AnalysisResult.metrics r2.
Proof.
  destruct (analyzeCode_deterministic flat_parse (two_functions long_body) "a.cpp"
              fresh_world (snd first_run) (analysis_of (fst first_run)))
    as [Hready Hagain].
  - vm_compute. reflexivity.
  - apply Hagain. exact Hready.
Defined.

(* ===================================================================== *)
(** * Further properties *)
(* ===================================================================== *)

(* --------------------------------------------------------------------- *)
(** ** The metrics calculator sees one node *)
(* --------------------------------------------------------------------- *)

(** X1.  [countMethods] is 1 when the node it is given is itself a
    function definition and 0 otherwise; functions below the node are not
    counted, so the count never exceeds 1. *)
Theorem countMethods_at_most_one (node : SyntaxNode) :
  countMethods node <= 1
  /\ (countMethods node = 1 <-> nodeTypeOf node = "function_definition")
  /\ (countMethods node = 0 <-> nodeTypeOf node <> "function_definition").
Proof.
  unfold countMethods. rewrite do_while_walk. unfold nodeType; simpl.
  destruct (String.eqb_spec (nodeTypeOf node) "function_definition") as [E|E].
  - repeat split; intros; (lia || done).
  - repeat split; intros; (lia || done).
Qed.

Lemma countMethods_zero (node : SyntaxNode) :
  nodeTypeOf node <> "function_definition" -> countMethods node = 0.
Proof.
  intros H. unfold countMethods. rewrite do_while_walk. unfold nodeType; simpl.
  by destruct (String.eqb_spec (nodeTypeOf node) "function_definition").
Qed.

(** X2.  [calculateInheritanceDepth] is the length of the chain of
    [base_class] fields of the node it is given when that node is a class
    specifier, and 0 for any other node, whatever classes lie below. *)
Theorem calculateInheritanceDepth_of_node (node : SyntaxNode) :
  calculateInheritanceDepth node
  = if String.eqb (nodeTypeOf node) "class_specifier"
    then base_class_chain node else 0.
Proof.
  unfold calculateInheritanceDepth. rewrite do_while_walk.
  unfold nodeType, currentNode; simpl.
  by destruct (String.eqb (nodeTypeOf node) "class_specifier").
Qed.

(** X3.  [calculateCoupling] never exceeds 1: the only dependency it can
    record is the one read off the node it is given. *)
Theorem calculateCoupling_at_most_one (node : SyntaxNode) :
  calculateCoupling node <= 1
  /\ (JsString.startsWith "std::" (textOf node) = true -> calculateCoupling node = 0).
Proof.
  unfold calculateCoupling. rewrite do_while_walk.
  unfold nodeType, currentNode, walk; cbn [focus].
  destruct (list_includes (nodeTypeOf node)
              ["qualified_identifier"; "field_expression"; "call_expression"]).
  - destruct (JsString.startsWith "std::" (textOf node)).
    + rewrite size_empty. split; [lia | done].
    + rewrite union_empty_r_L, size_singleton. split; [lia | discriminate].
  - rewrite size_empty. split; [lia | done].
Qed.

Lemma calculateCoupling_at_most_one_witness :
  calculateCoupling (mkNode "qualified_identifier" "std::vector" 0 []) = 0.
Proof.
  apply (calculateCoupling_at_most_one (mkNode "qualified_identifier" "std::vector" 0 [])).
  reflexivity.
Defined.

Lemma collect_methods_few (node : SyntaxNode) :
  length (fst (collect_methods node)) < 2.
Proof.
  unfold collect_methods. rewrite do_while_walk.
  unfold collect_step, nodeType. simpl.
  destruct (String.eqb (nodeTypeOf node) "function_definition"); simpl; [lia|].
  destruct (String.eqb (nodeTypeOf node) "field_expression"); simpl; lia.
Qed.

(** X4.  [calculateCohesion] returns 1 for every node: it collects at most
    one method, so no pair of methods is ever compared. *)
Theorem calculateCohesion_always_one (node : SyntaxNode) :
  calculateCohesion node = JsNumber.of_nat 1.
Proof.
  unfold calculateCohesion.
  pose proof (collect_methods_few node) as Hfew.
  destruct (collect_methods node) as [methods fa]; simpl in Hfew.
  by destruct (cohesion_of_bounds methods fa) as (q & _ & _ & _ & H); apply H.
Qed.


(** X5.  For a text whose tree has a [translation_unit] root (every tree
    of the C++ grammar), [calculateMetrics] returns, once the parser is
    initialised, the same metrics whatever the text holds: complexity 1,
    no method, no inheritance, no coupling, cohesion 1.  Only the line
    count depends on the text: one more than its line feeds, so 1 for an
    empty text. *)
Theorem calculateMetrics_of_translation_unit
  (ts_parse : string -> option SyntaxNode) (code : string) (root : SyntaxNode) (w : World) :
  parserInitialized w = true ->
  ts_parse code = Some root ->
  nodeTypeOf root = "translation_unit" ->
  calculateMetrics ts_parse code w
  = (Returned
       (mkMetrics (JsNumber.of_nat 1) (JsNumber.of_nat (S (line_feeds code)))
          (JsNumber.of_nat 0) (JsNumber.of_nat 0) (JsNumber.of_nat 0)
          (JsNumber.of_nat 1)),
     w).
Proof.
  intros Hinit Hparse Hroot.
  unfold calculateMetrics, bind, parseCode, ret. rewrite Hinit, Hparse.
  rewrite calculateCyclomaticComplexity_root_only, lines_length.
  unfold countMethods, calculateInheritanceDepth, calculateCoupling, calculateCohesion,
    collect_methods.
  rewrite !do_while_walk. unfold collect_step, nodeType. simpl.
  rewrite Hroot. reflexivity.
Qed.

Lemma calculateMetrics_of_translation_unit_witness :
  calculateMetrics busy_parse busy_source ready_world
  = (Returned
       (mkMetrics (JsNumber.of_nat 1) (JsNumber.of_nat 9) (JsNumber.of_nat 0)
          (JsNumber.of_nat 0) (JsNumber.of_nat 0) (JsNumber.of_nat 1)),
     ready_world).
Proof.
  apply (calculateMetrics_of_translation_unit busy_parse busy_source busy_unit ready_world);
    reflexivity.
Defined.

(* --------------------------------------------------------------------- *)
(** ** The aggregator on any batch *)
(* --------------------------------------------------------------------- *)

Lemma increment_counts (k t : CodeSmellType) (counts : CodeSmellType -> nat) :
  increment t counts k = counts k + (if bool_decide (t = k) then 1 else 0).
Proof.
  unfold increment. destruct (decide (k = t)) as [->|Hne].
  - rewrite bool_decide_eq_true_2 by done. lia.
  - rewrite bool_decide_eq_false_2 by congruence. lia.
Qed.

Lemma count_smells_of_kind (k : CodeSmellType) (smells : list CodeSmell) :
  forall counts,
    fold_left (fun counts smell => increment (type smell) counts) smells counts k
    = counts k + length (of_kind k smells).
Proof.
  induction smells as [|s smells IH]; intros counts; simpl; [lia|].
  rewrite IH, increment_counts. unfold of_kind in *.
  destruct (bool_decide (type s = k)); simpl; lia.
Qed.

Lemma of_kind_app (k : CodeSmellType) (l1 l2 : list CodeSmell) :
  of_kind k (l1 ++ l2) = of_kind k l1 ++ of_kind k l2.
Proof. apply List.filter_app. Qed.

Lemma fold_tally_fst (k : CodeSmellType) (results : list AnalysisResult.t) :
  forall counts (o : JsObject.t nat),
    fst (fold_left tally results (counts, o)) k
    = counts k + length (of_kind k (all_smells results)).
Proof.
  unfold all_smells.
  induction results as [|r rs IH]; intros counts o; simpl; [lia|].
  rewrite IH, count_smells_of_kind, of_kind_app, length_app. lia.
Qed.

Lemma calculateStats_smellsByType (results : list AnalysisResult.t) :
  AnalysisStats.smellsByType (calculateStats results)
  = fst (fold_left tally results (fun _ => 0, JsObject.empty)).
Proof.
  unfold calculateStats.
  by destruct (fold_left tally results (fun _ => 0, JsObject.empty)).
Qed.

(** X6.  For every batch and every smell kind, [smellsByType] holds the
    number of findings of that kind listed in the results; a kind that no
    file shows is counted 0. *)
Theorem smellsByType_counts_kind (results : list AnalysisResult.t) (k : CodeSmellType) :
  AnalysisStats.smellsByType (calculateStats results) k
  = length (of_kind k (all_smells results)).
Proof. rewrite calculateStats_smellsByType. by rewrite fold_tally_fst. Qed.

Lemma kinds_partition (l : list CodeSmell) :
  sum_list (map (fun k => length (of_kind k l)) all_kinds) = length l.
Proof.
  induction l as [|s l IH]; [reflexivity|].
  simpl length. rewrite <- IH. unfold all_kinds, of_kind, sum_list. simpl.
  destruct (type s); simpl; lia.
Qed.

Lemma total_of_lengths (results : list AnalysisResult.t) :
  Forall (fun r => AnalysisResult.totalSmells r = length (AnalysisResult.smells r)) results ->
  forall acc,
    fold_left (fun sum r => sum + AnalysisResult.totalSmells r) results acc
    = acc + length (all_smells results).
Proof.
  unfold all_smells.
  induction 1 as [|r rs Hr _ IH]; intros acc; simpl; [lia|].
  rewrite IH, length_app, Hr. lia.
Qed.

(** X7.  When every result carries the length of its own list of findings
    as [totalSmells] (as every result of [analyzeCode] does), the counts
    per smell kind add up to [totalSmells], whatever the file names. *)
Theorem smellsByType_sums_to_total (results : list AnalysisResult.t) :
  Forall (fun r => AnalysisResult.totalSmells r = length (AnalysisResult.smells r)) results ->
  sum_list (map (AnalysisStats.smellsByType (calculateStats results)) all_kinds)
  = AnalysisStats.totalSmells (calculateStats results).
Proof.
  intros H.
  rewrite calculateStats_totalSmells, (total_of_lengths results H), Nat.add_0_l.
  rewrite <- (kinds_partition (all_smells results)).
  f_equal. apply map_ext. intros k. intros. rewrite calculateStats_smellsByType. by rewrite fold_tally_fst.
Qed.

Lemma smellsByType_sums_to_total_witness :
  sum_list (map (AnalysisStats.smellsByType (calculateStats same_name_twice)) all_kinds)
  = AnalysisStats.totalSmells (calculateStats same_name_twice).
Proof.
  apply (smellsByType_sums_to_total same_name_twice).
  repeat constructor.
Defined.

(** X8.  For every batch, [worstFiles] is the first five entries of the
    stable descending sort of the entries of [smellsByFile]: it has at
    most five entries and its counts never increase. *)
Theorem worstFiles_of_smellsByFile (results : list AnalysisResult.t) :
  length (AnalysisStats.worstFiles (calculateStats results)) <= 5
  /\ descending (AnalysisStats.worstFiles (calculateStats results))
  /\ exists sorted : list WorstFile.t,
       stable_descending_sort_of
         (file_counts (AnalysisStats.smellsByFile (calculateStats results))) sorted
       /\ AnalysisStats.worstFiles (calculateStats results) = take 5 sorted.
Proof.
  rewrite calculateStats_worstFiles, calculateStats_smellsByFile.
  fold (file_counts (fold_left record_file results JsObject.empty)).
  set (counts := file_counts _).
  split; [rewrite length_take; lia|].
  split.
  - pose proof (js_sort_descending counts) as Hs. unfold descending in *.
    revert Hs. generalize (js_sort by_smellCount_desc counts). intros l Hs.
    generalize 5. induction Hs as [|a l Hl IH Ha]; intros n.
    + rewrite take_nil. constructor.
    + destruct n as [|n]; simpl; [constructor|].
      constructor; [apply IH|].
      rewrite Forall_forall in *. intros x Hx. apply Ha.
      eapply subseteq_take, Hx.
  - exists (js_sort by_smellCount_desc counts).
    split; [apply js_sort_stable_descending | reflexivity].
Qed.

Lemma JsMap_get_set_eq {V : Type} (k : string) (v : V) (m : JsMap.t V) :
  JsMap.get k (JsMap.set k v m) = Some v.
Proof.
  induction m as [|[k' v'] m IH]; simpl.
  - by rewrite String.eqb_refl.
  - destruct (String.eqb_spec k' k) as [->|Hne]; simpl.
    + by rewrite String.eqb_refl.
    + by destruct (String.eqb_spec k' k).
Qed.

Lemma JsMap_get_set_ne {V : Type} (k k' : string) (v : V) (m : JsMap.t V) :
  k <> k' -> JsMap.get k' (JsMap.set k v m) = JsMap.get k' m.
Proof.
  intros Hne. induction m as [|[k0 v0] m IH]; simpl.
  - by destruct (String.eqb_spec k k').
  - destruct (String.eqb_spec k0 k) as [->|H0]; simpl.
    + by destruct (String.eqb_spec k k').
    + by rewrite IH.
Qed.

Lemma record_file_other (o : JsObject.t nat) (r : AnalysisResult.t) (k : string) :
  AnalysisResult.fileName r <> k ->
  JsMap.get k (record_file o r) = JsMap.get k o.
Proof.
  intros Hne. unfold record_file, JsObject.assign.
  destruct (String.eqb _ JsObject.proto_key); [done|].
  by apply JsMap_get_set_ne.
Qed.

Lemma record_files_other (results : list AnalysisResult.t) (k : string) :
  forall o : JsObject.t nat,
    k ∉ map AnalysisResult.fileName results ->
    JsMap.get k (fold_left record_file results o) = JsMap.get k o.
Proof.
  induction results as [|r rs IH]; intros o Hk; simpl; [done|].
  simpl in Hk. apply not_elem_of_cons in Hk as [Hne Hk].
  rewrite IH by done. by apply record_file_other.
Qed.

(** X9.  The last result of a name decides its entry: when no later
    result has the file name of [r] (and the name is not [__proto__]),
    [smellsByFile] holds the [totalSmells] of [r] under that name,
    whatever earlier results said; and a name that no result has is
    absent. *)
Theorem smellsByFile_last_result_wins
  (before after : list AnalysisResult.t) (r : AnalysisResult.t) :
  AnalysisResult.fileName r ∉ map AnalysisResult.fileName after ->
  AnalysisResult.fileName r <> JsObject.proto_key ->
  JsMap.get (AnalysisResult.fileName r)
    (AnalysisStats.smellsByFile (calculateStats (before ++ r :: after)))
  = Some (AnalysisResult.totalSmells r)
  /\ forall k, k ∉ map AnalysisResult.fileName (before ++ r :: after) ->
               JsMap.get k (AnalysisStats.smellsByFile (calculateStats (before ++ r :: after)))
               = None.
Proof.
  intros Hlast Hproto. rewrite calculateStats_smellsByFile. split.
  - rewrite fold_left_app. simpl.
    rewrite record_files_other by done.
    unfold record_file at 1, JsObject.assign.
    destruct (String.eqb_spec (AnalysisResult.fileName r) JsObject.proto_key); [done|].
    apply JsMap_get_set_eq.
  - intros k Hk. by rewrite record_files_other.
Qed.

Lemma smellsByFile_last_result_wins_witness :
  JsMap.get "a.cpp"
    (AnalysisStats.smellsByFile
       (calculateStats ([result_with "a.cpp" 1; result_with "b.cpp" 5]
                          ++ result_with "a.cpp" 3 :: [result_with "c.cpp" 2])))
  = Some 3.
Proof.
  apply (smellsByFile_last_result_wins
           [result_with "a.cpp" 1; result_with "b.cpp" 5] [result_with "c.cpp" 2]
           (result_with "a.cpp" 3)).
  - apply (bool_decide_unpack _). vm_compute. exact I.
  - discriminate.
Defined.

(* --------------------------------------------------------------------- *)
(** ** The orchestrator *)
(* --------------------------------------------------------------------- *)

Lemma bind_lift {A B : Type} (g : Gen A) (f : A -> Eff B) (w : World) :
  bind (lift g) f w
  = f (fst (g (uuids w)))
      (mkWorld (fileContentStore w) (parserInitialized w) (grammarAvailable w)
         (snd (g (uuids w))) (clock w)).
Proof. reflexivity. Qed.

(** What [analyzeCode] does in a world whose parser is initialised, once
    the text is in the cache. *)
Lemma analysis_initialized ts_parse (content fileName : string) (w : World) :
  parserInitialized w = true ->
  (doE ast <- parseCode ts_parse content;
   doE metrics <- calculateMetrics ts_parse content;
   doE s1 <- detectLongFunctions content fileName ast;
   doE s2 <- detectLargeClasses content fileName ast;
   doE s3 <- lift (detectLongParameterLists content fileName);
   doE s4 <- lift (detectGlobalVariables content fileName);
   doE s5 <- lift (detectDuplicateCode content fileName);
   doE s6 <- lift (detectPrimitiveObsession content fileName);
   doE s7 <- lift (detectInappropriateIntimacy content fileName);
   doE s8 <- lift (detectComplexConditions content fileName);
   doE s9 <- lift (detectDeepNesting content fileName);
   let smells := s1 ++ s2 ++ s3 ++ s4 ++ s5 ++ s6 ++ s7 ++ s8 ++ s9 in
   doE now <- Date_now;
   ret (AnalysisResult.mk fileName (String.length content) smells (length smells)
          now metrics)) w
  = match ts_parse content with
    | Some root =>
        let found := lexical_findings content fileName (uuids w) in
        (Returned
           (AnalysisResult.mk fileName (String.length content) (fst found)
              (length (fst found)) (clock w) (metrics_of root content)),
         mkWorld (fileContentStore w) true (grammarAvailable w) (snd found) (clock w))
    | None => (Thrown "parse failed", w)
    end.
Proof.
  intros Hinit. destruct w as [store init gram u t]. simpl in Hinit. subst init.
  unfold bind at 1. unfold parseCode at 1. cbn [parserInitialized].
  destruct (ts_parse content) as [root|] eqn:Hparse; [|reflexivity].
  unfold bind at 1. unfold calculateMetrics, bind at 1, parseCode, ret at 1.
  cbn [parserInitialized]. rewrite Hparse.
  unfold bind at 1. unfold detectLongFunctions, bind at 1, getInstance at 1, ret at 1.
  cbn [parserInitialized].
  unfold bind at 1. unfold detectLargeClasses, bind at 1, getInstance at 1, ret at 1.
  cbn [parserInitialized].
  rewrite !bind_lift. cbn [uuids fileContentStore parserInitialized grammarAvailable clock].
  reflexivity.
Qed.

(** The outcome of [analyzeCode], case by case. *)
Lemma analyzeCode_outcome ts_parse (content fileName : string) (w : World) :
  analyzeCode ts_parse content fileName w
  = let store := <[fileName := content]> (fileContentStore w) in
    if parserInitialized w || grammarAvailable w then
      match ts_parse content with
      | Some root =>
          let found := lexical_findings content fileName (uuids w) in
          (Returned
             (AnalysisResult.mk fileName (String.length content) (fst found)
                (length (fst found)) (clock w) (metrics_of root content)),
           mkWorld store true (grammarAvailable w) (snd found) (clock w))
      | None =>
          (Thrown "parse failed",
           mkWorld store true (grammarAvailable w) (uuids w) (clock w))
      end
    else
      (Thrown "Failed to initialize code parser. Please ensure all required files are present.",
       mkWorld store false false (uuids w) (clock w)).
Proof.
  unfold analyzeCode. unfold bind at 1. unfold store_set at 1.
  unfold bind at 1. unfold getInstance at 1. cbn [parserInitialized grammarAvailable].
  destruct (parserInitialized w) eqn:Hi; cbn [orb].
  - rewrite analysis_initialized by done.
    cbn [uuids fileContentStore parserInitialized grammarAvailable clock].
    destruct (ts_parse content); reflexivity.
  - destruct (grammarAvailable w) eqn:Hg; [|reflexivity].
    rewrite analysis_initialized by done.
    cbn [uuids fileContentStore parserInitialized grammarAvailable clock].
    destruct (ts_parse content); reflexivity.
Qed.

(** X12.  [analyzeCode] returns a result exactly when the parser can be
    obtained and the text parses.  A returned result
    carries the file name it was given, the length of the text as size,
    the number of its findings as [totalSmells], and no LongFunction or
    LargeClass finding comes from the tree: the findings are those of the
    seven lexical detectors. *)
Theorem analyzeCode_returns_iff
  (ts_parse : string -> option SyntaxNode) (content fileName : string) (w : World) :
  ((exists r w', analyzeCode ts_parse content fileName w = (Returned r, w'))
   <-> parser_obtainable w /\ is_Some (ts_parse content))
  /\ forall r w',
       analyzeCode ts_parse content fileName w = (Returned r, w') ->
       AnalysisResult.fileName r = fileName
       /\ AnalysisResult.fileSize r = String.length content
       /\ AnalysisResult.totalSmells r = length (AnalysisResult.smells r)
       /\ AnalysisResult.smells r = fst (lexical_findings content fileName (uuids w)).
Proof.
  rewrite analyzeCode_outcome. cbv zeta. unfold parser_obtainable.
  destruct (parserInitialized w) eqn:Hi; cbn [orb].
  - destruct (ts_parse content) as [root|].
    + split; [|by intros r w' [= <- _]].
      split; [intros _; split; [by left | by eexists] | intros _; by eexists _, _].
    + split; [|discriminate].
      split; [by intros (r & w' & H) | by intros [_ [x H]]].
  - destruct (grammarAvailable w) eqn:Hg.
    + destruct (ts_parse content) as [root|].
      * split; [|by intros r w' [= <- _]].
        split; [intros _; split; [by right | by eexists] | intros _; by eexists _, _].
      * split; [|discriminate].
        split; [by intros (r & w' & H) | by intros [_ [x H]]].
    + split; [|discriminate].
      split; [by intros (r & w' & H) | intros [[H|H] _]; discriminate].
Qed.

Lemma analyzeCode_returns_iff_witness :
  AnalysisResult.fileName (analysis_of (fst first_run)) = "a.cpp"
  /\ AnalysisResult.fileSize (analysis_of (fst first_run))
     = String.length (two_functions long_body)
  /\ AnalysisResult.totalSmells (analysis_of (fst first_run))
     = length (AnalysisResult.smells (analysis_of (fst first_run)))
  /\ AnalysisResult.smells (analysis_of (fst first_run))
     = fst (lexical_findings (two_functions long_body) "a.cpp" (uuids fresh_world)).
Proof.
  destruct (analyzeCode_returns_iff flat_parse (two_functions long_body) "a.cpp" fresh_world)
    as [_ Hfields].
  apply (Hfields (analysis_of (fst first_run)) (snd first_run)).
  vm_compute. reflexivity.
Defined.

(** X13.  Whether it returns or throws, [analyzeCode] changes the content
    cache at its own file name only: what [getFileContent] gives for any
    other name is what it gave before. *)
Theorem analyzeCode_cache_frame
  (ts_parse : string -> option SyntaxNode) (content fileName other : string) (w : World) :
  other <> fileName ->
  fst (getFileContent other (snd (analyzeCode ts_parse content fileName w)))
  = fst (getFileContent other w).
Proof.
  intros Hne. unfold getFileContent, bind, store_get, ret. cbn [fst snd].
  rewrite analyzeCode_store, lookup_insert_ne by done. reflexivity.
Qed.

Lemma analyzeCode_cache_frame_witness :
  fst (getFileContent "b.cpp" (snd (analyzeCode flat_parse "int x;" "a.cpp" broken_world)))
  = fst (getFileContent "b.cpp" broken_world).
Proof.
  apply (analyzeCode_cache_frame flat_parse "int x;" "a.cpp" "b.cpp" broken_world).
  discriminate.
Defined.

(** X14.  [getFileContent] never throws and changes nothing; for a name
    that was never analysed it gives the placeholder, and after an
    analysis of a text that is not empty, returned or thrown, it gives
    that text back. *)
Theorem getFileContent_total
  (ts_parse : string -> option SyntaxNode) (content fileName : string) (w : World) :
  (exists text, getFileContent fileName w = (Returned text, w))
  /\ (fileContentStore w !! fileName = None ->
      getFileContent fileName w = (Returned not_available, w))
  /\ (content <> EmptyString ->
      fst (getFileContent fileName (snd (analyzeCode ts_parse content fileName w)))
      = Returned content).
Proof.
  unfold getFileContent, bind, store_get, ret. repeat split.
  - by eexists.
  - by intros ->.
  - intros Hne. cbn [fst snd]. rewrite analyzeCode_store, lookup_insert_eq.
    by rewrite or_else_nonempty.
Qed.

Lemma getFileContent_total_witness :
  getFileContent "a.cpp" fresh_world = (Returned not_available, fresh_world)
  /\ fst (getFileContent "a.cpp" (snd (analyzeCode flat_parse "int x;" "a.cpp" fresh_world)))
     = Returned "int x;".
Proof.
  destruct (getFileContent_total flat_parse "int x;" "a.cpp" fresh_world)
    as (_ & Hmissing & Hback).
  split; [apply Hmissing; reflexivity | apply Hback; discriminate].
Defined.

(* --------------------------------------------------------------------- *)
(** ** What every finding looks like *)
(* --------------------------------------------------------------------- *)

(** An invariant of the loop state and the generator, kept by every round
    on an element that satisfies [Q], holds after the loop. *)
Lemma gfold_invariant {A S : Type} (I : S -> UuidGen -> Prop) (Q : A -> Prop)
  (f : S -> A -> Gen S) (l : list A) :
  (forall x s u, Q x -> I s u -> I (fst (f s x u)) (snd (f s x u))) ->
  Forall Q l ->
  forall s u, I s u -> I (fst (gfold f s l u)) (snd (gfold f s l u)).
Proof.
  intros Hf Hl. induction Hl as [|x l Hx _ IH]; intros s u Hs; [exact Hs|].
  rewrite gfold_cons. apply IH. by apply Hf.
Qed.

Lemma Forall_True {A : Type} (l : list A) : Forall (fun _ => True) l.
Proof. by induction l; constructor. Qed.

Lemma push_result (smells : list CodeSmell) (mk : string -> CodeSmell) (u : UuidGen) :
  push smells mk u
  = (smells ++ [mk (uuidSource u (uuidDrawn u))],
     mkUuidGen (uuidSource u) (S (uuidDrawn u))).
Proof. reflexivity. Qed.

Lemma line_feeds_prefix (s : string) :
  forall n, line_feeds (JsString.substring0 n s) <= line_feeds s.
Proof.
  unfold line_feeds, JsString.count_char, JsString.chars.
  induction s as [|c s IH]; intros [|n]; simpl; try lia.
  specialize (IH n).
  destruct (decide (Ascii.eqb c JsString.newline = true)) as [E|E].
  - rewrite !filter_cons_True by done. simpl. lia.
  - rewrite !filter_cons_False by done. lia.
Qed.

(** The line of an offset lies in the text, whatever the offset. *)
Lemma line_of_range (content : string) (index : nat) :
  1 <= JsString.line_of content index <= length (JsString.lines content).
Proof.
  unfold JsString.line_of. rewrite !lines_length.
  pose proof (line_feeds_prefix content index). lia.
Qed.

Lemma Forall_snoc {A : Type} (P : A -> Prop) (l : list A) (x : A) :
  Forall P l -> P x -> Forall P (l ++ [x]).
Proof. intros Hl Hx. apply Forall_app. split; [done | by constructor]. Qed.

(** Builds the well-formedness of a finding just pushed. *)
Ltac well_formed_finding :=
  unfold well_formed, severity_allowed; cbn [fileName lineNumber type severity
    endLineNumber metrics];
  repeat split;
  first [ apply line_of_range
        | reflexivity
        | done
        | repeat match goal with
                 | |- context [if ?c then _ else _] => destruct c
                 end; discriminate ].

(** One round of a detector loop whose state is the list of findings. *)
Ltac well_formed_round :=
  cbv beta zeta;
  repeat match goal with
         | |- Forall _ (fst ((if ?c then _ else _) _)) => destruct c
         end;
  first [ assumption
        | rewrite push_result; cbn [fst]; apply Forall_snoc;
          [assumption | well_formed_finding] ].

Lemma detectLongParameterLists_well_formed content file u :
  Forall (well_formed content file) (fst (detectLongParameterLists content file u)).
Proof.
  unfold detectLongParameterLists.
  apply (gfold_invariant (fun s _ => Forall (well_formed content file) s)
           (fun _ => True)); [| apply Forall_True | constructor].
  intros m s v _ Hs. well_formed_round.
Qed.

Lemma detectGlobalVariables_well_formed content file u :
  Forall (well_formed content file) (fst (detectGlobalVariables content file u)).
Proof.
  unfold detectGlobalVariables.
  apply (gfold_invariant (fun s _ => Forall (well_formed content file) s)
           (fun _ => True)); [| apply Forall_True | constructor].
  intros m s v _ Hs. well_formed_round.
Qed.

Lemma detectPrimitiveObsession_well_formed content file u :
  Forall (well_formed content file) (fst (detectPrimitiveObsession content file u)).
Proof.
  unfold detectPrimitiveObsession.
  apply (gfold_invariant (fun s _ => Forall (well_formed content file) s)
           (fun _ => True)); [| apply Forall_True | constructor].
  intros m s v _ Hs. well_formed_round.
Qed.

Lemma detectComplexConditions_well_formed content file u :
  Forall (well_formed content file) (fst (detectComplexConditions content file u)).
Proof.
  unfold detectComplexConditions.
  apply (gfold_invariant (fun s _ => Forall (well_formed content file) s)
           (fun _ => True)); [| apply Forall_True | constructor].
  intros m s v _ Hs. well_formed_round.
Qed.

Lemma detectInappropriateIntimacy_well_formed content file u :
  Forall (well_formed content file) (fst (detectInappropriateIntimacy content file u)).
Proof.
  unfold detectInappropriateIntimacy.
  apply (gfold_invariant (fun s _ => Forall (well_formed content file) s)
           (fun _ => True)); [| apply Forall_True | constructor].
  intros m s v _ Hs. cbv beta zeta.
  apply (gfold_invariant (fun s _ => Forall (well_formed content file) s)
           (fun _ => True)); [| apply Forall_True | exact Hs].
  intros [referencedClass count] s' v' _ Hs'. well_formed_round.
Qed.

Lemma detectDuplicateCode_well_formed content file u :
  Forall (well_formed content file) (fst (detectDuplicateCode content file u)).
Proof.
  unfold detectDuplicateCode, gbind, gret. cbv zeta. cbn [fst].
  apply (gfold_invariant (fun st _ => Forall (well_formed content file) (fst st))
           (fun _ => True)); [| apply Forall_True | constructor].
  intros m [s b] v _ Hs. rewrite duplicate_step_eval. cbv zeta. cbn [fst] in Hs.
  destruct (100 <? _); [|exact Hs].
  destruct (b !! _); [|exact Hs].
  cbn [fst]. apply Forall_snoc; [exact Hs | well_formed_finding].
Qed.

Lemma indexed_bounds {A : Type} (l : list A) :
  forall a, Forall (fun il => a <= fst il < a + length l) (combine (seq a (length l)) l).
Proof.
  induction l as [|x l IH]; intros a; simpl; constructor.
  - simpl. lia.
  - eapply Forall_impl; [apply (IH (S a))|]. simpl. intros il H. lia.
Qed.

Lemma detectDeepNesting_well_formed content file u :
  Forall (well_formed content file) (fst (detectDeepNesting content file u)).
Proof.
  unfold detectDeepNesting, gbind, gret. cbv zeta. cbn [fst].
  set (total := length (JsString.lines content)).
  apply (gfold_invariant
           (fun st _ =>
              Forall (well_formed content file) (nestingSmells st)
              /\ ((0 < maxNestingLevel st)%Z -> 1 <= nestingStartLine st <= total))
           (fun il => fst il < total)).
  - intros [i raw] st v Hi [Hs Hstart]. cbn [fst] in Hi.
    unfold nesting_step.
    assert (Hopen :
      Forall (well_formed content file)
        (nestingSmells (nesting_open i (JsString.trim raw) st))
      /\ ((0 < maxNestingLevel (nesting_open i (JsString.trim raw) st))%Z ->
          1 <= nestingStartLine (nesting_open i (JsString.trim raw) st) <= total)).
    { unfold nesting_open. destruct (JsString.includes "{" _); [|done].
      destruct (_ <? _)%Z; simpl; [split; [done | lia] | done]. }
    revert Hopen. generalize (nesting_open i (JsString.trim raw) st).
    intros st1 [Hs1 Hstart1]. unfold nesting_close.
    destruct (JsString.includes "}" _); [|done].
    unfold gbind, gret. cbv zeta. cbn [fst snd nestingSmells maxNestingLevel nestingStartLine].
    split.
    + destruct (_ && _) eqn:Hemit; [|exact Hs1].
      apply andb_true_iff in Hemit as [_ Hdeep]. apply Z.ltb_lt in Hdeep.
      rewrite push_result. cbn [fst]. apply Forall_snoc; [exact Hs1|].
      unfold well_formed, deepNesting_smell, severity_allowed.
      cbn [fileName lineNumber type severity endLineNumber metrics].
      repeat split; try (apply Hstart1; lia).
      by destruct (4 <? _)%Z.
    + destruct (_ =? 0)%Z; [lia | exact Hstart1].
  - unfold indexed. eapply Forall_impl; [apply (indexed_bounds _ 0)|].
    simpl. intros il H. unfold total. lia.
  - split; [constructor | simpl; lia].
Qed.

Lemma lexical_findings_well_formed content file u :
  Forall (well_formed content file) (fst (lexical_findings content file u)).
Proof.
  unfold lexical_findings, gbind, gret. cbv zeta. cbn [fst].
  repeat (apply Forall_app; split);
    first [ apply detectLongParameterLists_well_formed
          | apply detectGlobalVariables_well_formed
          | apply detectDuplicateCode_well_formed
          | apply detectPrimitiveObsession_well_formed
          | apply detectInappropriateIntimacy_well_formed
          | apply detectComplexConditions_well_formed
          | apply detectDeepNesting_well_formed ].
Qed.

(** X15.  Every finding of a returned analysis names the analysed file,
    lies on a line of the text (between 1 and the number of lines), has
    neither end line nor metrics, and has a severity its kind allows:
    medium for global variables and primitive obsession, high for
    duplicate code, never low for complex conditions, intimacy and deep
    nesting; and it is never a LongFunction or LargeClass finding. *)
Theorem analyzeCode_findings_well_formed
  (ts_parse : string -> option SyntaxNode) (content file : string)
  (w w' : World) (r : AnalysisResult.t) :
  analyzeCode ts_parse content file w = (Returned r, w') ->
  Forall (well_formed content file) (AnalysisResult.smells r).
Proof.
  rewrite analyzeCode_outcome. cbv zeta.
  destruct (_ || _); [|discriminate].
  destruct (ts_parse content); [|discriminate].
  intros [= <- _]. apply lexical_findings_well_formed.
Qed.

Lemma analyzeCode_findings_well_formed_witness :
  Forall (well_formed (two_functions long_body) "a.cpp")
    (AnalysisResult.smells (analysis_of (fst first_run))).
Proof.
  apply (analyzeCode_findings_well_formed flat_parse (two_functions long_body) "a.cpp"
           fresh_world (snd first_run)).
  vm_compute. reflexivity.
Defined.

(* --------------------------------------------------------------------- *)
(** ** Identifiers *)
(* --------------------------------------------------------------------- *)

Lemma ids_drawn_refl (u : UuidGen) : ids_drawn u u = [].
Proof. unfold ids_drawn. by rewrite Nat.sub_diag. Qed.

Lemma ids_drawn_trans (u0 u1 u2 : UuidGen) :
  uuidSource u1 = uuidSource u0 ->
  uuidDrawn u0 <= uuidDrawn u1 -> uuidDrawn u1 <= uuidDrawn u2 ->
  ids_drawn u0 u1 ++ ids_drawn u1 u2 = ids_drawn u0 u2.
Proof.
  intros Hsrc H01 H12. unfold ids_drawn. rewrite Hsrc, <- map_app. f_equal.
  replace (uuidDrawn u2 - uuidDrawn u0)
    with ((uuidDrawn u1 - uuidDrawn u0) + (uuidDrawn u2 - uuidDrawn u1)) by lia.
  rewrite seq_app. do 2 f_equal. lia.
Qed.

Lemma ids_drawn_one (u : UuidGen) :
  ids_drawn u (mkUuidGen (uuidSource u) (S (uuidDrawn u))) = [uuidSource u (uuidDrawn u)].
Proof.
  unfold ids_drawn. simpl.
  replace (S (uuidDrawn u) - uuidDrawn u) with 1 by lia. reflexivity.
Qed.

Lemma ids_follow_snoc u0 smells (x : CodeSmell) u :
  id x = uuidSource u (uuidDrawn u) ->
  ids_follow u0 smells u ->
  ids_follow u0 (smells ++ [x]) (mkUuidGen (uuidSource u) (S (uuidDrawn u))).
Proof.
  intros Hx (Hsrc & Hle & Hids).
  unfold ids_follow. cbn [uuidSource uuidDrawn]. repeat split; [done | lia |].
  rewrite map_app, Hids. cbn [map]. rewrite Hx.
  rewrite <- (ids_drawn_trans u0 u (mkUuidGen (uuidSource u) (S (uuidDrawn u))));
    [|done | done | simpl; lia].
  by rewrite ids_drawn_one.
Qed.

Lemma ids_follow_push u0 smells mk u :
  (forall i, id (mk i) = i) ->
  ids_follow u0 smells u ->
  ids_follow u0 (fst (push smells mk u)) (snd (push smells mk u)).
Proof.
  intros Hmk Hs. rewrite push_result. cbn [fst snd].
  apply ids_follow_snoc; [apply Hmk | exact Hs].
Qed.

Ltac ids_round :=
  cbv beta zeta;
  repeat match goal with
         | |- ids_follow _ (fst ((if ?c then _ else _) _)) _ => destruct c
         end;
  first [ assumption
        | apply ids_follow_push; [intros; reflexivity | assumption] ].

Lemma ids_follow_start (u : UuidGen) : ids_follow u [] u.
Proof. unfold ids_follow. by rewrite ids_drawn_refl. Qed.

Lemma fresh_ids_of_loop {A : Type} (f : list CodeSmell -> A -> Gen (list CodeSmell))
  (l : list A) :
  (forall u0 x s u, ids_follow u0 s u ->
                    ids_follow u0 (fst (f s x u)) (snd (f s x u))) ->
  fresh_ids (gfold f [] l).
Proof.
  intros Hf u.
  apply (gfold_invariant (fun s v => ids_follow u s v) (fun _ => True));
    [intros; by apply Hf | apply Forall_True | apply ids_follow_start].
Qed.

Lemma detectLongParameterLists_fresh_ids content file :
  fresh_ids (detectLongParameterLists content file).
Proof. apply fresh_ids_of_loop. intros u0 m s u Hs. ids_round. Qed.

Lemma detectGlobalVariables_fresh_ids content file :
  fresh_ids (detectGlobalVariables content file).
Proof. apply fresh_ids_of_loop. intros u0 m s u Hs. ids_round. Qed.

Lemma detectPrimitiveObsession_fresh_ids content file :
  fresh_ids (detectPrimitiveObsession content file).
Proof. apply fresh_ids_of_loop. intros u0 m s u Hs. ids_round. Qed.

Lemma detectComplexConditions_fresh_ids content file :
  fresh_ids (detectComplexConditions content file).
Proof. apply fresh_ids_of_loop. intros u0 m s u Hs. ids_round. Qed.

Lemma detectInappropriateIntimacy_fresh_ids content file :
  fresh_ids (detectInappropriateIntimacy content file).
Proof.
  apply fresh_ids_of_loop. intros u0 m s u Hs. cbv beta zeta.
  apply (gfold_invariant (fun s v => ids_follow u0 s v) (fun _ => True));
    [| apply Forall_True | exact Hs].
  intros [referencedClass count] s' v' _ Hs'. ids_round.
Qed.

Lemma detectDuplicateCode_fresh_ids content file :
  fresh_ids (detectDuplicateCode content file).
Proof.
  intros u. unfold detectDuplicateCode, gbind, gret. cbv zeta. cbn [fst snd].
  apply (gfold_invariant (fun st v => ids_follow u (fst st) v) (fun _ => True));
    [| apply Forall_True | apply ids_follow_start].
  intros m [s b] v _ Hs. rewrite duplicate_step_eval. cbv zeta. cbn [fst] in Hs.
  destruct (100 <? _); [|exact Hs].
  destruct (b !! _); [|exact Hs].
  cbn [fst snd].
  apply ids_follow_snoc; [reflexivity | exact Hs].
Qed.

Lemma detectDeepNesting_fresh_ids content file :
  fresh_ids (detectDeepNesting content file).
Proof.
  intros u. unfold detectDeepNesting, gbind, gret. cbv zeta. cbn [fst snd].
  apply (gfold_invariant (fun st v => ids_follow u (nestingSmells st) v) (fun _ => True));
    [| apply Forall_True | apply ids_follow_start].
  intros [i raw] st v _ Hs. unfold nesting_step.
  assert (Hopen : ids_follow u (nestingSmells (nesting_open i (JsString.trim raw) st)) v).
  { unfold nesting_open. destruct (JsString.includes "{" _); [|done].
    by destruct (_ <? _)%Z. }
  revert Hopen. generalize (nesting_open i (JsString.trim raw) st). intros st1 Hs1.
  unfold nesting_close. destruct (JsString.includes "}" _); [|done].
  unfold gbind, gret. cbv zeta. cbn [fst snd nestingSmells].
  destruct (_ && _); [|exact Hs1].
  apply ids_follow_push; [intros; reflexivity | exact Hs1].
Qed.

Lemma fresh_ids_then (g : Gen (list CodeSmell)) (u0 u : UuidGen) (found : list CodeSmell) :
  fresh_ids g ->
  ids_follow u0 found u ->
  ids_follow u0 (found ++ fst (g u)) (snd (g u)).
Proof.
  intros Hg (Hsrc & Hle & Hids). destruct (Hg u) as (Hsrc' & Hle' & Hids').
  unfold ids_follow. repeat split; [congruence | lia |].
  rewrite map_app, Hids, Hids'. by apply ids_drawn_trans.
Qed.

Lemma lexical_findings_fresh_ids content file : fresh_ids (lexical_findings content file).
Proof.
  intros u. unfold lexical_findings, gbind, gret. cbv zeta. cbn [fst snd].
  rewrite !app_assoc.
  repeat (apply fresh_ids_then;
          [first [ apply detectGlobalVariables_fresh_ids
                 | apply detectDuplicateCode_fresh_ids
                 | apply detectPrimitiveObsession_fresh_ids
                 | apply detectInappropriateIntimacy_fresh_ids
                 | apply detectComplexConditions_fresh_ids
                 | apply detectDeepNesting_fresh_ids ] |]).
  apply detectLongParameterLists_fresh_ids.
Qed.

Lemma ids_drawn_NoDup (u u' : UuidGen) :
  (forall i j, uuidSource u i = uuidSource u j -> i = j) ->
  NoDup (ids_drawn u u').
Proof.
  intros Hinj. unfold ids_drawn.
  apply NoDup_fmap_2; [intros i j; apply Hinj | apply NoDup_seq].
Qed.

(** X16.  The findings of a returned analysis carry, in order, the
    identifiers the generator handed out during the analysis, one per
    finding; so they are pairwise distinct whenever the generator never
    repeats itself. *)
Theorem analyzeCode_ids_fresh
  (ts_parse : string -> option SyntaxNode) (content file : string)
  (w w' : World) (r : AnalysisResult.t) :
  analyzeCode ts_parse content file w = (Returned r, w') ->
  map id (AnalysisResult.smells r) = ids_drawn (uuids w) (uuids w')
  /\ uuidDrawn (uuids w') = uuidDrawn (uuids w) + length (AnalysisResult.smells r)
  /\ ((forall i j, uuidSource (uuids w) i = uuidSource (uuids w) j -> i = j) ->
      NoDup (map id (AnalysisResult.smells r))).
Proof.
  rewrite analyzeCode_outcome. cbv zeta.
  pose proof (lexical_findings_fresh_ids content file (uuids w)) as (Hsrc & Hle & Hids).
  revert Hsrc Hle Hids.
  generalize (lexical_findings content file (uuids w)). intros found Hsrc Hle Hids.
  destruct (_ || _); [|discriminate].
  destruct (ts_parse content); [|discriminate].
  intros [= <- <-]. cbn [AnalysisResult.smells uuids].
  assert (Hlen : length (fst found) = uuidDrawn (snd found) - uuidDrawn (uuids w)).
  { rewrite <- (length_map id), Hids. unfold ids_drawn.
    by rewrite length_map, length_seq. }
  split; [exact Hids|]. split; [lia|].
  intros Hinj. rewrite Hids. by apply ids_drawn_NoDup.
Qed.

Lemma analyzeCode_ids_fresh_witness :
  map id (AnalysisResult.smells (analysis_of (fst first_run)))
  = ids_drawn (uuids fresh_world) (uuids (snd first_run)).
Proof.
  apply (analyzeCode_ids_fresh flat_parse (two_functions long_body) "a.cpp"
           fresh_world (snd first_run) (analysis_of (fst first_run))).
  vm_compute. reflexivity.
Defined.

(* --------------------------------------------------------------------- *)
(** ** The detectors, one by one *)
(* --------------------------------------------------------------------- *)

(** X17.  [detectLargeClasses] reports nothing, whatever the tree: its
    callback is handed to [walk], which does not call it.  With the parser
    initialised it returns the empty list and changes nothing. *)
Theorem detectLargeClasses_reports_nothing
  (content file : string) (ast : SyntaxNode) (w : World) :
  parserInitialized w = true ->
  detectLargeClasses content file ast w = (Returned [], w).
Proof.
  intros Hinit. unfold detectLargeClasses, bind, getInstance, ret.
  by rewrite Hinit.
Qed.

Lemma detectLargeClasses_reports_nothing_witness :
  detectLargeClasses "class C {};" "a.cpp" derived_class ready_world
  = (Returned [], ready_world).
Proof.
  apply (detectLargeClasses_reports_nothing "class C {};" "a.cpp" derived_class ready_world).
  reflexivity.
Defined.

(** A loop that pushes one finding for each element passing a test gives,
    identities aside, the findings of the elements that pass, in order. *)
Lemma gfold_filter_map {A : Type} (test : A -> bool) (mk : A -> string -> CodeSmell)
  (l : list A) :
  (forall x i, erase_id (mk x i) = mk x EmptyString) ->
  forall s u,
    map erase_id
      (fst (gfold (fun smells x => if test x then push smells (mk x) else gret smells)
              s l u))
    = map erase_id s ++ map (fun x => mk x EmptyString) (List.filter test l).
Proof.
  intros Hmk. induction l as [|x l IH]; intros s u.
  - simpl. by rewrite app_nil_r.
  - rewrite gfold_cons. cbn [List.filter]. destruct (test x).
    + rewrite IH, push_result. cbn [fst]. rewrite map_app. cbn [map].
      rewrite Hmk, <- app_assoc. reflexivity.
    + rewrite IH. reflexivity.
Qed.

(** X18.  [detectLongParameterLists] gives one finding per signature match
    with more than four non-blank parameters, in the order of the text
    and on the line of the match: low for five parameters, medium for six
    and seven, high from eight. *)
Theorem detectLongParameterLists_findings (content file : string) (u : UuidGen) :
  map erase_id (fst (detectLongParameterLists content file u))
  = map (fun m => long_parameter_finding content file m EmptyString)
      (List.filter (fun m => 4 <? paramCount m)
         (Regex.exec_all Patterns.signature content)).
Proof.
  exact (gfold_filter_map (fun m => 4 <? paramCount m)
           (long_parameter_finding content file)
           (Regex.exec_all Patterns.signature content)
           (fun _ _ => eq_refl) [] u).
Qed.

(** The severities at the thresholds, on a text with signatures of five,
    six and one parameters. *)
Example detectLongParameterLists_thresholds :
  map (fun s => (entityName s, lineNumber s, severity s))
    (fst (detectLongParameterLists many_parameters "a.cpp" counting_uuids))
  = [("f", 1, low); ("g", 2, medium)].
Proof. reflexivity. Qed.

(** X19.  [detectGlobalVariables] gives one medium finding per match of
    the declaration pattern that has as many opening as closing braces
    before it, in the order of the text and on the line of the match. *)
Theorem detectGlobalVariables_findings (content file : string) (u : UuidGen) :
  map erase_id (fst (detectGlobalVariables content file u))
  = map (fun m => global_variable_finding content file m EmptyString)
      (List.filter (fun m => (brace_depth content (Regex.index m) =? 0)%Z)
         (Regex.exec_all Patterns.globalVar content)).
Proof.
  exact (gfold_filter_map (fun m => (brace_depth content (Regex.index m) =? 0)%Z)
           (global_variable_finding content file)
           (Regex.exec_all Patterns.globalVar content)
           (fun _ _ => eq_refl) [] u).
Qed.


Lemma shallow_nesting_silent (file : string) (ls : list string) :
  forall i st u,
    nestingSmells st = [] ->
    (maxNestingLevel st + Z.of_nat (count_lines has_open ls) <= 3)%Z ->
    (currentNestingLevel st + Z.of_nat (count_lines has_open ls) <= 3)%Z ->
    nestingSmells (fst (gfold (nesting_step file) st (combine (seq i (length ls)) ls) u))
    = [].
Proof.
  induction ls as [|l ls IH]; intros i st u Hs Hmax Hcur; [exact Hs|].
  cbn [length seq combine]. rewrite gfold_cons.
  rewrite count_lines_cons in Hmax, Hcur.
  unfold nesting_step, nesting_open, nesting_close.
  change (JsString.includes "{" (JsString.trim l)) with (has_open l).
  destruct (has_open l); cbv iota in Hmax, Hcur.
  - destruct (maxNestingLevel st <? currentNestingLevel st + 1)%Z eqn:Hlt.
    + destruct (JsString.includes "}" (JsString.trim l)).
      * unfold gbind. cbv zeta.
        cbn [currentNestingLevel maxNestingLevel nestingStartLine nestingSmells].
        rewrite Z.eqb_refl.
        replace (3 <? currentNestingLevel st + 1)%Z with false
          by (symmetry; apply Z.ltb_ge; lia).
        cbn [andb]. unfold gret. cbn [fst snd].
        apply IH; cbn [nestingSmells maxNestingLevel currentNestingLevel];
          [done | destruct (_ =? 0)%Z eqn:E; [apply Z.eqb_eq in E|]; lia | lia].
      * unfold gret. cbn [fst snd].
        apply IH; cbn [nestingSmells maxNestingLevel currentNestingLevel]; [done | lia | lia].
    + apply Z.ltb_ge in Hlt.
      destruct (JsString.includes "}" (JsString.trim l)).
      * unfold gbind. cbv zeta.
        cbn [currentNestingLevel maxNestingLevel nestingStartLine nestingSmells].
        replace (3 <? maxNestingLevel st)%Z with false
          by (symmetry; apply Z.ltb_ge; lia).
        rewrite andb_false_r. unfold gret. cbn [fst snd].
        apply IH; cbn [nestingSmells maxNestingLevel currentNestingLevel];
          [done | destruct (_ =? 0)%Z eqn:E; [apply Z.eqb_eq in E|]; lia | lia].
      * unfold gret. cbn [fst snd].
        apply IH; cbn [nestingSmells maxNestingLevel currentNestingLevel]; [done | lia | lia].
  - destruct (JsString.includes "}" (JsString.trim l)).
    + unfold gbind. cbv zeta.
      replace (3 <? maxNestingLevel st)%Z with false
        by (symmetry; apply Z.ltb_ge; lia).
      rewrite andb_false_r. unfold gret. cbn [fst snd].
      apply IH; cbn [nestingSmells maxNestingLevel currentNestingLevel];
        [done | destruct (_ =? 0)%Z eqn:E; [apply Z.eqb_eq in E|]; lia | lia].
    + unfold gret. cbn [fst snd]. apply IH; [done | lia | lia].
Qed.

(** X21.  [detectDeepNesting] reports nothing on a text with fewer than
    four lines that hold an opening brace, however the braces are laid
    out. *)
Theorem detectDeepNesting_needs_four_openings (content file : string) (u : UuidGen) :
  count_lines has_open (JsString.lines content) <= 3 ->
  fst (detectDeepNesting content file u) = [].
Proof.
  intros H. unfold detectDeepNesting, indexed, gbind, gret. cbv zeta. cbn [fst].
  apply shallow_nesting_silent; simpl; [done | lia | lia].
Qed.

Lemma detectDeepNesting_needs_four_openings_witness :
  fst (detectDeepNesting shallow_text "a.cpp" counting_uuids) = [].
Proof.
  apply (detectDeepNesting_needs_four_openings shallow_text "a.cpp" counting_uuids).
  vm_compute. lia.
Defined.

Lemma long_bodies_cons (m : Regex.Match) (ms : list Regex.Match) :
  long_bodies (m :: ms)
  = if long_bodied m then normalize_body (Regex.group 4 m) :: long_bodies ms
    else long_bodies ms.
Proof. unfold long_bodies. simpl. by destruct (long_bodied m). Qed.

Lemma duplicate_loop_count (content file : string) (ms : list Regex.Match) :
  forall smells (bodies : gmap string FunctionEntry) u,
    let st := fst (gfold (duplicate_step content file) (smells, bodies) ms u) in
    length (fst st) + size (snd st)
    = length smells + size bodies + length (List.filter long_bodied ms)
    /\ dom (snd st) = dom bodies ∪ list_to_set (long_bodies ms).
Proof.
  induction ms as [|m ms IH]; intros smells bodies u; cbv zeta.
  - simpl. split; [lia | by rewrite union_empty_r_L].
  - rewrite gfold_cons, duplicate_step_eval, long_bodies_cons. cbv zeta.
    cbn [List.filter].
    replace (100 <? String.length (normalize_body (Regex.group 4 m)))
      with (long_bodied m) by reflexivity.
    destruct (long_bodied m) eqn:Hlong.
    + destruct (bodies !! _) as [original|] eqn:Hseen; cbn [fst snd].
      * destruct (IH (smells ++ [mkSmell (uuidSource u (uuidDrawn u)) DuplicateCode file
                    (JsString.line_of content (Regex.index m)) None
                    (Regex.group 2 m +++ "(...) { ... }") (Regex.group 2 m)
                    ("Function " +++ JsString.dquote +++ Regex.group 2 m +++ JsString.dquote
                       +++ " contains code duplicated from " +++ JsString.dquote
                       +++ name original +++ JsString.dquote
                       +++ " (line " +++ JsString.of_nat (entryLine original) +++ ")")
                    "Extract the duplicated code into a shared function that can be called from both places."
                    high None]) bodies (mkUuidGen (uuidSource u) (S (uuidDrawn u))))
          as [Hn Hd].
        rewrite Hn, Hd. rewrite length_app. simpl. split; [lia|].
        apply (elem_of_dom_2 bodies) in Hseen.
        rewrite union_assoc_L. f_equal. symmetry.
        rewrite (union_comm_L (dom bodies)). apply subseteq_union_1_L. by apply singleton_subseteq_l.
      * destruct (IH smells
                    (<[normalize_body (Regex.group 4 m) :=
                         mkFunctionEntry (Regex.group 2 m)
                           (JsString.line_of content (Regex.index m))
                           (normalize_body (Regex.group 4 m))]> bodies) u) as [Hn Hd].
        rewrite Hn, Hd. rewrite map_size_insert_None by done. simpl.
        split; [lia|]. rewrite dom_insert_L.
        by rewrite (union_comm_L {[_]} (dom bodies)), union_assoc_L.
    + cbn [fst snd]. apply IH.
Qed.

(** X22.  [detectDuplicateCode] gives one finding for every function match
    with a long body except the first of each distinct normalised body:
    findings and distinct long bodies together number the long-bodied
    matches.  So it reports nothing exactly when the long bodies are
    pairwise different. *)
Theorem detectDuplicateCode_count (content file : string) (u : UuidGen) :
  let matches := Regex.exec_all Patterns.functionWithBody content in
  length (fst (detectDuplicateCode content file u))
  + size (list_to_set (long_bodies matches) : gset string)
  = length (List.filter long_bodied matches).
Proof.
  cbv zeta. unfold detectDuplicateCode, gbind, gret. cbv zeta. cbn [fst].
  destruct (duplicate_loop_count content file
              (Regex.exec_all Patterns.functionWithBody content) [] ∅ u) as [Hn Hd].
  rewrite map_size_empty in Hn. simpl in Hn.
  rewrite dom_empty_L, union_empty_l_L in Hd.
  rewrite <- Hd, size_dom. lia.
Qed.
